(** * B+tree node primitives of dragonfly's sorted-set index

    A shallow embedding of the node layer of the B+tree
    ([BPNodeLayout], [BPTreeNode]): layout constants, binary search,
    slot shifting, splitting, merging and sibling rebalancing, with the
    properties the design document states about them.

    Integers are modelled as [Z] with the wrap-around of their C++ type
    written out ([u16], [u32], the 7-bit [num_items_] field as [u7]).
    A node is a record with its key slots and child slots; nodes live in
    a heap indexed by their address, and every method of the source is a
    computation in a state monad over that heap.  A computation yields
    [None] when it touches memory outside a node (an unallocated address
    or a slot past the end of the slot array); a failed [assert] clears
    the flag [asserts_ok] and execution goes on, as in a build with
    NDEBUG, so that one definition covers both builds. *)

From Stdlib Require Import ZArith Lia List Bool.
From stdpp Require Import base option list gmap.

Local Open Scope Z_scope.

(** ** Fixed-width integers *)

Definition u7 (x : Z) : Z := x mod 2 ^ 7.
Definition u16 (x : Z) : Z := x mod 2 ^ 16.
Definition u32 (x : Z) : Z := x mod 2 ^ 32.

(** Conversion of an [unsigned] value to [int] (two's complement). *)
Definition to_int (x : Z) : Z :=
  let y := x mod 2 ^ 32 in if y <? 2 ^ 31 then y else y - 2 ^ 32.

(** ** Node layout: [BPNodeLayout<T>] *)

Module BPNodeLayout.

Definition kBPNodeSize : Z := u16 256.

(** [sizeof(uint64_t)] and the size of a node pointer on the 64-bit
    targets the source is written for (its comment computes with 8). *)
Definition sizeof_uint64 : Z := 8.
Definition sizeof_ptr : Z := 8.

Definition kKeyOffset : Z := u16 sizeof_uint64.

(** The argument [kKeySize] is the value of the constant of that name,
    a [uint16_t] holding [sizeof(T)]. *)
Definition kMaxLeafKeys (kKeySize : Z) : Z :=
  u16 ((kBPNodeSize - kKeyOffset) / kKeySize).

Definition kMinLeafKeys (kKeySize : Z) : Z := u16 (kMaxLeafKeys kKeySize / 2).

Definition kMaxInnerKeys (kKeySize : Z) : Z :=
  u16 ((kBPNodeSize - sizeof_ptr - kKeyOffset) / (kKeySize + sizeof_ptr)).

Definition kMinInnerKeys (kKeySize : Z) : Z := u16 (kMaxInnerKeys kKeySize / 2).

(** [static_assert(kMaxLeafKeys < 128)] *)
Definition static_assert_ok (kKeySize : Z) : bool := kMaxLeafKeys kKeySize <? 128.

End BPNodeLayout.

Import BPNodeLayout.

(** ** Slot arrays

    The key region and the child-pointer region of a node are arrays of
    fixed capacity, indexed by machine integers; an access past the
    capacity is outside the node. *)

Definition lenZ {A} (l : list A) : Z := Z.of_nat (length l).

Definition upd {A} (l : list A) (i : Z) (x : A) : list A := <[Z.to_nat i := x]> l.

Definition takeZ {A} (n : Z) (l : list A) : list A := take (Z.to_nat n) l.

(** The [n] slots starting at slot [i]. *)
Definition sliceZ {A} (l : list A) (i n : Z) : list A :=
  take (Z.to_nat n) (drop (Z.to_nat i) l).

(** [l] with the slots starting at slot [i] overwritten with [xs]. *)
Definition blitZ {A} (l : list A) (i : Z) (xs : list A) : list A :=
  take (Z.to_nat i) l ++ xs ++ drop (Z.to_nat i + length xs) l.

Definition fillZ {A} (n : Z) (x : A) : list A := replicate (Z.to_nat n) x.

Definition slot_get {A} (l : list A) (i : Z) : option A :=
  if 0 <=? i then l !! Z.to_nat i else None.

Definition slot_set {A} (l : list A) (i : Z) (x : A) : option (list A) :=
  if (0 <=? i) && (i <? lenZ l) then Some (upd l i x) else None.

Definition slice {A} (l : list A) (i n : Z) : option (list A) :=
  if (0 <=? i) && (0 <=? n) && (i + n <=? lenZ l)
  then Some (sliceZ l i n) else None.

Definition blit {A} (l : list A) (i : Z) (xs : list A) : option (list A) :=
  if (0 <=? i) && (i + lenZ xs <=? lenZ l)
  then Some (blitZ l i xs) else None.

(** ** Nodes, the heap and the monad of node methods *)

(** Node addresses are machine integers; [nullptr] is the address no
    node lives at. *)
Abbreviation ptr := Z (only parsing).
Definition nullptr : ptr := 0.

(** The parameters of the templates: the key type [T], the value of
    [kKeySize] for it and its [operator<]. *)
Class KeyType := mkKeyType {
  KeyT : Type;
  kKeySize : Z;
  key_lt : KeyT -> KeyT -> bool
}.

Section BPTreeNode.

Context {KT : KeyType}.

(** A node: the header fields [num_items_] (7 bits) and [leaf_], the key
    slots starting at [KeyPtr(0)] and the child slots starting at
    [Children()]. *)
Record BPTreeNode := mkNode {
  num_items_ : Z;
  leaf_ : bool;
  key_slots : list KeyT;
  child_slots : list ptr
}.

Record state := mkState {
  heap : gmap Z BPTreeNode;
  asserts_ok : bool
}.

Definition M (A : Type) : Type := state -> option (A * state).

Definition ret {A} (a : A) : M A := fun s => Some (a, s).

Definition bind {A B} (m : M A) (f : A -> M B) : M B :=
  fun s => match m s with Some (a, s') => f a s' | None => None end.

Definition fault {A} : M A := fun _ => None.

Definition lift {A} (o : option A) : M A :=
  fun s => match o with Some a => Some (a, s) | None => None end.

Notation "'do' x <- m ; k" := (bind m (fun x => k))
  (at level 10, x name, m at level 100, k at level 200).

(** [assert(b)]: a false [b] is recorded and execution continues. *)
Definition assert (b : bool) : M unit :=
  fun s => Some (tt, mkState (heap s) (asserts_ok s && b)).

(** An assertion whose condition reads the heap.  The condition has no
    effect on the state; a condition that cannot be evaluated counts as
    a failed assertion. *)
Definition assertM (c : M bool) : M unit :=
  fun s => match c s with
           | Some (b, _) => assert b s
           | None => assert false s
           end.

Definition deref (p : ptr) : M BPTreeNode :=
  fun s => if p =? nullptr then None
           else match heap s !! p with Some n => Some (n, s) | None => None end.

Definition assign (p : ptr) (n : BPTreeNode) : M unit :=
  fun s => Some (tt, mkState (<[p := n]> (heap s)) (asserts_ok s)).

Fixpoint for_each (l : list Z) (body : Z -> M unit) : M unit :=
  match l with
  | [] => ret tt
  | i :: l' => do _ <- body i; for_each l' body
  end.

(** The indices of [for (i = lo; i < hi; ++i)]. *)
Definition range (lo hi : Z) : list Z := seqZ lo (hi - lo).

(** The indices of [for (int i = start; i >= 0; --i)]. *)
Definition down_from (start : Z) : list Z := rev (seqZ 0 (start + 1)).

(** *** Slot regions *)

Record region (A : Type) := mkRegion {
  slots_of : BPTreeNode -> list A;
  with_slots : BPTreeNode -> list A -> BPTreeNode
}.
Arguments slots_of {A}.
Arguments with_slots {A}.

Definition keys_region : region KeyT :=
  mkRegion _ key_slots
    (fun n l => mkNode (num_items_ n) (leaf_ n) l (child_slots n)).

Definition children_region : region ptr :=
  mkRegion _ child_slots
    (fun n l => mkNode (num_items_ n) (leaf_ n) (key_slots n) l).

Definition load_slot {A} (R : region A) (p : ptr) (i : Z) : M A :=
  do n <- deref p; lift (slot_get (slots_of R n) i).

Definition store_slot {A} (R : region A) (p : ptr) (i : Z) (x : A) : M unit :=
  do n <- deref p;
  do l <- lift (slot_set (slots_of R n) i x);
  assign p (with_slots R n l).

(** [memmove] of [n] slots from slot [si] of [src] to slot [di] of
    [dst] (the byte count of the source is [n] times the slot size). *)
Definition memmove {A} (R : region A) (dst : ptr) (di : Z) (src : ptr) (si : Z)
    (n : Z) : M unit :=
  do sn <- deref src;
  do xs <- lift (slice (slots_of R sn) si n);
  do dn <- deref dst;
  do l <- lift (blit (slots_of R dn) di xs);
  assign dst (with_slots R dn l).

(** *** Accessors *)

Definition Key (this : ptr) (index : Z) : M KeyT := load_slot keys_region this index.

Definition SetKey (this : ptr) (index : Z) (item : KeyT) : M unit :=
  store_slot keys_region this index item.

Definition Child (this : ptr) (i : Z) : M ptr := load_slot children_region this i.

Definition SetChild (this : ptr) (i : Z) (child : ptr) : M unit :=
  store_slot children_region this i child.

Definition IsLeaf (this : ptr) : M bool := do n <- deref this; ret (leaf_ n).

Definition NumItems (this : ptr) : M Z := do n <- deref this; ret (num_items_ n).

Definition MaxItems (this : ptr) : M Z :=
  do l <- IsLeaf this;
  ret (if l then kMaxLeafKeys kKeySize else kMaxInnerKeys kKeySize).

Definition MinItems (this : ptr) : M Z :=
  do l <- IsLeaf this;
  ret (if l then kMinLeafKeys kKeySize else kMinInnerKeys kKeySize).

Definition AvailableSlotCount (this : ptr) : M Z :=
  do mx <- MaxItems this;
  do n <- NumItems this;
  ret (u32 (mx - n)).

(** Assignment to the 7-bit field [num_items_]. *)
Definition set_num_items (this : ptr) (v : Z) : M unit :=
  do n <- deref this;
  assign this (mkNode (u7 v) (leaf_ n) (key_slots n) (child_slots n)).

(** Assignment to the 1-bit field [leaf_]. *)
Definition set_leaf (this : ptr) (b : bool) : M unit :=
  do n <- deref this;
  assign this (mkNode (num_items_ n) b (key_slots n) (child_slots n)).


(** *** [BSearch] *)




(** *** [ShiftRight], [ShiftLeft], [InsertItem] *)

Definition ShiftRight (this : ptr) (index : Z) : M unit :=
  do n <- NumItems this;
  let num_items_to_shift := u32 (n - index) in
  do _ <- (if 0 <? num_items_to_shift then
             do _ <- memmove keys_region this (u32 (index + 1)) this index
                       num_items_to_shift;
             do leaf <- IsLeaf this;
             if negb leaf then
               memmove children_region this (u32 (index + 1)) this index
                 (u32 (num_items_to_shift + 1))
             else ret tt
           else ret tt);
  set_num_items this (n + 1).

Definition ShiftLeft (this : ptr) (index : Z) (child_step_right : bool) : M unit :=
  do n <- NumItems this;
  do _ <- assert (index <? n);
  let num_items_to_shift := u32 (n - index - 1) in
  do _ <- (if 0 <? num_items_to_shift then
             do _ <- memmove keys_region this index this (u32 (index + 1))
                       num_items_to_shift;
             do leaf <- IsLeaf this;
             if negb leaf then
               let index := u32 (index + (if child_step_right then 1 else 0)) in
               let num_items_to_shift := u32 (n - index) in
               if 0 <? num_items_to_shift then
                 memmove children_region this index this (u32 (index + 1))
                   num_items_to_shift
               else ret tt
             else ret tt
           else ret tt);
  set_num_items this (n - 1).

Definition LeafEraseRight (this : ptr) : M unit :=
  do leaf <- IsLeaf this;
  do n <- NumItems this;
  do _ <- assert (leaf && (0 <? n));
  set_num_items this (n - 1).

(** [a > b] on keys is read as [b < a]. *)
Definition InsertItem (this : ptr) (index : Z) (item : KeyT) : M unit :=
  do n <- NumItems this;
  do _ <- assert (index <=? n);
  do _ <- assertM (if index =? 0 then ret true
                   else do k <- Key this (u32 (index - 1)); ret (key_lt k item));
  do _ <- assertM (if index =? n then ret true
                   else do k <- Key this index; ret (key_lt item k));
  do _ <- ShiftRight this index;
  SetKey this index item.

Definition LeafInsert (this : ptr) (index : Z) (item : KeyT) : M unit :=
  do _ <- assertM (do leaf <- IsLeaf this;
                   do n <- NumItems this;
                   do mx <- MaxItems this;
                   ret (leaf && (n <? mx)));
  InsertItem this index item.

Definition InnerInsert (this : ptr) (index : Z) (item : KeyT) (child : ptr) : M unit :=
  do _ <- InsertItem this index item;
  SetChild this (u32 (index + 1)) child.

(** *** [RebalanceChildToLeft], [RebalanceChildToRight] *)

Definition add_num_items (this : ptr) (count : Z) : M unit :=
  do n <- NumItems this; set_num_items this (n + count).

Definition sub_num_items (this : ptr) (count : Z) : M unit :=
  do n <- NumItems this; set_num_items this (n - count).

Definition RebalanceChildToLeft (this : ptr) (child_pos count : Z) : M unit :=
  do _ <- assert (0 <? child_pos);
  do src <- Child this child_pos;
  do dest <- Child this (u32 (child_pos - 1));
  do src_items <- NumItems src;
  do _ <- assert (count <=? src_items);
  do _ <- assert (1 <=? count);
  do dest_free <- AvailableSlotCount dest;
  do _ <- assert (count <=? dest_free);
  do dest_items <- NumItems dest;
  (* Move the delimiting value to the left node. *)
  do delim <- Key this (u32 (child_pos - 1));
  do _ <- SetKey dest dest_items delim;
  do _ <- for_each (range 1 count) (fun i =>
            do k <- Key src (u32 (i - 1));
            SetKey dest (u32 (dest_items + i)) k);
  do new_delim <- Key src (u32 (count - 1));
  do _ <- SetKey this (u32 (child_pos - 1)) new_delim;
  (* Shift the values in the right node to their correct position. *)
  do _ <- for_each (range count src_items) (fun i =>
            do k <- Key src i;
            SetKey src (u32 (i - count)) k);
  do src_leaf <- IsLeaf src;
  do _ <- (if negb src_leaf then
             do _ <- for_each (range 0 count) (fun i =>
                       do dest_n <- NumItems dest;
                       do c <- Child src i;
                       SetChild dest (u32 (u32 (1 + dest_n) + i)) c);
             for_each (range count (src_items + 1)) (fun i =>
               do c <- Child src i;
               do _ <- SetChild src (u32 (i - count)) c;
               SetChild src i nullptr)
           else ret tt);
  do _ <- add_num_items dest count;
  sub_num_items src count.

Definition RebalanceChildToRight (this : ptr) (child_pos count : Z) : M unit :=
  do n <- NumItems this;
  do _ <- assert (child_pos <? n);
  do src <- Child this child_pos;
  do dest <- Child this (u32 (child_pos + 1));
  do src_items <- NumItems src;
  do _ <- assert (count <=? src_items);
  do _ <- assert (1 <=? count);
  do dest_free <- AvailableSlotCount dest;
  do _ <- assert (count <=? dest_free);
  do dest_items <- NumItems dest;
  do _ <- assert (0 <? dest_items);
  (* Shift the values in the right node to their correct position. *)
  do _ <- for_each (down_from (to_int (u32 (dest_items - 1)))) (fun i =>
            do k <- Key dest (u32 i);
            SetKey dest (u32 (i + count)) k);
  do new_delim <- Key src (u32 (src_items - count));
  do _ <- for_each (range 1 count) (fun i =>
            let src_id := u32 (u32 (src_items - count) + i) in
            do k <- Key src src_id;
            SetKey dest (u32 (i - 1)) k);
  (* Move parent's delimiter to destination and update it. *)
  do delim <- Key this child_pos;
  do _ <- SetKey dest (u32 (count - 1)) delim;
  do _ <- SetKey this child_pos new_delim;
  do src_leaf <- IsLeaf src;
  do _ <- (if negb src_leaf then
             do _ <- for_each (down_from (to_int dest_items)) (fun i =>
                       do c <- Child dest (u32 i);
                       SetChild dest (u32 (i + count)) c);
             for_each (range 0 count) (fun i =>
               let src_id := u32 (u32 (src_items - u32 (count - 1)) + i) in
               do c <- Child src src_id;
               do _ <- SetChild dest i c;
               SetChild src src_id nullptr)
           else ret tt);
  do _ <- add_num_items dest count;
  sub_num_items src count.

(** *** [RebalanceChild] *)

(** The second half of [RebalanceChild] (the right sibling), entered
    with the current values of the locals [node], [insert_pos] and
    [to_move]. *)
Definition RebalanceChild_right (this : ptr) (pos insert_pos : Z) (node : ptr)
    (to_move : Z) : M (ptr * Z) :=
  do n <- NumItems this;
  if pos <? n then
    do right <- Child this (u32 (pos + 1));
    do dest_free <- AvailableSlotCount right;
    if 0 <? dest_free then
      do to_move <-
        (if insert_pos =? 0 then
           do node_items <- NumItems node;
           do _ <- assert (dest_free <? node_items);
           ret dest_free
         else if 1 <? dest_free then ret (dest_free / 2)
         else ret to_move);
      if negb (to_move =? 0) then
        do _ <- RebalanceChildToRight this pos to_move;
        do node_items <- NumItems node;
        if node_items <? insert_pos then
          ret (right, u32 (insert_pos - u32 (node_items + 1)))
        else ret (node, insert_pos)
      else ret (nullptr, 0)
    else ret (nullptr, 0)
  else ret (nullptr, 0).

Definition RebalanceChild (this : ptr) (pos insert_pos : Z) : M (ptr * Z) :=
  let to_move := 0 in
  do node <- Child this pos;
  if 0 <? pos then
    do left <- Child this (u32 (pos - 1));
    do dest_free <- AvailableSlotCount left;
    if 0 <? dest_free then
      do node_items <- NumItems node;
      do to_move <-
        (if insert_pos =? node_items then
           do _ <- assert (dest_free <? node_items);
           ret dest_free
         else if 1 <? dest_free then ret (dest_free / 2)
         else ret to_move);
      if negb (to_move =? 0) then
        do dest_old_count <- NumItems left;
        do _ <- RebalanceChildToLeft this pos to_move;
        do _ <- assertM (do a <- AvailableSlotCount node; ret (a =? to_move));
        if insert_pos <? to_move then
          do _ <- assertM (do a <- AvailableSlotCount left; ret (0 <? a));
          ret (left, u32 (dest_old_count + insert_pos + 1))
        else ret (node, u32 (insert_pos - to_move))
      else RebalanceChild_right this pos insert_pos node to_move
    else RebalanceChild_right this pos insert_pos node to_move
  else RebalanceChild_right this pos insert_pos node to_move.

(** *** [MergeFromRight], [MergeOrRebalanceChild], [Split] *)

Definition MergeFromRight (this : ptr) (key : KeyT) (right : ptr) : M unit :=
  do _ <- assertM (do n <- NumItems this;
                   do rn <- NumItems right;
                   do mx <- MaxItems this;
                   ret (u32 (n + 1 + rn) <=? mx));
  do dest_items <- NumItems this;
  do _ <- SetKey this dest_items key;
  do right_items <- NumItems right;
  do _ <- for_each (range 0 right_items) (fun i =>
            do k <- Key right i;
            SetKey this (u32 (dest_items + 1 + i)) k);
  do leaf <- IsLeaf this;
  do _ <- (if negb leaf then
             for_each (range 0 (right_items + 1)) (fun i =>
               do c <- Child right i;
               SetChild this (u32 (dest_items + 1 + i)) c)
           else ret tt);
  do rn <- NumItems right;
  do _ <- add_num_items this (u32 (1 + rn));
  set_num_items right 0.

(** The part of [MergeOrRebalanceChild] after the attempt to merge into
    the left sibling, entered with the local [left] ([nullptr] when
    [pos] is 0). *)
Definition MergeOrRebalanceChild_rest (this : ptr) (pos : Z) (node left : ptr)
    : M ptr :=
  do n <- NumItems this;
  if pos <? n then
    do right <- Child this (u32 (pos + 1));
    do node_items <- NumItems node;
    do right_items <- NumItems right;
    do right_max <- MaxItems right;
    if u32 (node_items + 1 + right_items) <=? right_max then
      do sep <- Key this pos;
      do _ <- MergeFromRight node sep right;
      do _ <- ShiftLeft this pos true;
      ret right
    else
      let to_move := u32 (right_items - node_items) / 2 in
      do _ <- assert (to_move <? right_items);
      do _ <- RebalanceChildToLeft this (u32 (pos + 1)) to_move;
      ret nullptr
  else
    do _ <- assert (negb (left =? nullptr));
    if negb (left =? nullptr) then
      do left_items <- NumItems left;
      do node_items <- NumItems node;
      let to_move := u32 (left_items - node_items) / 2 in
      do _ <- assert (to_move <? left_items);
      do _ <- RebalanceChildToRight this (u32 (pos - 1)) to_move;
      ret nullptr
    else ret nullptr.

Definition MergeOrRebalanceChild (this : ptr) (pos : Z) : M ptr :=
  do node <- Child this pos;
  let left := nullptr in
  do n <- NumItems this;
  do _ <- assert (1 <=? n);
  do _ <- assertM (do node_items <- NumItems node;
                   do node_min <- MinItems node;
                   ret (node_items <? node_min));
  if 0 <? pos then
    do left <- Child this (u32 (pos - 1));
    do left_items <- NumItems left;
    do node_items <- NumItems node;
    do left_max <- MaxItems left;
    if u32 (left_items + 1 + node_items) <=? left_max then
      do sep <- Key this (u32 (pos - 1));
      do _ <- MergeFromRight left sep node;
      do _ <- ShiftLeft this (u32 (pos - 1)) true;
      ret node
    else MergeOrRebalanceChild_rest this pos node left
  else MergeOrRebalanceChild_rest this pos node left.

(** [Split(right, &median)]; the median written through the pointer is
    the result of the computation. *)
Definition Split (this right : ptr) : M KeyT :=
  do n <- NumItems this;
  let mid := u32 (n / 2) in
  do median <- Key this mid;
  do leaf <- IsLeaf this;
  do _ <- set_leaf right leaf;
  do n <- NumItems this;
  do _ <- set_num_items right (u32 (n - u32 (mid + 1)));
  do right_items <- NumItems right;
  do _ <- memmove keys_region right 0 this (u32 (mid + 1)) right_items;
  do leaf <- IsLeaf this;
  do _ <- (if negb leaf then
             for_each (range 0 (right_items + 1)) (fun i =>
               do c <- Child this (u32 (mid + 1 + i));
               SetChild right i c)
           else ret tt);
  do _ <- set_num_items this mid;
  ret median.

(** ** Vocabulary of the specification *)

(** The keys a node holds: its first [num_items_] key slots. *)
Definition live_keys (n : BPTreeNode) : list KeyT :=
  takeZ (num_items_ n) (key_slots n).

(** The children an inner node holds: its first [num_items_ + 1] child
    slots. *)
Definition live_children (n : BPTreeNode) : list ptr :=
  takeZ (num_items_ n + 1) (child_slots n).

Definition node_max (n : BPTreeNode) : Z :=
  if leaf_ n then kMaxLeafKeys kKeySize else kMaxInnerKeys kKeySize.

Definition node_min (n : BPTreeNode) : Z :=
  if leaf_ n then kMinLeafKeys kKeySize else kMinInnerKeys kKeySize.

(** A node as it lies in its 256-byte block: the count is within the
    capacity of its kind, there are as many key slots as the kind allows
    and, in an inner node, one child slot more. *)
Definition node_ok (n : BPTreeNode) : Prop :=
  0 <= num_items_ n <= node_max n /\
  lenZ (key_slots n) = node_max n /\
  (leaf_ n = false -> lenZ (child_slots n) = node_max n + 1).

(** The comparator is a three-way comparison of a total order. *)
Definition three_way_order (cmp_op : KeyT -> KeyT -> Z) : Prop :=
  (forall a b, cmp_op a b < 0 <-> 0 < cmp_op b a) /\
  (forall a b c, cmp_op a b < 0 -> cmp_op b c < 0 -> cmp_op a c < 0) /\
  (forall a b c, cmp_op a b = 0 -> cmp_op b c < 0 -> cmp_op a c < 0).

(** The keys of a node are strictly increasing under the comparator. *)
Definition keys_increasing (cmp_op : KeyT -> KeyT -> Z) (n : BPTreeNode) : Prop :=
  forall i j a b, 0 <= i -> i < j -> j < num_items_ n ->
    slot_get (key_slots n) i = Some a -> slot_get (key_slots n) j = Some b ->
    cmp_op a b < 0.

End BPTreeNode.

(** ** Vocabulary of the proofs *)

Section ProofVocabulary.

Context {KT : KeyType}.

(** A heap in which a parent and two of its children have been
    replaced. *)
Definition heap3 (H : gmap Z BPTreeNode) (this : ptr) (P : BPTreeNode)
    (dst : ptr) (D : BPTreeNode) (src : ptr) (S : BPTreeNode)
    : gmap Z BPTreeNode :=
  <[src := S]> (<[dst := D]> (<[this := P]> H)).

End ProofVocabulary.

(** ** Vocabulary of the claims *)

Section ClaimVocabulary.

Context {KT : KeyType}.

(** The effect of moving items between the children [lc] and [rc] of
    the parent [this], which lie left and right of the separator at
    slot [i]: [dl] and [dr] are the changes of their counts.  The parent
    keeps its count and its children, only the separator changes, and
    the keys of the left child, the separator and the keys of the right
    child read in this order are the same sequence as before (so the
    same multiset); in inner children the same holds for the child
    pointers.  No other node changes. *)
Definition rebalanced (s s' : state) (this : ptr) (p : BPTreeNode) (i : Z)
    (lc : ptr) (ln : BPTreeNode) (rc : ptr) (rn : BPTreeNode) (dl dr : Z)
    : Prop :=
  exists p' ln' rn' sep sep',
    heap s' !! this = Some p' /\ heap s' !! lc = Some ln' /\
    heap s' !! rc = Some rn' /\
    (forall q, q <> this -> q <> lc -> q <> rc -> heap s' !! q = heap s !! q) /\
    num_items_ p' = num_items_ p /\ leaf_ p' = leaf_ p /\
    child_slots p' = child_slots p /\
    (forall j, j <> i -> slot_get (key_slots p') j = slot_get (key_slots p) j) /\
    slot_get (key_slots p) i = Some sep /\
    slot_get (key_slots p') i = Some sep' /\
    live_keys ln' ++ [sep'] ++ live_keys rn' =
      live_keys ln ++ [sep] ++ live_keys rn /\
    Permutation (live_keys ln' ++ [sep'] ++ live_keys rn')
      (live_keys ln ++ [sep] ++ live_keys rn) /\
    (leaf_ ln = false ->
     live_children ln' ++ live_children rn' =
       live_children ln ++ live_children rn) /\
    num_items_ ln' = num_items_ ln + dl /\
    num_items_ rn' = num_items_ rn + dr /\
    leaf_ ln' = leaf_ ln /\ leaf_ rn' = leaf_ rn /\
    node_ok ln' /\ node_ok rn' /\ node_ok p'.

(** The effect of merging the child [rc], right of the separator at
    slot [i] of the parent [this], into the child [lc] left of it: [lc]
    holds its old keys, the separator and the keys of [rc] (and, when
    inner, the children of both), [rc] is left empty, and the parent
    loses the separator and the child pointer right of it.  No other
    node changes. *)
Definition merged (s s' : state) (this : ptr) (p : BPTreeNode) (i : Z)
    (lc : ptr) (ln : BPTreeNode) (rc : ptr) (rn : BPTreeNode) : Prop :=
  exists p' ln' rn' sep,
    heap s' !! this = Some p' /\ heap s' !! lc = Some ln' /\
    heap s' !! rc = Some rn' /\
    (forall q, q <> this -> q <> lc -> q <> rc -> heap s' !! q = heap s !! q) /\
    slot_get (key_slots p) i = Some sep /\
    num_items_ p' = num_items_ p - 1 /\ leaf_ p' = leaf_ p /\
    live_keys p' = delete (Z.to_nat i) (live_keys p) /\
    live_children p' = delete (Z.to_nat (i + 1)) (live_children p) /\
    live_keys ln' = live_keys ln ++ [sep] ++ live_keys rn /\
    (leaf_ ln = false ->
     live_children ln' = live_children ln ++ live_children rn) /\
    num_items_ ln' = num_items_ ln + 1 + num_items_ rn /\
    leaf_ ln' = leaf_ ln /\
    num_items_ rn' = 0 /\ live_keys rn' = [] /\
    node_ok ln' /\ node_ok p'.

(** The child at slot [i] of the node [p]: its address and the node
    stored there. *)
Definition child_at (H : gmap Z BPTreeNode) (p : BPTreeNode) (i : Z)
    (q : ptr) (n : BPTreeNode) : Prop :=
  slot_get (child_slots p) i = Some q /\ q <> nullptr /\
  H !! q = Some n /\ node_ok n.

(** The number of items [RebalanceChild] moves to a sibling that has
    [free] free slots; [far_end] tells whether the pending insert is at
    the end of the child that is away from this sibling.  The result 0
    means that it moves nothing to this sibling. *)
Definition rebalance_to_move (far_end : bool) (free : Z) : Z :=
  if 0 <? free then
    if far_end then free else if 1 <? free then free / 2 else 0
  else 0.

(** The keys of the node at address [q]. *)
Definition child_keys (s : state) (q : ptr) : list KeyT :=
  match heap s !! q with Some n => live_keys n | None => [] end.

(** The in-order key sequence of the parent [this] around its separator
    at slot [i]: the keys of the child left of it, the separator, the
    keys of the child right of it. *)
Definition sibling_keys (s : state) (this : ptr) (i : Z) : list KeyT :=
  match heap s !! this with
  | Some p =>
      match slot_get (child_slots p) i, slot_get (key_slots p) i,
            slot_get (child_slots p) (i + 1) with
      | Some lc, Some sep, Some rc => child_keys s lc ++ [sep] ++ child_keys s rc
      | _, _, _ => []
      end
  | None => []
  end.

(** The sequence [w] with [x] inserted before position [o]. *)
Definition insert_at (o : Z) (x : KeyT) (w : list KeyT) : list KeyT :=
  takeZ o w ++ [x] ++ sliceZ w o (lenZ w - o).

End ClaimVocabulary.

(** ** Sample trees

    Nodes with 64-byte keys, represented by integers: a leaf holds up to
    three keys and an inner node up to three keys and four children;
    the minimum of both kinds is one. *)

Definition Key64 : KeyType := mkKeyType Z 64 Z.ltb.

(** A three-way comparison of integer keys. *)
Definition cmp_sub (a b : Z) : Z := a - b.

Definition leaf_node (n : Z) (ks : list Z) : @BPTreeNode Key64 :=
  @mkNode Key64 n true ks [].

Definition inner_node (n : Z) (ks : list Z) (cs : list Z) : @BPTreeNode Key64 :=
  @mkNode Key64 n false ks cs.

Definition tree_of (l : list (Z * @BPTreeNode Key64)) : @state Key64 :=
  @mkState Key64 (list_to_map l) true.

(** A parent at address 10 with one separator and the children at the
    addresses 20 and 30. *)
Definition parent10 : @BPTreeNode Key64 := inner_node 1 [100; 0; 0] [20; 30; 0; 0].

(** The right child is full and the left one has one free slot. *)
Definition tree_full_right : @state Key64 :=
  tree_of [(10, parent10); (20, leaf_node 2 [1; 2; 0]);
           (30, leaf_node 3 [200; 300; 400])].

(** The left child is empty and the right one is full. *)
Definition tree_empty_left : @state Key64 :=
  tree_of [(10, parent10); (20, leaf_node 0 [0; 0; 0]);
           (30, leaf_node 3 [200; 300; 400])].

(** The left child is full and the right one is empty. *)
Definition tree_empty_right : @state Key64 :=
  tree_of [(10, parent10); (20, leaf_node 3 [1; 2; 3]);
           (30, leaf_node 0 [0; 0; 0])].

(** Both children have room. *)
Definition tree_roomy : @state Key64 :=
  tree_of [(10, parent10); (20, leaf_node 1 [1; 0; 0]);
           (30, leaf_node 1 [200; 0; 0])].

(** A full leaf at address 30 and a fresh node at address 40. *)
Definition tree_to_split : @state Key64 :=
  tree_of [(30, leaf_node 3 [200; 300; 400]); (40, leaf_node 0 [0; 0; 0])].

(** ** Byte offsets of the slots

    [KeyPtr] and [InnerKeysEnd] as offsets from the address of the
    node: the product [kKeySize * index] is computed in [unsigned], the
    product [kKeySize * kMaxInnerKeys] in [int]. *)

Definition KeyPtr (kKeySize index : Z) : Z :=
  kKeyOffset + u32 (kKeySize * index).

Definition InnerKeysEnd (kKeySize : Z) : Z :=
  kKeyOffset + to_int (kKeySize * kMaxInnerKeys kKeySize).

(** The offset of [Children()[i]]. *)
Definition Children_at (kKeySize i : Z) : Z :=
  InnerKeysEnd kKeySize + sizeof_ptr * i.

(** ** [BPTreePath<T>] *)

Module BPTreePath.

Section Path.

Context {KT : KeyType}.

Notation "'do' x <- m ; k" := (bind m (fun x => k))
  (at level 10, x name, m at level 100, k at level 200).

Definition kMaxDepth : Z := 16.

Record Record_ := mkRecord { node : Z; pos : Z }.

(** The path: the array [record_] of [kMaxDepth] records and the
    [unsigned] field [depth_]. *)
Record t := mkPath { record_ : list Record_; depth_ : Z }.

(** An access to [record_] past its end is outside the path object. *)
Definition Push (path : t) (node : Z) (pos : Z) : M t :=
  do _ <- assert (depth_ path <? kMaxDepth);
  do r <- lift (slot_set (record_ path) (depth_ path) (mkRecord node pos));
  ret (mkPath r (u32 (depth_ path + 1))).

Definition Depth (path : t) : Z := depth_ path.

Definition Last (path : t) : M (Z * Z) :=
  do _ <- assert (0 <? depth_ path);
  do r <- lift (slot_get (record_ path) (u32 (depth_ path - 1)));
  ret (node r, pos r).

Definition Node (path : t) (i : Z) : M Z :=
  do _ <- assert (i <? depth_ path);
  do r <- lift (slot_get (record_ path) i);
  ret (node r).

Definition Position (path : t) (i : Z) : M Z :=
  do _ <- assert (i <? depth_ path);
  do r <- lift (slot_get (record_ path) i);
  ret (pos r).

Definition Pop (path : t) : M t :=
  do _ <- assert (0 <? depth_ path);
  ret (mkPath (record_ path) (u32 (depth_ path - 1))).

(** The [do ... while (!last->IsLeaf())] loop of [DigRight].  Every
    iteration pushes a record, so [fuel] bounds the iterations. *)
Fixpoint DigRight_loop (fuel : nat) (path : t) (last : Z) : M t :=
  match fuel with
  | O => fault
  | S fuel' =>
      do pos <- NumItems last;
      do n <- NumItems last;
      do child <- Child last n;
      do path <- Push path child pos;
      let last := child in
      do leaf <- IsLeaf last;
      if negb leaf then DigRight_loop fuel' path last else ret path
  end.

(** The loop leaves the array after at most [kMaxDepth] pushes, which
    is why [kMaxDepth + 1] iterations are enough. *)
Definition DigRight (path : t) : M t :=
  do _ <- assertM (if 0 <? depth_ path
                   then do l <- Last path;
                        do leaf <- IsLeaf (fst l);
                        ret (negb leaf)
                   else ret false);
  do l <- Last path;
  DigRight_loop (Z.to_nat (kMaxDepth + 1)) path (fst l).

(** The records [DigRight] pushes below the node [last]: one for the
    last child of every node on the way, down to the first leaf. *)
Inductive right_spine (H : gmap Z BPTreeNode) : Z -> list Record_ -> Prop :=
  | spine_leaf last n child cn :
      last <> nullptr -> H !! last = Some n ->
      slot_get (child_slots n) (num_items_ n) = Some child ->
      child <> nullptr -> H !! child = Some cn -> leaf_ cn = true ->
      right_spine H last [mkRecord child (num_items_ n)]
  | spine_inner last n child cn l :
      last <> nullptr -> H !! last = Some n ->
      slot_get (child_slots n) (num_items_ n) = Some child ->
      child <> nullptr -> H !! child = Some cn -> leaf_ cn = false ->
      right_spine H child l ->
      right_spine H last (mkRecord child (num_items_ n) :: l).

End Path.

End BPTreePath.

(** ** Vocabulary of the further properties *)

Section OrderVocabulary.

Context {KT : KeyType}.

(** A sequence of keys is strictly increasing under the comparator. *)
Definition seq_increasing (cmp_op : KeyT -> KeyT -> Z) (w : list KeyT) : Prop :=
  forall i j a b, 0 <= i -> i < j ->
    slot_get w i = Some a -> slot_get w j = Some b -> cmp_op a b < 0.

(** [operator<] is the order of the comparator. *)
Definition lt_agrees (cmp_op : KeyT -> KeyT -> Z) : Prop :=
  forall a b, key_lt a b = true <-> cmp_op a b < 0.

(** The node [InsertItem(idx, x)] leaves behind: the keys from [idx] on
    and, in an inner node, the children from [idx] on are moved up by
    one slot, and [x] is stored at slot [idx]. *)
Definition inserted (n : BPTreeNode) (idx : Z) (x : KeyT) : BPTreeNode :=
  mkNode (num_items_ n + 1) (leaf_ n)
    (upd (if 0 <? num_items_ n - idx
          then blitZ (key_slots n) (idx + 1)
                 (sliceZ (key_slots n) idx (num_items_ n - idx))
          else key_slots n) idx x)
    (if (0 <? num_items_ n - idx) && negb (leaf_ n)
     then blitZ (child_slots n) (idx + 1)
            (sliceZ (child_slots n) idx (num_items_ n - idx + 1))
     else child_slots n).

(** The node [InnerInsert(idx, x, c)] leaves behind. *)
Definition inserted_child (n : BPTreeNode) (idx : Z) (x : KeyT) (c : Z)
    : BPTreeNode :=
  mkNode (num_items_ n + 1) (leaf_ n) (key_slots (inserted n idx x))
    (upd (child_slots (inserted n idx x)) (idx + 1) c).

(** The sequence [w] with [c] inserted before position [o]. *)
Definition insert_child_at (o : Z) (c : Z) (w : list Z) : list Z :=
  takeZ o w ++ [c] ++ sliceZ w o (lenZ w - o).

(** The keys below a parent read in order: the keys of the first
    child, the first separator, the keys of the second child, and so on
    to the keys of the last child. *)
Fixpoint interleave (s : state) (cs : list Z) (ks : list KeyT) : list KeyT :=
  match cs with
  | [] => []
  | c :: cs' =>
      child_keys s c ++
      match ks with
      | [] => []
      | k :: ks' => k :: interleave s cs' ks'
      end
  end.

Definition inorder (s : state) (this : Z) : list KeyT :=
  match heap s !! this with
  | Some p => interleave s (live_children p) (live_keys p)
  | None => []
  end.

End OrderVocabulary.

(** ** Sample paths *)

(** An empty path, and a path that holds the parent of the sample
    trees. *)
Definition path_empty : BPTreePath.t :=
  BPTreePath.mkPath (replicate 16 (BPTreePath.mkRecord 0 0)) 0.

Definition path_at_parent : BPTreePath.t :=
  BPTreePath.mkPath
    (BPTreePath.mkRecord 10 0 :: replicate 15 (BPTreePath.mkRecord 0 0)) 1.

(** ** A sample tree with 32-byte keys *)

(** With 32-byte keys a leaf holds up to seven keys and at least three,
    an inner node up to six. *)
Definition Key32 : KeyType := mkKeyType Z 32 Z.ltb.

Definition parent32 : @BPTreeNode Key32 :=
  @mkNode Key32 1 false [100; 0; 0; 0; 0; 0] [20; 30; 0; 0; 0; 0; 0].

Definition leaf32_short : @BPTreeNode Key32 :=
  @mkNode Key32 2 true [1; 2; 0; 0; 0; 0; 0] [].

Definition leaf32_full : @BPTreeNode Key32 :=
  @mkNode Key32 7 true [200; 300; 400; 500; 600; 700; 800] [].

(** The left child holds two keys, one less than the minimum, and the
    right one is full. *)
Definition tree_short_left : @state Key32 :=
  @mkState Key32
    (list_to_map [(10, parent32); (20, leaf32_short); (30, leaf32_full)]) true.

(** The sample parent with its two children and a fresh node at
    address 40. *)
Definition tree_with_spare : @state Key64 :=
  tree_of [(10, parent10); (20, leaf_node 2 [1; 2; 0]);
           (30, leaf_node 3 [200; 300; 400]); (40, leaf_node 0 [0; 0; 0])].
(** * Proofs *)

(** ** Fixed-width integers *)

Lemma u7_small x : 0 <= x < 128 -> u7 x = x.
Proof. intros; unfold u7; apply Z.mod_small; lia. Qed.

Lemma u16_small x : 0 <= x < 65536 -> u16 x = x.
Proof. intros; unfold u16; apply Z.mod_small; lia. Qed.

Lemma u32_small x : 0 <= x < 4294967296 -> u32 x = x.
Proof. intros; unfold u32; apply Z.mod_small; lia. Qed.

Lemma to_int_small x : 0 <= x < 2147483648 -> to_int x = x.
Proof.
  intros; unfold to_int. rewrite Z.mod_small by lia.
  destruct (Z.ltb_spec x (2 ^ 31)); lia.
Qed.

Lemma to_int_u32_pred x : 0 <= x < 2147483648 -> to_int (u32 (x - 1)) = x - 1.
Proof.
  intros. destruct (Z.eq_dec x 0) as [->|]; [reflexivity|].
  rewrite u32_small by lia. apply to_int_small. lia.
Qed.

(** ** Slot arrays *)

Section SlotArrays.

Context {A : Type}.
Implicit Types (l xs : list A) (i j n : Z) (x : A).

Lemma lenZ_nonneg l : 0 <= lenZ l.
Proof. unfold lenZ; lia. Qed.

Lemma lenZ_nil : lenZ (@nil A) = 0.
Proof. reflexivity. Qed.

Lemma lenZ_cons x l : lenZ (x :: l) = 1 + lenZ l.
Proof. unfold lenZ; simpl; lia. Qed.

Lemma lenZ_app l xs : lenZ (l ++ xs) = lenZ l + lenZ xs.
Proof. unfold lenZ; rewrite length_app; lia. Qed.

Lemma lenZ_upd l i x : lenZ (upd l i x) = lenZ l.
Proof. unfold lenZ, upd; now rewrite length_insert. Qed.

Lemma lenZ_takeZ n l : 0 <= n <= lenZ l -> lenZ (takeZ n l) = n.
Proof. unfold lenZ, takeZ; intros; rewrite length_take; lia. Qed.

Lemma lenZ_sliceZ l i n :
  0 <= i -> 0 <= n -> i + n <= lenZ l -> lenZ (sliceZ l i n) = n.
Proof.
  unfold lenZ, sliceZ; intros. rewrite length_take, length_drop. lia.
Qed.

Lemma lenZ_blitZ l i xs :
  0 <= i -> i + lenZ xs <= lenZ l -> lenZ (blitZ l i xs) = lenZ l.
Proof.
  unfold lenZ, blitZ; intros.
  rewrite !length_app, length_take, length_drop. lia.
Qed.

Lemma lenZ_fillZ n x : 0 <= n -> lenZ (fillZ n x) = n.
Proof. unfold lenZ, fillZ; intros; rewrite length_replicate; lia. Qed.

Lemma slot_get_lt l i x : slot_get l i = Some x -> 0 <= i < lenZ l.
Proof.
  unfold slot_get, lenZ. destruct (Z.leb_spec 0 i); [|discriminate].
  intros E. apply lookup_lt_Some in E. lia.
Qed.

Lemma slot_get_is_Some l i : 0 <= i < lenZ l -> exists x, slot_get l i = Some x.
Proof.
  unfold slot_get, lenZ; intros. destruct (Z.leb_spec 0 i); [|lia].
  destruct (lookup_lt_is_Some_2 l (Z.to_nat i)) as [x E]; [lia|]. eauto.
Qed.

Lemma slot_get_None l i : i < 0 \/ lenZ l <= i -> slot_get l i = None.
Proof.
  unfold slot_get, lenZ; intros. destruct (Z.leb_spec 0 i); [|reflexivity].
  apply lookup_ge_None. lia.
Qed.

Lemma slot_ext l xs :
  lenZ l = lenZ xs ->
  (forall j, 0 <= j < lenZ l -> slot_get l j = slot_get xs j) ->
  l = xs.
Proof.
  unfold lenZ, slot_get; intros Hlen H. apply list_eq; intros k.
  destruct (decide (k < length l)%nat) as [Hk|Hk].
  - specialize (H (Z.of_nat k) ltac:(lia)).
    destruct (Z.leb_spec 0 (Z.of_nat k)); [|lia].
    now rewrite Nat2Z.id in H.
  - rewrite !lookup_ge_None_2; [reflexivity|lia|lia].
Qed.

Lemma slot_get_upd l i x j :
  0 <= i < lenZ l ->
  slot_get (upd l i x) j = if j =? i then Some x else slot_get l j.
Proof.
  unfold slot_get, upd, lenZ; intros.
  destruct (Z.eqb_spec j i) as [->|Hne].
  - destruct (Z.leb_spec 0 i); [|lia]. apply list_lookup_insert_eq. lia.
  - destruct (Z.leb_spec 0 j); [|reflexivity].
    apply list_lookup_insert_ne. lia.
Qed.

Lemma slot_get_app l xs j :
  slot_get (l ++ xs) j =
  if j <? lenZ l then slot_get l j else slot_get xs (j - lenZ l).
Proof.
  unfold slot_get, lenZ.
  destruct (Z.ltb_spec j (Z.of_nat (length l))).
  - destruct (Z.leb_spec 0 j); [|reflexivity]. apply lookup_app_l. lia.
  - destruct (Z.leb_spec 0 j); [|lia].
    destruct (Z.leb_spec 0 (j - Z.of_nat (length l))); [|lia].
    rewrite lookup_app_r by lia. f_equal. lia.
Qed.

Lemma slot_get_cons x l j :
  slot_get (x :: l) j = if j =? 0 then Some x else slot_get l (j - 1).
Proof.
  unfold slot_get. destruct (Z.eqb_spec j 0) as [->|Hne]; [reflexivity|].
  destruct (Z.leb_spec 0 j); destruct (Z.leb_spec 0 (j - 1)); try lia;
    [|reflexivity].
  replace (Z.to_nat j) with (S (Z.to_nat (j - 1))) by lia. reflexivity.
Qed.

Lemma slot_get_nil j : slot_get (@nil A) j = None.
Proof. unfold slot_get. now destruct (0 <=? j). Qed.

Lemma slot_get_takeZ n l j :
  slot_get (takeZ n l) j = if j <? n then slot_get l j else None.
Proof.
  unfold slot_get, takeZ.
  destruct (Z.leb_spec 0 j); [|now destruct (j <? n)].
  destruct (Z.ltb_spec j n).
  - apply lookup_take_lt. lia.
  - apply lookup_take_ge. lia.
Qed.

Lemma slot_get_sliceZ l i n j :
  0 <= i ->
  slot_get (sliceZ l i n) j =
  if (0 <=? j) && (j <? n) then slot_get l (i + j) else None.
Proof.
  unfold slot_get, sliceZ; intros.
  destruct (Z.leb_spec 0 j); [|reflexivity]. simpl.
  destruct (Z.leb_spec 0 (i + j)); [|lia].
  destruct (Z.ltb_spec j n).
  - rewrite lookup_take_lt by lia. rewrite lookup_drop. f_equal. lia.
  - apply lookup_take_ge. lia.
Qed.

Lemma slot_get_blitZ l i xs j :
  0 <= i -> i + lenZ xs <= lenZ l ->
  slot_get (blitZ l i xs) j =
  if (i <=? j) && (j <? i + lenZ xs) then slot_get xs (j - i) else slot_get l j.
Proof.
  unfold blitZ; intros Hi Hlen.
  assert (Ht : lenZ (take (Z.to_nat i) l) = i).
  { unfold lenZ in *. rewrite length_take. lia. }
  rewrite slot_get_app, Ht.
  destruct (Z.ltb_spec j i).
  - destruct (Z.leb_spec i j); [lia|]. simpl.
    change (take (Z.to_nat i) l) with (takeZ i l). rewrite slot_get_takeZ.
    destruct (Z.ltb_spec j i); [reflexivity|lia].
  - destruct (Z.leb_spec i j); [|lia]. simpl.
    rewrite slot_get_app.
    destruct (Z.ltb_spec (j - i) (lenZ xs)); destruct (Z.ltb_spec j (i + lenZ xs));
      try lia; [reflexivity|].
    unfold slot_get, lenZ in *.
    destruct (Z.leb_spec 0 (j - i - Z.of_nat (length xs))); [|lia].
    destruct (Z.leb_spec 0 j); [|lia].
    rewrite lookup_drop. f_equal. lia.
Qed.

Lemma slot_get_fillZ n x j :
  slot_get (fillZ n x) j = if (0 <=? j) && (j <? n) then Some x else None.
Proof.
  unfold slot_get, fillZ.
  destruct (Z.leb_spec 0 j); [|reflexivity]. simpl.
  destruct (Z.ltb_spec j n).
  - apply lookup_replicate_2. lia.
  - apply lookup_ge_None. rewrite length_replicate. lia.
Qed.

Lemma lenZ_delete l i :
  0 <= i < lenZ l -> lenZ (delete (Z.to_nat i) l) = lenZ l - 1.
Proof.
  unfold lenZ; intros.
  destruct (lookup_lt_is_Some_2 l (Z.to_nat i)) as [x E]; [lia|].
  rewrite length_delete by eauto. lia.
Qed.

Lemma slot_get_delete l i j :
  0 <= i ->
  slot_get (delete (Z.to_nat i) l) j =
  if j <? i then slot_get l j else slot_get l (j + 1).
Proof.
  unfold slot_get; intros.
  destruct (Z.ltb_spec j i).
  - destruct (Z.leb_spec 0 j); [|reflexivity]. apply list_lookup_delete_lt. lia.
  - destruct (Z.leb_spec 0 j); [|lia]. destruct (Z.leb_spec 0 (j + 1)); [|lia].
    rewrite list_lookup_delete_ge by lia. f_equal. lia.
Qed.

Lemma slot_set_Some l i x :
  0 <= i < lenZ l -> slot_set l i x = Some (upd l i x).
Proof.
  unfold slot_set; intros.
  destruct (Z.leb_spec 0 i); [|lia]. destruct (Z.ltb_spec i (lenZ l)); [|lia].
  reflexivity.
Qed.

Lemma slice_Some l i n :
  0 <= i -> 0 <= n -> i + n <= lenZ l -> slice l i n = Some (sliceZ l i n).
Proof.
  unfold slice; intros.
  destruct (Z.leb_spec 0 i); [|lia]. destruct (Z.leb_spec 0 n); [|lia].
  destruct (Z.leb_spec (i + n) (lenZ l)); [|lia]. reflexivity.
Qed.

Lemma blit_Some l i xs :
  0 <= i -> i + lenZ xs <= lenZ l -> blit l i xs = Some (blitZ l i xs).
Proof.
  unfold blit; intros.
  destruct (Z.leb_spec 0 i); [|lia].
  destruct (Z.leb_spec (i + lenZ xs) (lenZ l)); [|lia]. reflexivity.
Qed.

End SlotArrays.

(** Tactics for goals about slot arrays: the length of every array
    expression is recorded once, then two arrays are compared slot by
    slot. *)

(** Reflexivity for goals whose sides are the same term as written. *)
Ltac srefl := match goal with |- ?a = ?b => constr_eq a b; reflexivity end.

Ltac unfold_locals :=
  repeat match goal with x := _ |- _ => subst x end.

Ltac have_len t := match goal with _ : lenZ t = _ |- _ => idtac end.

Ltac nonneg_fact t :=
  lazymatch goal with
  | _ : 0 <= lenZ t |- _ => idtac
  | _ => pose proof (lenZ_nonneg t)
  end.

(** Record the length of [t], after the lengths of its parts. *)
Ltac len_fact t :=
  lazymatch t with
  | blitZ ?l ?i ?xs =>
      first [ have_len t
            | len_fact l; len_fact xs;
              assert (lenZ t = lenZ l) by (apply lenZ_blitZ; lia) ]
  | sliceZ ?l ?i ?n =>
      first [ have_len t
            | len_fact l; assert (lenZ t = n) by (apply lenZ_sliceZ; lia) ]
  | upd ?l ?i ?x =>
      first [ have_len t
            | len_fact l; assert (lenZ t = lenZ l) by apply lenZ_upd ]
  | takeZ ?n ?l =>
      first [ have_len t
            | len_fact l; assert (lenZ t = n) by (apply lenZ_takeZ; lia) ]
  | fillZ ?n ?x =>
      first [ have_len t
            | assert (lenZ t = n) by (apply lenZ_fillZ; lia) ]
  | delete (Z.to_nat ?i) ?l =>
      first [ have_len t
            | len_fact l;
              assert (lenZ t = lenZ l - 1) by (apply lenZ_delete; lia) ]
  | ?a ++ ?b =>
      first [ have_len t
            | len_fact a; len_fact b;
              assert (lenZ t = lenZ a + lenZ b) by apply lenZ_app ]
  | ?x :: ?l =>
      first [ have_len t
            | len_fact l; assert (lenZ t = 1 + lenZ l) by apply lenZ_cons ]
  | @nil ?A => first [ have_len t | assert (lenZ t = 0) by reflexivity ]
  | _ => nonneg_fact t
  end.

(** Succeeds when it adds the length of [t]. *)
Ltac len_new t := tryif have_len t then fail else (len_fact t; have_len t).

Ltac len_facts :=
  repeat match goal with
    | |- context [ blitZ ?l ?i ?xs ] => len_new (blitZ l i xs)
    | |- context [ sliceZ ?l ?i ?n ] => len_new (sliceZ l i n)
    | |- context [ upd ?l ?i ?x ] => len_new (upd l i x)
    | |- context [ takeZ ?n ?l ] => len_new (takeZ n l)
    | |- context [ fillZ ?n ?x ] => len_new (fillZ n x)
    | |- context [ delete (Z.to_nat ?i) ?l ] => len_new (delete (Z.to_nat i) l)
    | |- context [ ?a ++ ?b ] => len_new (a ++ b)
    | |- context [ ?x :: ?l ] => len_new (x :: l)
    end.

Ltac len_lia := len_facts; lia.

Ltac get_simpl :=
  repeat first
    [ rewrite slot_get_upd by lia
    | rewrite slot_get_app
    | rewrite slot_get_cons
    | rewrite slot_get_nil
    | rewrite slot_get_takeZ
    | rewrite slot_get_fillZ
    | rewrite slot_get_sliceZ by lia
    | rewrite slot_get_delete by lia
    | rewrite slot_get_blitZ by lia ].

Ltac split_cond c :=
  lazymatch c with
  | ?a && ?b => split_cond a
  | ?a <? ?b => destruct (Z.ltb_spec a b)
  | ?a <=? ?b => destruct (Z.leb_spec a b)
  | ?a =? ?b => destruct (Z.eqb_spec a b)
  end.

(** Decide the outermost test of one side; a branch the hypotheses rule
    out is closed at once. *)
Ltac case_cmp :=
  match goal with
  | |- (if ?c then _ else _) = _ => split_cond c
  | |- _ = (if ?c then _ else _) => split_cond c
  | |- context [ if ?c then _ else _ ] => split_cond c
  end; cbn [andb orb negb]; try (exfalso; lia).

Ltac get_close :=
  first
    [ srefl
    | (f_equal; lia)
    | (symmetry; apply slot_get_None; lia)
    | (apply slot_get_None; lia)
    | match goal with
      | H : slot_get ?l _ = Some ?x |- Some ?x = slot_get ?l _ =>
          rewrite <- H; f_equal; lia
      | H : slot_get ?l _ = Some ?x |- slot_get ?l _ = Some ?x =>
          rewrite <- H; f_equal; lia
      end
    | lia ].

Ltac get_solve :=
  len_facts; get_simpl; repeat case_cmp; subst; try get_close.

Ltac arr_ext :=
  len_facts; apply slot_ext;
  [ lia
  | let j := fresh "j" in let Hj := fresh "Hj" in
    intros j Hj; get_solve ].

Example arr_ext_test (l : list Z) (x : Z) :
  3 <= lenZ l -> slot_get l 2 = Some x ->
  upd (blitZ l 0 (sliceZ l 1 1)) 1 x = blitZ l 0 (sliceZ l 1 2).
Proof. intros. arr_ext. Qed.

(** ** Running computations *)

Section Running.

Context {KT : KeyType}.
Implicit Types (H : gmap Z BPTreeNode) (ok : bool) (n : BPTreeNode) (p : ptr).

Lemma bind_run {A B} (m : M A) (f : A -> M B) s a s' :
  m s = Some (a, s') -> bind m f s = f a s'.
Proof. unfold bind; now intros ->. Qed.

Lemma bind_assoc_run {A B C} (m : M A) (f : A -> M B) (g : B -> M C) s :
  bind (bind m f) g s = bind m (fun x => bind (f x) g) s.
Proof. unfold bind. destruct (m s) as [[a s']|]; reflexivity. Qed.

Lemma ret_run {A} (a : A) s : ret a s = Some (a, s).
Proof. reflexivity. Qed.

Lemma assert_run b H ok : assert b (mkState H ok) = Some (tt, mkState H (ok && b)).
Proof. reflexivity. Qed.

Lemma assert_true_run H ok : assert true (mkState H ok) = Some (tt, mkState H ok).
Proof. unfold assert; simpl. now rewrite andb_true_r. Qed.

Lemma assertM_run (c : M bool) b s' H ok :
  c (mkState H ok) = Some (b, s') ->
  assertM c (mkState H ok) = Some (tt, mkState H (ok && b)).
Proof. unfold assertM; now intros ->. Qed.

Lemma deref_run p n H ok :
  p <> nullptr -> H !! p = Some n -> deref p (mkState H ok) = Some (n, mkState H ok).
Proof.
  unfold deref; intros Hp E; simpl.
  destruct (Z.eqb_spec p nullptr); [contradiction|]. now rewrite E.
Qed.

Lemma Key_run p i n x H ok :
  p <> nullptr -> H !! p = Some n -> slot_get (key_slots n) i = Some x ->
  Key p i (mkState H ok) = Some (x, mkState H ok).
Proof.
  intros Hp E Hx. unfold Key, load_slot.
  rewrite (bind_run _ _ _ _ _ (deref_run _ _ _ _ Hp E)).
  simpl. unfold lift. now rewrite Hx.
Qed.

Lemma Child_run p i n x H ok :
  p <> nullptr -> H !! p = Some n -> slot_get (child_slots n) i = Some x ->
  Child p i (mkState H ok) = Some (x, mkState H ok).
Proof.
  intros Hp E Hx. unfold Child, load_slot.
  rewrite (bind_run _ _ _ _ _ (deref_run _ _ _ _ Hp E)).
  simpl. unfold lift. now rewrite Hx.
Qed.

Lemma SetKey_run p i x n H ok :
  p <> nullptr -> H !! p = Some n -> 0 <= i < lenZ (key_slots n) ->
  SetKey p i x (mkState H ok) =
  Some (tt, mkState (<[p := mkNode (num_items_ n) (leaf_ n)
                             (upd (key_slots n) i x) (child_slots n)]> H) ok).
Proof.
  intros Hp E Hi. unfold SetKey, store_slot.
  rewrite (bind_run _ _ _ _ _ (deref_run _ _ _ _ Hp E)).
  simpl. unfold bind, lift. now rewrite slot_set_Some.
Qed.

Lemma SetChild_run p i x n H ok :
  p <> nullptr -> H !! p = Some n -> 0 <= i < lenZ (child_slots n) ->
  SetChild p i x (mkState H ok) =
  Some (tt, mkState (<[p := mkNode (num_items_ n) (leaf_ n)
                             (key_slots n) (upd (child_slots n) i x)]> H) ok).
Proof.
  intros Hp E Hi. unfold SetChild, store_slot.
  rewrite (bind_run _ _ _ _ _ (deref_run _ _ _ _ Hp E)).
  simpl. unfold bind, lift. now rewrite slot_set_Some.
Qed.

Lemma NumItems_run p n H ok :
  p <> nullptr -> H !! p = Some n ->
  NumItems p (mkState H ok) = Some (num_items_ n, mkState H ok).
Proof.
  intros Hp E. unfold NumItems.
  now rewrite (bind_run _ _ _ _ _ (deref_run _ _ _ _ Hp E)).
Qed.

Lemma IsLeaf_run p n H ok :
  p <> nullptr -> H !! p = Some n ->
  IsLeaf p (mkState H ok) = Some (leaf_ n, mkState H ok).
Proof.
  intros Hp E. unfold IsLeaf.
  now rewrite (bind_run _ _ _ _ _ (deref_run _ _ _ _ Hp E)).
Qed.

Lemma MaxItems_run p n H ok :
  p <> nullptr -> H !! p = Some n ->
  MaxItems p (mkState H ok) = Some (node_max n, mkState H ok).
Proof.
  intros Hp E. unfold MaxItems.
  now rewrite (bind_run _ _ _ _ _ (IsLeaf_run _ _ _ _ Hp E)).
Qed.

Lemma MinItems_run p n H ok :
  p <> nullptr -> H !! p = Some n ->
  MinItems p (mkState H ok) = Some (node_min n, mkState H ok).
Proof.
  intros Hp E. unfold MinItems.
  now rewrite (bind_run _ _ _ _ _ (IsLeaf_run _ _ _ _ Hp E)).
Qed.

Lemma AvailableSlotCount_run p n H ok :
  p <> nullptr -> H !! p = Some n ->
  AvailableSlotCount p (mkState H ok) =
  Some (u32 (node_max n - num_items_ n), mkState H ok).
Proof.
  intros Hp E. unfold AvailableSlotCount.
  rewrite (bind_run _ _ _ _ _ (MaxItems_run _ _ _ _ Hp E)).
  now rewrite (bind_run _ _ _ _ _ (NumItems_run _ _ _ _ Hp E)).
Qed.

Lemma set_num_items_run p v n H ok :
  p <> nullptr -> H !! p = Some n ->
  set_num_items p v (mkState H ok) =
  Some (tt, mkState (<[p := mkNode (u7 v) (leaf_ n) (key_slots n)
                             (child_slots n)]> H) ok).
Proof.
  intros Hp E. unfold set_num_items.
  now rewrite (bind_run _ _ _ _ _ (deref_run _ _ _ _ Hp E)).
Qed.

Lemma set_leaf_run p b n H ok :
  p <> nullptr -> H !! p = Some n ->
  set_leaf p b (mkState H ok) =
  Some (tt, mkState (<[p := mkNode (num_items_ n) b (key_slots n)
                             (child_slots n)]> H) ok).
Proof.
  intros Hp E. unfold set_leaf.
  now rewrite (bind_run _ _ _ _ _ (deref_run _ _ _ _ Hp E)).
Qed.

Lemma add_num_items_run p v n H ok :
  p <> nullptr -> H !! p = Some n ->
  add_num_items p v (mkState H ok) =
  Some (tt, mkState (<[p := mkNode (u7 (num_items_ n + v)) (leaf_ n)
                             (key_slots n) (child_slots n)]> H) ok).
Proof.
  intros Hp E. unfold add_num_items.
  rewrite (bind_run _ _ _ _ _ (NumItems_run _ _ _ _ Hp E)).
  now apply set_num_items_run.
Qed.

Lemma sub_num_items_run p v n H ok :
  p <> nullptr -> H !! p = Some n ->
  sub_num_items p v (mkState H ok) =
  Some (tt, mkState (<[p := mkNode (u7 (num_items_ n - v)) (leaf_ n)
                             (key_slots n) (child_slots n)]> H) ok).
Proof.
  intros Hp E. unfold sub_num_items.
  rewrite (bind_run _ _ _ _ _ (NumItems_run _ _ _ _ Hp E)).
  now apply set_num_items_run.
Qed.

(** Copying one slot to another slot, of the same node or of another. *)
Lemma copy_key_run dst src i j dn sn H ok :
  dst <> nullptr -> src <> nullptr ->
  H !! dst = Some dn -> H !! src = Some sn ->
  0 <= i < lenZ (key_slots dn) -> 0 <= j < lenZ (key_slots sn) ->
  bind (Key src j) (fun k => SetKey dst i k) (mkState H ok) =
  Some (tt, mkState (<[dst := mkNode (num_items_ dn) (leaf_ dn)
                      (blitZ (key_slots dn) i (sliceZ (key_slots sn) j 1))
                      (child_slots dn)]> H) ok).
Proof.
  intros Hd Hs Ed Es Hi Hj.
  destruct (slot_get_is_Some (key_slots sn) j Hj) as [x Hx].
  rewrite (bind_run _ _ _ _ _ (Key_run _ _ _ _ _ _ Hs Es Hx)).
  rewrite (SetKey_run _ _ _ _ _ _ Hd Ed Hi).
  repeat f_equal. arr_ext.
Qed.

Lemma copy_child_run dst src i j dn sn H ok :
  dst <> nullptr -> src <> nullptr ->
  H !! dst = Some dn -> H !! src = Some sn ->
  0 <= i < lenZ (child_slots dn) -> 0 <= j < lenZ (child_slots sn) ->
  bind (Child src j) (fun c => SetChild dst i c) (mkState H ok) =
  Some (tt, mkState (<[dst := mkNode (num_items_ dn) (leaf_ dn) (key_slots dn)
                      (blitZ (child_slots dn) i (sliceZ (child_slots sn) j 1))]> H)
              ok).
Proof.
  intros Hd Hs Ed Es Hi Hj.
  destruct (slot_get_is_Some (child_slots sn) j Hj) as [x Hx].
  rewrite (bind_run _ _ _ _ _ (Child_run _ _ _ _ _ _ Hs Es Hx)).
  rewrite (SetChild_run _ _ _ _ _ _ Hd Ed Hi).
  repeat f_equal. arr_ext.
Qed.

Lemma memmove_keys_run dst di src si cnt dn sn H ok :
  dst <> nullptr -> src <> nullptr ->
  H !! dst = Some dn -> H !! src = Some sn ->
  0 <= cnt -> 0 <= si -> si + cnt <= lenZ (key_slots sn) ->
  0 <= di -> di + cnt <= lenZ (key_slots dn) ->
  memmove keys_region dst di src si cnt (mkState H ok) =
  Some (tt, mkState (<[dst := mkNode (num_items_ dn) (leaf_ dn)
                      (blitZ (key_slots dn) di (sliceZ (key_slots sn) si cnt))
                      (child_slots dn)]> H) ok).
Proof.
  intros Hd Hs Ed Es Hc Hsi Hsl Hdi Hdl. unfold memmove.
  rewrite (bind_run _ _ _ _ _ (deref_run _ _ _ _ Hs Es)). simpl.
  unfold bind at 1, lift at 1. rewrite slice_Some by lia.
  rewrite (bind_run _ _ _ _ _ (deref_run _ _ _ _ Hd Ed)). simpl.
  unfold bind, lift. rewrite blit_Some by len_lia. reflexivity.
Qed.

Lemma memmove_children_run dst di src si cnt dn sn H ok :
  dst <> nullptr -> src <> nullptr ->
  H !! dst = Some dn -> H !! src = Some sn ->
  0 <= cnt -> 0 <= si -> si + cnt <= lenZ (child_slots sn) ->
  0 <= di -> di + cnt <= lenZ (child_slots dn) ->
  memmove children_region dst di src si cnt (mkState H ok) =
  Some (tt, mkState (<[dst := mkNode (num_items_ dn) (leaf_ dn) (key_slots dn)
                      (blitZ (child_slots dn) di (sliceZ (child_slots sn) si cnt))]> H)
              ok).
Proof.
  intros Hd Hs Ed Es Hc Hsi Hsl Hdi Hdl. unfold memmove.
  rewrite (bind_run _ _ _ _ _ (deref_run _ _ _ _ Hs Es)). simpl.
  unfold bind at 1, lift at 1. rewrite slice_Some by lia.
  rewrite (bind_run _ _ _ _ _ (deref_run _ _ _ _ Hd Ed)). simpl.
  unfold bind, lift. rewrite blit_Some by len_lia. reflexivity.
Qed.

(** *** Loops *)

Lemma for_each_app l1 l2 body s :
  for_each (l1 ++ l2) body s =
  match for_each l1 body s with
  | Some (_, s') => for_each l2 body s'
  | None => None
  end.
Proof.
  revert s; induction l1 as [|i l1 IH]; intros s; simpl; [reflexivity|].
  unfold bind. destruct (body i s) as [[[] s']|]; [apply IH|reflexivity].
Qed.

(** An ascending loop whose [m]-th iteration takes the state [S m] to
    [S (m + 1)]. *)
Lemma for_each_seqZ_states (S : Z -> state) body lo cnt :
  0 <= cnt ->
  (forall m, 0 <= m < cnt -> body (lo + m) (S m) = Some (tt, S (m + 1))) ->
  for_each (seqZ lo cnt) body (S 0) = Some (tt, S cnt).
Proof.
  intros Hc. pattern cnt. apply natlike_ind; [| |exact Hc].
  - intros _. reflexivity.
  - intros k Hk IH Hstep. rewrite <- Z.add_1_r in *.
    rewrite seqZ_app by lia.
    rewrite for_each_app, IH by (intros; apply Hstep; lia).
    change (seqZ (lo + k) 1) with [lo + k]. simpl.
    rewrite (bind_run _ _ _ _ _ (Hstep k ltac:(lia))).
    reflexivity.
Qed.

(** A descending loop over [cnt - 1, ..., 0]. *)
Lemma for_each_down_states (S : Z -> state) body cnt :
  0 <= cnt ->
  (forall m, 0 <= m < cnt -> body (cnt - 1 - m) (S m) = Some (tt, S (m + 1))) ->
  for_each (rev (seqZ 0 cnt)) body (S 0) = Some (tt, S cnt).
Proof.
  intros Hc. revert S. pattern cnt. apply natlike_ind; [| |exact Hc].
  - intros S _. reflexivity.
  - intros k Hk IH S Hstep. rewrite <- Z.add_1_r in *.
    rewrite seqZ_app by lia.
    rewrite rev_app_distr.
    change (seqZ (0 + k) 1) with [0 + k]. simpl.
    replace (0 + k) with (k + 1 - 1 - 0) by lia.
    rewrite (bind_run _ _ _ _ _ (Hstep 0 ltac:(lia))).
    apply (IH (fun m => S (m + 1))).
    intros m Hm. replace (k - 1 - m) with (k + 1 - 1 - (m + 1)) by lia.
    apply Hstep. lia.
Qed.

Lemma state_insert_id p n H ok :
  H !! p = Some n -> mkState H ok = mkState (<[p := n]> H) ok.
Proof. intros E. now rewrite insert_id. Qed.

Lemma state_eq_intro p (n1 n2 : BPTreeNode) H ok :
  n1 = n2 ->
  Some (tt, mkState (<[p := n1]> H) ok) = Some (tt, mkState (<[p := n2]> H) ok).
Proof. now intros ->. Qed.

Lemma heap_eq_intro p (n1 n2 : BPTreeNode) H ok :
  n1 = n2 -> mkState (<[p := n1]> H) ok = mkState (<[p := n2]> H) ok.
Proof. now intros ->. Qed.

Lemma node_eta (n : BPTreeNode) :
  mkNode (num_items_ n) (leaf_ n) (key_slots n) (child_slots n) = n.
Proof. now destruct n. Qed.

Lemma node_ext (a b : BPTreeNode) :
  num_items_ a = num_items_ b -> leaf_ a = leaf_ b ->
  key_slots a = key_slots b -> child_slots a = child_slots b -> a = b.
Proof. destruct a, b; simpl; now intros -> -> -> ->. Qed.

Lemma node_eq_intro c c' (b b' : bool) (ks ks' : list KeyT) (cs cs' : list ptr) :
  c = c' -> b = b' -> ks = ks' -> cs = cs' ->
  mkNode c b ks cs = mkNode c' b' ks' cs'.
Proof. now intros -> -> -> ->. Qed.

End Running.

Ltac heap_lookup :=
  repeat first
    [ rewrite lookup_insert_eq
    | rewrite lookup_insert_ne by (unfold nullptr in *; lia) ];
  first [ reflexivity | eassumption ].

(** ** [BSearch] *)

Section Search.

Context {KT : KeyType}.
Variable cmp_op : KeyT -> KeyT -> Z.
Hypothesis Hcmp : three_way_order cmp_op.





End Search.

(** ** Capacities *)

(** C9: for every key size of at least two bytes the leaf capacity is
    [floor((256 - 8) / s)] and is below 128, so the static assertion
    holds and the count fits the 7-bit field; for 8-byte keys a leaf
    holds 31 keys and an inner node
    [floor((256 - 8 - 8) / (8 + 8)) = 15]. *)
Theorem C9_leaf_capacity_fits_count_field (s : Z) :
  2 <= s ->
  kMaxLeafKeys s = (256 - 8) / s /\
  kMaxLeafKeys s < 128 /\
  u7 (kMaxLeafKeys s) = kMaxLeafKeys s /\
  static_assert_ok s = true /\
  kMaxLeafKeys 8 = 31 /\
  kMaxInnerKeys 8 = (256 - 8 - 8) / (8 + 8) /\
  kMaxInnerKeys 8 = 15.
Proof.
  intros Hs.
  assert (Hq : 0 <= 248 / s <= 124).
  { split; [apply Z.div_pos; lia|]. apply Z.div_le_upper_bound; lia. }
  assert (E : kMaxLeafKeys s = 248 / s).
  { unfold kMaxLeafKeys. change (kBPNodeSize - kKeyOffset) with 248.
    apply u16_small. lia. }
  unfold static_assert_ok. rewrite E.
  split; [reflexivity|]. split; [lia|]. split; [apply u7_small; lia|].
  split; [apply Z.ltb_lt; lia|]. repeat split; reflexivity.
Qed.

Section Capacities.

Context {KT : KeyType}.
Hypothesis Hsize : 2 <= kKeySize.

Lemma kMaxLeafKeys_eq : kMaxLeafKeys kKeySize = 248 / kKeySize.
Proof.
  unfold kMaxLeafKeys. change (kBPNodeSize - kKeyOffset) with 248.
  apply u16_small. split; [apply Z.div_pos; lia|].
  apply Z.le_lt_trans with 124; [apply Z.div_le_upper_bound; lia|lia].
Qed.

Lemma kMaxInnerKeys_eq : kMaxInnerKeys kKeySize = 240 / (kKeySize + 8).
Proof.
  unfold kMaxInnerKeys.
  change (kBPNodeSize - sizeof_ptr - kKeyOffset) with 240.
  change sizeof_ptr with 8.
  apply u16_small. split; [apply Z.div_pos; lia|].
  apply Z.le_lt_trans with 24; [apply Z.div_le_upper_bound; lia|lia].
Qed.

Lemma kMaxLeafKeys_bound : 0 <= kMaxLeafKeys kKeySize <= 124.
Proof.
  rewrite kMaxLeafKeys_eq. split; [apply Z.div_pos; lia|].
  apply Z.div_le_upper_bound; lia.
Qed.

Lemma kMaxInnerKeys_bound : 0 <= kMaxInnerKeys kKeySize <= 24.
Proof.
  rewrite kMaxInnerKeys_eq. split; [apply Z.div_pos; lia|].
  apply Z.div_le_upper_bound; lia.
Qed.

Lemma kMinLeafKeys_eq : kMinLeafKeys kKeySize = kMaxLeafKeys kKeySize / 2.
Proof.
  unfold kMinLeafKeys. pose proof kMaxLeafKeys_bound.
  apply u16_small. split; [apply Z.div_pos; lia|].
  apply Z.div_lt_upper_bound; lia.
Qed.

Lemma kMinInnerKeys_eq : kMinInnerKeys kKeySize = kMaxInnerKeys kKeySize / 2.
Proof.
  unfold kMinInnerKeys. pose proof kMaxInnerKeys_bound.
  apply u16_small. split; [apply Z.div_pos; lia|].
  apply Z.div_lt_upper_bound; lia.
Qed.

Lemma node_max_bound (n : BPTreeNode) : 0 <= node_max n <= 124.
Proof.
  unfold node_max. pose proof kMaxLeafKeys_bound. pose proof kMaxInnerKeys_bound.
  destruct (leaf_ n); lia.
Qed.

Lemma node_min_eq (n : BPTreeNode) : node_min n = node_max n / 2.
Proof.
  unfold node_min, node_max.
  destruct (leaf_ n); [apply kMinLeafKeys_eq|apply kMinInnerKeys_eq].
Qed.

Lemma node_max_same_kind (a b : BPTreeNode) :
  leaf_ a = leaf_ b -> node_max a = node_max b.
Proof. unfold node_max; now intros ->. Qed.

End Capacities.

(** ** Stepping through a computation *)

Ltac side :=
  first
    [ assumption
    | heap_lookup
    | (simpl; len_lia)
    | eassumption ].

Ltac prim_run :=
  first
    [ apply assert_run
    | apply ret_run
    | eapply NumItems_run
    | eapply IsLeaf_run
    | eapply MaxItems_run
    | eapply MinItems_run
    | eapply AvailableSlotCount_run
    | eapply Key_run
    | eapply Child_run
    | eapply SetKey_run
    | eapply SetChild_run
    | eapply set_num_items_run
    | eapply set_leaf_run
    | eapply add_num_items_run
    | eapply sub_num_items_run
    | eapply memmove_keys_run
    | eapply memmove_children_run ]; side.

(** One statement of a [do] block. *)
Ltac mstep :=
  rewrite ?bind_assoc_run; erewrite bind_run by prim_run; cbv beta.

(** The last statement of a [do] block. *)
Ltac mlast := first [ erewrite ret_run | erewrite assert_run | prim_run ].

(** ** [ShiftLeft] *)

Section Shifting.

Context {KT : KeyType}.
Hypothesis Hsize : 2 <= kKeySize.
Implicit Types (H : gmap Z BPTreeNode) (ok : bool) (n : BPTreeNode).

Lemma node_ok_count n : node_ok n -> 0 <= num_items_ n < 128.
Proof.
  intros (Hc & _). pose proof (node_max_bound Hsize n). lia.
Qed.

(** The node [ShiftLeft] leaves behind. *)
Lemma ShiftLeft_run this idx (csr : bool) n H ok :
  this <> nullptr -> H !! this = Some n -> node_ok n ->
  0 <= idx < num_items_ n ->
  let cnt := num_items_ n in
  let sh := cnt - idx - 1 in
  let cidx := idx + (if csr then 1 else 0) in
  ShiftLeft this idx csr (mkState H ok) =
  Some (tt, mkState
    (<[this := mkNode (cnt - 1) (leaf_ n)
        (if 0 <? sh then blitZ (key_slots n) idx (sliceZ (key_slots n) (idx + 1) sh)
         else key_slots n)
        (if (0 <? sh) && negb (leaf_ n) && (0 <? cnt - cidx)
         then blitZ (child_slots n) cidx
                (sliceZ (child_slots n) (cidx + 1) (cnt - cidx))
         else child_slots n)]> H) ok).
Proof.
  intros Hp E Hok Hidx. cbv zeta.
  pose proof (node_ok_count n Hok) as Hcnt.
  destruct Hok as (Hc & Hk & Hch).
  pose proof (node_max_bound Hsize n) as Hmax.
  unfold ShiftLeft. mstep. mstep.
  destruct (Z.ltb_spec idx (num_items_ n)); [|lia]. rewrite andb_true_r.
  rewrite (u32_small (num_items_ n - idx - 1)) by lia.
  destruct (Z.ltb_spec 0 (num_items_ n - idx - 1)) as [Hsh|Hsh]; simpl.
  - rewrite (u32_small (idx + 1)) by lia.
    mstep. mstep. simpl.
    destruct (leaf_ n) eqn:Eleaf; simpl.
    + mstep. erewrite set_num_items_run by side.
      simpl. rewrite insert_insert_eq. rewrite u7_small by lia. reflexivity.
    + specialize (Hch eq_refl).
      assert (Hcidx : idx <= idx + (if csr then 1 else 0) <= idx + 1)
        by (destruct csr; lia).
      rewrite (u32_small (idx + (if csr then 1 else 0))) by lia.
      rewrite (u32_small (num_items_ n - _)) by lia.
      destruct (Z.ltb_spec 0 (num_items_ n - (idx + (if csr then 1 else 0))))
        as [Hc2|Hc2].
      * rewrite (u32_small (_ + 1)) by lia.
        mstep.
        erewrite set_num_items_run by side.
        simpl. rewrite !insert_insert_eq. rewrite u7_small by lia. reflexivity.
      * mstep.
        erewrite set_num_items_run by side.
        simpl. rewrite !insert_insert_eq. rewrite u7_small by lia. reflexivity.
  - mstep. erewrite set_num_items_run by side.
    rewrite u7_small by lia. reflexivity.
Qed.

End Shifting.

(** An assertion over the heap, as a statement of a [do] block. *)
Ltac massert :=
  rewrite ?bind_assoc_run;
  erewrite bind_run by (eapply assertM_run; repeat mstep; apply ret_run);
  cbv beta.

(** An ascending loop, given the state [S m] after [m] iterations.  The
    goals left are: the loop runs at least zero times, one iteration,
    [S 0] is the current state, and the rest of the block. *)
Ltac mloop_up S :=
  rewrite ?bind_assoc_run; unfold range;
  match goal with
  | |- bind (for_each (seqZ ?lo ?cnt) ?body) _ ?s = _ =>
      let Hl := fresh "Hloop" in
      assert (Hl : for_each (seqZ lo cnt) body s = Some (tt, S cnt));
      [ replace s with (S 0); [ apply (for_each_seqZ_states S body lo cnt) | ]
      | rewrite (bind_run _ _ _ _ _ Hl); clear Hl; cbv beta ]
  end.

(** A descending loop, likewise. *)
Ltac mloop_down S :=
  rewrite ?bind_assoc_run;
  match goal with
  | |- bind (for_each (rev (seqZ 0 ?cnt)) ?body) _ ?s = _ =>
      let Hl := fresh "Hloop" in
      assert (Hl : for_each (rev (seqZ 0 cnt)) body s = Some (tt, S cnt));
      [ replace s with (S 0); [ apply (for_each_down_states S body cnt) | ]
      | rewrite (bind_run _ _ _ _ _ Hl); clear Hl; cbv beta ]
  end.

Ltac node_eq :=
  unfold_locals;
  first [ apply state_eq_intro | apply heap_eq_intro ]; apply node_eq_intro;
  [ first [ srefl | lia ]
  | srefl
  | first [ srefl | arr_ext ]
  | first [ srefl | arr_ext ] ].

(** ** [ShiftLeft], [MergeFromRight] and [Split] on the keys a node holds *)

Section Primitives.

Context {KT : KeyType}.
Hypothesis Hsize : 2 <= kKeySize.
Implicit Types (H : gmap Z BPTreeNode) (ok : bool) (n : BPTreeNode).

(** [ShiftLeft] with [child_step_right], as [MergeOrRebalanceChild]
    calls it: the key at slot [idx] and the child at slot [idx + 1] go. *)
Lemma ShiftLeft_step_right this idx n H ok :
  this <> nullptr -> H !! this = Some n -> node_ok n ->
  0 <= idx < num_items_ n ->
  exists n',
    ShiftLeft this idx true (mkState H ok) = Some (tt, mkState (<[this := n']> H) ok) /\
    num_items_ n' = num_items_ n - 1 /\
    leaf_ n' = leaf_ n /\
    lenZ (key_slots n') = lenZ (key_slots n) /\
    lenZ (child_slots n') = lenZ (child_slots n) /\
    live_keys n' = delete (Z.to_nat idx) (live_keys n) /\
    (leaf_ n = false ->
     live_children n' = delete (Z.to_nat (idx + 1)) (live_children n)).
Proof.
  intros Hp E Hok Hidx.
  pose proof (ShiftLeft_run Hsize this idx true n H ok Hp E Hok Hidx) as Hrun.
  cbv zeta in Hrun.
  destruct Hok as (Hc & Hk & Hch).
  eexists; split; [exact Hrun|]. simpl.
  split; [reflexivity|]. split; [reflexivity|].
  destruct (Z.ltb_spec 0 (num_items_ n - idx - 1)) as [Hsh|Hsh]; simpl.
  - split; [len_lia|].
    split.
    { destruct (leaf_ n) eqn:El; simpl; [reflexivity|]. first [specialize (Hch El)|specialize (Hch eq_refl)].
      destruct (Z.ltb_spec 0 (num_items_ n - (idx + 1))); [len_lia|reflexivity]. }
    split.
    { unfold live_keys; simpl. arr_ext. }
    intros El. rewrite El; simpl. first [specialize (Hch El)|specialize (Hch eq_refl)].
    destruct (Z.ltb_spec 0 (num_items_ n - (idx + 1))); [|lia].
    unfold live_children; simpl. arr_ext.
  - split; [reflexivity|]. split; [reflexivity|].
    split.
    { unfold live_keys; simpl. arr_ext. }
    intros El. first [specialize (Hch El)|specialize (Hch eq_refl)].
    unfold live_children; simpl. arr_ext.
Qed.

Lemma MergeFromRight_spec this right key l r H ok :
  this <> nullptr -> right <> nullptr -> this <> right ->
  H !! this = Some l -> H !! right = Some r ->
  node_ok l -> node_ok r -> leaf_ l = leaf_ r ->
  num_items_ l + 1 + num_items_ r <= node_max l ->
  exists l' r',
    MergeFromRight this key right (mkState H ok) =
      Some (tt, mkState (<[right := r']> (<[this := l']> H)) ok) /\
    num_items_ l' = num_items_ l + 1 + num_items_ r /\
    leaf_ l' = leaf_ l /\
    lenZ (key_slots l') = lenZ (key_slots l) /\
    lenZ (child_slots l') = lenZ (child_slots l) /\
    live_keys l' = live_keys l ++ [key] ++ live_keys r /\
    (leaf_ l = false -> live_children l' = live_children l ++ live_children r) /\
    num_items_ r' = 0 /\ leaf_ r' = leaf_ r /\
    key_slots r' = key_slots r /\ child_slots r' = child_slots r.
Proof.
  intros Hp Hq Hne El Er Hokl Hokr Hkind Hfit.
  pose proof (node_max_bound Hsize l) as Hmax.
  pose proof (node_max_same_kind l r Hkind) as Hmr.
  destruct Hokl as (Hcl & Hkl & Hchl). destruct Hokr as (Hcr & Hkr & Hchr).
  set (nl := num_items_ l) in *. set (nr := num_items_ r) in *.
  set (K := blitZ (upd (key_slots l) nl key) (nl + 1) (sliceZ (key_slots r) 0 nr)).
  set (C := if leaf_ l then child_slots l
            else blitZ (child_slots l) (nl + 1) (sliceZ (child_slots r) 0 (nr + 1))).
  exists (mkNode (nl + 1 + nr) (leaf_ l) K C),
         (mkNode 0 (leaf_ r) (key_slots r) (child_slots r)).
  split.
  - unfold MergeFromRight. massert.
    fold nl nr. rewrite (u32_small (nl + 1 + nr)) by lia.
    destruct (Z.leb_spec (nl + 1 + nr) (node_max l)); [|lia].
    rewrite andb_true_r.
    mstep. mstep. mstep. fold nl nr.
    pose (S1 := fun m => mkState (<[this := mkNode nl (leaf_ l)
                (blitZ (upd (key_slots l) nl key) (nl + 1) (sliceZ (key_slots r) 0 m))
                (child_slots l)]> H) ok).
    mloop_up S1.
    + lia.
    + intros m Hm. unfold S1.
      rewrite (u32_small (nl + 1 + (0 + m))) by lia.
      erewrite copy_key_run by side. simpl.
      rewrite insert_insert_eq. node_eq.
    + unfold S1. node_eq.
    + unfold S1. rewrite !Z.sub_0_r.
      mstep. simpl.
      destruct (leaf_ l) eqn:Eleaf; simpl.
      * mstep. mstep. mstep. simpl.
        erewrite set_num_items_run by side. simpl.
        rewrite !insert_insert_eq. fold nr.
        rewrite ?Z.sub_0_r, (u32_small (1 + nr)), !u7_small by lia.
        change (u7 0) with 0. subst K C. rewrite ?Eleaf.
        replace (nl + (1 + nr)) with (nl + 1 + nr) by lia. reflexivity.
      * specialize (Hchl eq_refl).
        assert (Hchr' : lenZ (child_slots r) = node_max r + 1)
          by (apply Hchr; congruence).
        pose (S2 := fun m => mkState (<[this := mkNode nl false K
                (blitZ (child_slots l) (nl + 1) (sliceZ (child_slots r) 0 m))]> H) ok).
        mloop_up S2.
        -- lia.
        -- intros m Hm. unfold S2.
           rewrite (u32_small (nl + 1 + (0 + m))) by lia.
           erewrite copy_child_run by side. simpl.
           rewrite insert_insert_eq. node_eq.
        -- unfold S2. node_eq.
        -- unfold S2. rewrite ?Z.sub_0_r.
           mstep. mstep. simpl.
           erewrite set_num_items_run by side. simpl.
           rewrite !insert_insert_eq. fold nr.
           rewrite ?Z.sub_0_r, (u32_small (1 + nr)), !u7_small by lia.
           change (u7 0) with 0. subst K C. rewrite ?Eleaf.
           replace (nl + (1 + nr)) with (nl + 1 + nr) by lia. reflexivity.
  - simpl. split; [reflexivity|]. split; [reflexivity|].
    split; [unfold K; len_lia|].
    split.
    { unfold C. destruct (leaf_ l) eqn:Eleaf; [reflexivity|].
      specialize (Hchl eq_refl).
      assert (Hchr' : lenZ (child_slots r) = node_max r + 1)
        by (apply Hchr; congruence).
      len_lia. }
    split.
    { unfold live_keys, K; simpl. fold nl nr. arr_ext. }
    split; [|auto].
    intros Eleaf. unfold C. rewrite Eleaf.
    specialize (Hchl Eleaf).
    assert (Hchr' : lenZ (child_slots r) = node_max r + 1)
      by (apply Hchr; congruence).
    unfold live_children; simpl. fold nl nr. arr_ext.
Qed.

End Primitives.

Ltac wrap_simpl :=
  repeat match goal with
    | |- context [ u32 ?x ] => rewrite (u32_small x) by lia
    | |- context [ u7 ?x ] => rewrite (u7_small x) by lia
    | |- context [ u16 ?x ] => rewrite (u16_small x) by lia
    end.

Section Splitting.

Context {KT : KeyType}.
Hypothesis Hsize : 2 <= kKeySize.
Implicit Types (H : gmap Z BPTreeNode) (ok : bool) (n : BPTreeNode).

Lemma Split_spec this right n r0 H ok :
  this <> nullptr -> right <> nullptr -> this <> right ->
  H !! this = Some n -> H !! right = Some r0 ->
  node_ok n -> 1 <= num_items_ n ->
  num_items_ n - num_items_ n / 2 - 1 <= lenZ (key_slots r0) ->
  (leaf_ n = false -> num_items_ n - num_items_ n / 2 <= lenZ (child_slots r0)) ->
  exists median n' r',
    Split this right (mkState H ok) =
      Some (median, mkState (<[this := n']> (<[right := r']> H)) ok) /\
    slot_get (key_slots n) (num_items_ n / 2) = Some median /\
    num_items_ n' = num_items_ n / 2 /\
    num_items_ r' = num_items_ n - num_items_ n / 2 - 1 /\
    leaf_ n' = leaf_ n /\ leaf_ r' = leaf_ n /\
    key_slots n' = key_slots n /\ child_slots n' = child_slots n /\
    live_keys r' =
      sliceZ (key_slots n) (num_items_ n / 2 + 1)
        (num_items_ n - num_items_ n / 2 - 1) /\
    (leaf_ n = false ->
     live_children r' =
       sliceZ (child_slots n) (num_items_ n / 2 + 1)
         (num_items_ n - num_items_ n / 2)).
Proof.
  intros Hp Hq Hne En Er Hok Hone Hcapk Hcapc.
  pose proof (node_ok_count Hsize n Hok) as Hcnt.
  destruct Hok as (Hc & Hk & Hch).
  set (cnt := num_items_ n) in *. set (mid := cnt / 2) in *.
  assert (Hmid : 0 <= mid /\ mid + 1 <= cnt).
  { unfold mid. split; [apply Z.div_pos; lia|].
    assert (cnt / 2 < cnt) by (apply Z.div_lt_upper_bound; lia). lia. }
  destruct (slot_get_is_Some (key_slots n) mid) as [median Hmed]; [lia|].
  set (rn := cnt - mid - 1) in *.
  set (RK := blitZ (key_slots r0) 0 (sliceZ (key_slots n) (mid + 1) rn)).
  set (RC := if leaf_ n then child_slots r0
             else blitZ (child_slots r0) 0 (sliceZ (child_slots n) (mid + 1) (rn + 1))).
  exists median, (mkNode mid (leaf_ n) (key_slots n) (child_slots n)),
         (mkNode rn (leaf_ n) RK RC).
  split.
  - unfold Split. mstep. fold cnt mid. wrap_simpl.
    mstep. mstep. mstep. mstep. fold cnt. simpl. wrap_simpl.
    replace (cnt - (mid + 1)) with rn by (unfold rn; lia).
    mstep. mstep. simpl. wrap_simpl. mstep. simpl. mstep. simpl.
    rewrite !insert_insert_eq.
    destruct (leaf_ n) eqn:Eleaf; simpl.
    + mstep.
      erewrite bind_run by (eapply set_num_items_run; side).
      cbv beta. simpl. wrap_simpl. rewrite ?Eleaf.
      subst RC. reflexivity.
    + specialize (Hch eq_refl). specialize (Hcapc eq_refl).
      pose (S := fun m => mkState (<[right := mkNode rn false RK
                 (blitZ (child_slots r0) 0 (sliceZ (child_slots n) (mid + 1) m))]> H) ok).
      mloop_up S.
      * lia.
      * intros m Hm. unfold S. wrap_simpl.
        erewrite copy_child_run by side. simpl.
        rewrite insert_insert_eq. node_eq.
      * unfold S. node_eq.
      * unfold S. rewrite Z.sub_0_r.
        erewrite bind_run by (eapply set_num_items_run; side).
        cbv beta. simpl. wrap_simpl. rewrite ?Eleaf. subst RC. reflexivity.
  - simpl. split; [exact Hmed|]. repeat (split; [reflexivity|]).
    split.
    { unfold live_keys; simpl. unfold RK. fold cnt mid rn. arr_ext. }
    intros Eleaf. specialize (Hch Eleaf). specialize (Hcapc Eleaf).
    unfold live_children; simpl. unfold RC. rewrite Eleaf.
    fold cnt mid rn. replace (cnt - mid) with (rn + 1) by (unfold rn; lia).
    arr_ext.
Qed.

End Splitting.

(** ** A parent and two of its children in the heap *)

Section ThreeNodes.

Context {KT : KeyType}.
Implicit Types (H : gmap Z BPTreeNode) (P D S : BPTreeNode).

Variables this dst src : ptr.
Hypothesis Htd : this <> dst.
Hypothesis Hts : this <> src.
Hypothesis Hds : dst <> src.

Lemma heap3_this H P D S : heap3 H this P dst D src S !! this = Some P.
Proof.
  unfold heap3. rewrite !lookup_insert_ne by congruence. apply lookup_insert_eq.
Qed.

Lemma heap3_dst H P D S : heap3 H this P dst D src S !! dst = Some D.
Proof.
  unfold heap3. rewrite lookup_insert_ne by congruence. apply lookup_insert_eq.
Qed.

Lemma heap3_src H P D S : heap3 H this P dst D src S !! src = Some S.
Proof. unfold heap3. apply lookup_insert_eq. Qed.

Lemma heap3_other H P D S q :
  q <> this -> q <> dst -> q <> src -> heap3 H this P dst D src S !! q = H !! q.
Proof. intros. unfold heap3. now rewrite !lookup_insert_ne by congruence. Qed.

Lemma heap3_set_this H P D S P' :
  <[this := P']> (heap3 H this P dst D src S) = heap3 H this P' dst D src S.
Proof.
  unfold heap3.
  rewrite (insert_insert_ne _ this src) by congruence.
  rewrite (insert_insert_ne _ this dst) by congruence.
  now rewrite insert_insert_eq.
Qed.

Lemma heap3_set_dst H P D S D' :
  <[dst := D']> (heap3 H this P dst D src S) = heap3 H this P dst D' src S.
Proof.
  unfold heap3.
  rewrite (insert_insert_ne _ dst src) by congruence.
  now rewrite insert_insert_eq.
Qed.

Lemma heap3_set_src H P D S S' :
  <[src := S']> (heap3 H this P dst D src S) = heap3 H this P dst D src S'.
Proof. unfold heap3. now rewrite insert_insert_eq. Qed.

Lemma heap3_init H P D S :
  H !! this = Some P -> H !! dst = Some D -> H !! src = Some S ->
  H = heap3 H this P dst D src S.
Proof.
  intros Ep Ed Es. unfold heap3.
  rewrite (insert_id H this P Ep), (insert_id H dst D Ed), (insert_id H src S Es).
  reflexivity.
Qed.

End ThreeNodes.

Global Opaque heap3.

Ltac heap3_lookup :=
  first
    [ apply heap3_this; unfold nullptr in *; lia
    | apply heap3_dst; unfold nullptr in *; lia
    | apply heap3_src ].

Ltac heap3_norm :=
  repeat first
    [ rewrite heap3_set_this by (unfold nullptr in *; lia)
    | rewrite heap3_set_dst by (unfold nullptr in *; lia)
    | rewrite heap3_set_src ].

Ltac side3 := first [ heap3_lookup | side ].

Ltac prim_run3 :=
  first
    [ apply assert_run
    | apply ret_run
    | eapply NumItems_run
    | eapply IsLeaf_run
    | eapply MaxItems_run
    | eapply MinItems_run
    | eapply AvailableSlotCount_run
    | eapply Key_run
    | eapply Child_run
    | eapply SetKey_run
    | eapply SetChild_run
    | eapply set_num_items_run
    | eapply set_leaf_run
    | eapply add_num_items_run
    | eapply sub_num_items_run
    | eapply copy_key_run
    | eapply copy_child_run ]; side3.

Ltac mstep3 :=
  rewrite ?bind_assoc_run; erewrite bind_run by prim_run3; cbv beta;
  heap3_norm.

(** Equality of two states over [heap3], node by node. *)
Ltac node_close :=
  first
    [ srefl
    | apply node_ext; cbn [num_items_ leaf_ key_slots child_slots];
      [ first [ srefl | lia ]
      | first [ srefl | assumption | (symmetry; assumption) ]
      | first [ srefl | arr_ext ]
      | first [ srefl | arr_ext ] ] ].

Ltac heap3_eq :=
  heap3_norm; unfold_locals;
  match goal with
  | |- Some (tt, mkState (heap3 _ _ ?P _ ?D _ ?S) _) =
       Some (tt, mkState (heap3 _ _ ?P' _ ?D' _ ?S') _) =>
      replace P with P';
      [ replace D with D';
        [ replace S with S'; [ reflexivity | ] | ] | ]
  | |- mkState (heap3 _ _ ?P _ ?D _ ?S) _ =
       mkState (heap3 _ _ ?P' _ ?D' _ ?S') _ =>
      replace P with P';
      [ replace D with D';
        [ replace S with S'; [ reflexivity | ] | ] | ]
  end;
  node_close.

(** A loop body that copies one slot: run it and compare. *)
Ltac copy3 :=
  first [ erewrite copy_key_run by side3 | erewrite copy_child_run by side3 ];
  heap3_eq.

(** A read whose value [x] is known from [Hx : slot_get l i = Some x]
    for the original array [l]. *)
Ltac read3 Hx :=
  rewrite ?bind_assoc_run;
  erewrite bind_run by
    (first [ eapply Child_run | eapply Key_run ];
     [ side3 | side3
     | cbn [num_items_ leaf_ key_slots child_slots]; get_solve; exact Hx ]);
  cbv beta.

(** ** [RebalanceChildToLeft] *)

Section ToLeft.

Context {KT : KeyType}.
Hypothesis Hsize : 2 <= kKeySize.
Implicit Types (H : gmap Z BPTreeNode) (ok : bool).

Lemma RebalanceChildToLeft_spec this cp k src dst p sn dn sep H ok :
  this <> nullptr -> src <> nullptr -> dst <> nullptr ->
  this <> dst -> this <> src -> dst <> src ->
  H !! this = Some p -> H !! src = Some sn -> H !! dst = Some dn ->
  node_ok p -> leaf_ p = false -> 1 <= cp <= num_items_ p ->
  slot_get (child_slots p) cp = Some src ->
  slot_get (child_slots p) (cp - 1) = Some dst ->
  slot_get (key_slots p) (cp - 1) = Some sep ->
  node_ok sn -> node_ok dn -> leaf_ sn = leaf_ dn ->
  1 <= k <= num_items_ sn -> k <= node_max dn - num_items_ dn ->
  exists p' sn' dn' new_sep,
    RebalanceChildToLeft this cp k (mkState H ok) =
      Some (tt, mkState (<[src := sn']> (<[dst := dn']> (<[this := p']> H))) ok) /\
    slot_get (key_slots sn) (k - 1) = Some new_sep /\
    (num_items_ p' = num_items_ p /\ leaf_ p' = leaf_ p /\
     child_slots p' = child_slots p /\
     key_slots p' = upd (key_slots p) (cp - 1) new_sep) /\
    (num_items_ dn' = num_items_ dn + k /\ leaf_ dn' = leaf_ dn /\
     lenZ (key_slots dn') = lenZ (key_slots dn) /\
     lenZ (child_slots dn') = lenZ (child_slots dn) /\
     live_keys dn' = live_keys dn ++ [sep] ++ takeZ (k - 1) (key_slots sn) /\
     (leaf_ sn = false ->
      live_children dn' = live_children dn ++ takeZ k (child_slots sn))) /\
    (num_items_ sn' = num_items_ sn - k /\ leaf_ sn' = leaf_ sn /\
     lenZ (key_slots sn') = lenZ (key_slots sn) /\
     lenZ (child_slots sn') = lenZ (child_slots sn) /\
     live_keys sn' = sliceZ (key_slots sn) k (num_items_ sn - k) /\
     (leaf_ sn = false ->
      live_children sn' = sliceZ (child_slots sn) k (num_items_ sn - k + 1))).
Proof.
  intros Hp Hs Hd Htd Hts Hds Ep Es Ed Hokp Hinner Hcp Hcs Hcd Hsep
         Hoks Hokd Hkind Hk Hfree.
  pose proof (node_ok_count Hsize p Hokp) as Hcntp.
  pose proof (node_ok_count Hsize sn Hoks) as Hcnts.
  pose proof (node_ok_count Hsize dn Hokd) as Hcntd.
  pose proof (node_max_same_kind sn dn Hkind) as Hmax.
  pose proof (node_max_bound Hsize dn) as Hmaxd.
  pose proof (node_max_bound Hsize p) as Hmaxp.
  destruct Hokp as (Hcp' & Hkp & Hchp). specialize (Hchp Hinner).
  destruct Hoks as (Hcs' & Hks & Hchs). destruct Hokd as (Hcd' & Hkd & Hchd).
  set (np := num_items_ p) in *.
  set (ns := num_items_ sn) in *. set (nd := num_items_ dn) in *.
  destruct (slot_get_is_Some (key_slots sn) (k - 1)) as [new_sep Hnew]; [lia|].
  set (DK := blitZ (upd (key_slots dn) nd sep) (nd + 1) (sliceZ (key_slots sn) 0 (k - 1))).
  set (SK := blitZ (key_slots sn) 0 (sliceZ (key_slots sn) k (ns - k))).
  set (PK := upd (key_slots p) (cp - 1) new_sep).
  set (DC := if leaf_ sn then child_slots dn
             else blitZ (child_slots dn) (nd + 1) (sliceZ (child_slots sn) 0 k)).
  set (SC := if leaf_ sn then child_slots sn
             else blitZ (blitZ (child_slots sn) k (fillZ (ns - k + 1) nullptr)) 0
                    (sliceZ (child_slots sn) k (ns - k + 1))).
  exists (mkNode np (leaf_ p) PK (child_slots p)),
         (mkNode (ns - k) (leaf_ sn) SK SC),
         (mkNode (nd + k) (leaf_ dn) DK DC), new_sep.
  split; [|split; [exact Hnew|]].
  - change (<[src := ?a]> (<[dst := ?b]> (<[this := ?c]> H)))
      with (heap3 H this c dst b src a).
    rewrite (heap3_init this dst src H p dn sn Ep Ed Es) at 1.
    unfold RebalanceChildToLeft.
    mstep3. destruct (Z.ltb_spec 0 cp); [|lia]. rewrite andb_true_r.
    mstep3. wrap_simpl. mstep3. mstep3. mstep3. mstep3. mstep3. mstep3.
    mstep3. fold ns nd.
    rewrite (u32_small (node_max dn - nd)) by lia.
    destruct (Z.leb_spec k ns); [|lia].
    destruct (Z.leb_spec 1 k); [|lia].
    destruct (Z.leb_spec k (node_max dn - nd)); [|lia].
    rewrite !andb_true_r.
    mstep3. mstep3.
    (* keys moved to the left node *)
    pose (S1 := fun m => mkState (heap3 H this p dst
                (mkNode nd (leaf_ dn)
                   (blitZ (upd (key_slots dn) nd sep) (nd + 1)
                      (sliceZ (key_slots sn) 0 m)) (child_slots dn)) src sn) ok).
    mloop_up S1.
    { lia. }
    { intros m Hm. unfold S1. wrap_simpl. copy3. }
    { unfold S1. heap3_eq. }
    unfold S1. clear S1. wrap_simpl.
    mstep3. mstep3. fold ns.
    (* the keys left in the right node move down *)
    pose (S2 := fun m => mkState (heap3 H this
                (mkNode np (leaf_ p) PK (child_slots p)) dst
                (mkNode nd (leaf_ dn) DK (child_slots dn)) src
                (mkNode ns (leaf_ sn)
                   (blitZ (key_slots sn) 0 (sliceZ (key_slots sn) k m))
                   (child_slots sn))) ok).
    mloop_up S2.
    { lia. }
    { intros m Hm. unfold S2. wrap_simpl. copy3. }
    { unfold S2. heap3_eq. }
    unfold S2. clear S2.
    mstep3. cbn [leaf_].
    destruct (leaf_ sn) eqn:Eleaf; cbn [negb].
    + mstep3. mstep3. cbn [num_items_ leaf_ key_slots child_slots].
      erewrite sub_num_items_run by side3.
      cbn [num_items_ leaf_ key_slots child_slots]. wrap_simpl.
      subst DC SC SK. heap3_eq.
    + assert (Hchs' : lenZ (child_slots sn) = node_max sn + 1) by auto.
      assert (Hchd' : lenZ (child_slots dn) = node_max dn + 1)
        by (apply Hchd; congruence).
      pose (S3 := fun m => mkState (heap3 H this
                (mkNode np (leaf_ p) PK (child_slots p)) dst
                (mkNode nd (leaf_ dn) DK
                   (blitZ (child_slots dn) (nd + 1) (sliceZ (child_slots sn) 0 m)))
                src
                (mkNode ns false SK (child_slots sn))) ok).
      mloop_up S3.
      { lia. }
      { intros m Hm. unfold S3. mstep3.
        cbn [num_items_ leaf_ key_slots child_slots]. wrap_simpl. copy3. }
      { unfold S3. heap3_eq. }
      unfold S3. clear S3.
      pose (S4 := fun m => mkState (heap3 H this
                (mkNode np (leaf_ p) PK (child_slots p)) dst
                (mkNode nd (leaf_ dn) DK
                   (blitZ (child_slots dn) (nd + 1) (sliceZ (child_slots sn) 0 k)))
                src
                (mkNode ns false SK
                   (blitZ (blitZ (child_slots sn) k (fillZ m nullptr)) 0
                      (sliceZ (child_slots sn) k m)))) ok).
      mloop_up S4.
      { lia. }
      { intros m Hm. unfold S4.
        destruct (slot_get_is_Some (child_slots sn) (k + m)) as [x Hx]; [lia|].
        read3 Hx. wrap_simpl. mstep3.
        cbn [num_items_ leaf_ key_slots child_slots].
        erewrite SetChild_run by side3.
        cbn [num_items_ leaf_ key_slots child_slots]. heap3_eq. }
      { unfold S4. heap3_eq. }
      unfold S4. clear S4.
      mstep3. cbn [num_items_ leaf_ key_slots child_slots].
      erewrite sub_num_items_run by side3.
      cbn [num_items_ leaf_ key_slots child_slots]. wrap_simpl.
      subst DC SC SK. heap3_eq.
  - cbn [num_items_ leaf_ key_slots child_slots].
    split; [repeat split; reflexivity|].
    split.
    + split; [reflexivity|]. split; [reflexivity|].
      split; [unfold DK; len_lia|].
      split.
      { unfold DC. destruct (leaf_ sn) eqn:Eleaf; [reflexivity|].
        assert (Hchs' : lenZ (child_slots sn) = node_max sn + 1) by auto.
        assert (Hchd' : lenZ (child_slots dn) = node_max dn + 1)
          by (apply Hchd; congruence).
        len_lia. }
      split.
      { unfold live_keys, DK; cbn [num_items_ leaf_ key_slots child_slots].
        fold nd. arr_ext. }
      intros Eleaf. unfold DC. rewrite Eleaf.
      assert (Hchs' : lenZ (child_slots sn) = node_max sn + 1) by auto.
      assert (Hchd' : lenZ (child_slots dn) = node_max dn + 1)
        by (apply Hchd; congruence).
      unfold live_children; cbn [num_items_ leaf_ key_slots child_slots].
      fold nd. arr_ext.
    + split; [reflexivity|]. split; [reflexivity|].
      split; [unfold SK; len_lia|].
      split.
      { unfold SC. destruct (leaf_ sn) eqn:Eleaf; [reflexivity|].
        assert (Hchs' : lenZ (child_slots sn) = node_max sn + 1) by auto.
        len_lia. }
      split.
      { unfold live_keys, SK; cbn [num_items_ leaf_ key_slots child_slots].
        fold ns. arr_ext. }
      intros Eleaf. unfold SC. rewrite Eleaf.
      assert (Hchs' : lenZ (child_slots sn) = node_max sn + 1) by auto.
      unfold live_children; cbn [num_items_ leaf_ key_slots child_slots].
      fold ns. arr_ext.
Qed.

End ToLeft.

(** ** [RebalanceChildToRight] *)

Section ToRight.

Context {KT : KeyType}.
Hypothesis Hsize : 2 <= kKeySize.
Implicit Types (H : gmap Z BPTreeNode) (ok : bool).

Lemma RebalanceChildToRight_spec this cp k src dst p sn dn sep H ok :
  this <> nullptr -> src <> nullptr -> dst <> nullptr ->
  this <> dst -> this <> src -> dst <> src ->
  H !! this = Some p -> H !! src = Some sn -> H !! dst = Some dn ->
  node_ok p -> leaf_ p = false -> 0 <= cp < num_items_ p ->
  slot_get (child_slots p) cp = Some src ->
  slot_get (child_slots p) (cp + 1) = Some dst ->
  slot_get (key_slots p) cp = Some sep ->
  node_ok sn -> node_ok dn -> leaf_ sn = leaf_ dn ->
  1 <= k <= num_items_ sn -> k <= node_max dn - num_items_ dn ->
  exists p' sn' dn' new_sep,
    RebalanceChildToRight this cp k (mkState H ok) =
      Some (tt, mkState (<[src := sn']> (<[dst := dn']> (<[this := p']> H)))
                  (ok && (0 <? num_items_ dn))) /\
    slot_get (key_slots sn) (num_items_ sn - k) = Some new_sep /\
    (num_items_ p' = num_items_ p /\ leaf_ p' = leaf_ p /\
     child_slots p' = child_slots p /\
     key_slots p' = upd (key_slots p) cp new_sep) /\
    (num_items_ dn' = num_items_ dn + k /\ leaf_ dn' = leaf_ dn /\
     lenZ (key_slots dn') = lenZ (key_slots dn) /\
     lenZ (child_slots dn') = lenZ (child_slots dn) /\
     live_keys dn' =
       sliceZ (key_slots sn) (num_items_ sn - k + 1) (k - 1) ++ [sep] ++ live_keys dn /\
     (leaf_ sn = false ->
      live_children dn' =
        sliceZ (child_slots sn) (num_items_ sn - k + 1) k ++ live_children dn)) /\
    (num_items_ sn' = num_items_ sn - k /\ leaf_ sn' = leaf_ sn /\
     lenZ (key_slots sn') = lenZ (key_slots sn) /\
     lenZ (child_slots sn') = lenZ (child_slots sn) /\
     live_keys sn' = takeZ (num_items_ sn - k) (key_slots sn) /\
     (leaf_ sn = false ->
      live_children sn' = takeZ (num_items_ sn - k + 1) (child_slots sn))).
Proof.
  intros Hp Hs Hd Htd Hts Hds Ep Es Ed Hokp Hinner Hcp Hcs Hcd Hsep
         Hoks Hokd Hkind Hk Hfree.
  pose proof (node_ok_count Hsize p Hokp) as Hcntp.
  pose proof (node_ok_count Hsize sn Hoks) as Hcnts.
  pose proof (node_ok_count Hsize dn Hokd) as Hcntd.
  pose proof (node_max_same_kind sn dn Hkind) as Hmax.
  pose proof (node_max_bound Hsize dn) as Hmaxd.
  pose proof (node_max_bound Hsize p) as Hmaxp.
  destruct Hokp as (Hcp' & Hkp & Hchp). specialize (Hchp Hinner).
  destruct Hoks as (Hcs' & Hks & Hchs). destruct Hokd as (Hcd' & Hkd & Hchd).
  set (np := num_items_ p) in *.
  set (ns := num_items_ sn) in *. set (nd := num_items_ dn) in *.
  destruct (slot_get_is_Some (key_slots sn) (ns - k)) as [new_sep Hnew]; [lia|].
  set (DK1 := blitZ (key_slots dn) k (sliceZ (key_slots dn) 0 nd)).
  set (DK2 := blitZ DK1 0 (sliceZ (key_slots sn) (ns - k + 1) (k - 1))).
  set (DK := upd DK2 (k - 1) sep).
  set (PK := upd (key_slots p) cp new_sep).
  set (DC1 := blitZ (child_slots dn) k (sliceZ (child_slots dn) 0 (nd + 1))).
  set (DC := if leaf_ sn then child_slots dn
             else blitZ DC1 0 (sliceZ (child_slots sn) (ns - k + 1) k)).
  set (SC := if leaf_ sn then child_slots sn
             else blitZ (child_slots sn) (ns - k + 1) (fillZ k nullptr)).
  set (ok' := ok && (0 <? nd)).
  assert (HDK1 : lenZ DK1 = lenZ (key_slots dn)) by (unfold DK1; len_lia).
  assert (HDK2 : lenZ DK2 = lenZ (key_slots dn)) by (unfold DK2; len_lia).
  assert (HDK : lenZ DK = lenZ (key_slots dn)) by (unfold DK; len_lia).
  assert (HPK : lenZ PK = lenZ (key_slots p)) by (unfold PK; len_lia).
  assert (HDC1 : leaf_ sn = false -> lenZ DC1 = lenZ (child_slots dn)).
  { intros Eleaf. unfold DC1.
    assert (lenZ (child_slots dn) = node_max dn + 1) by (apply Hchd; congruence).
    len_lia. }
  exists (mkNode np (leaf_ p) PK (child_slots p)),
         (mkNode (ns - k) (leaf_ sn) (key_slots sn) SC),
         (mkNode (nd + k) (leaf_ dn) DK DC), new_sep.
  split; [|split; [exact Hnew|]].
  - change (<[src := ?a]> (<[dst := ?b]> (<[this := ?c]> H)))
      with (heap3 H this c dst b src a).
    rewrite (heap3_init this dst src H p dn sn Ep Ed Es) at 1.
    unfold RebalanceChildToRight.
    mstep3. mstep3. fold np.
    destruct (Z.ltb_spec cp np); [|lia]. rewrite andb_true_r.
    mstep3. wrap_simpl. mstep3. mstep3. mstep3. mstep3. mstep3. mstep3.
    mstep3. mstep3. fold ns nd.
    rewrite (u32_small (node_max dn - nd)) by lia.
    destruct (Z.leb_spec k ns); [|lia].
    destruct (Z.leb_spec 1 k); [|lia].
    destruct (Z.leb_spec k (node_max dn - nd)); [|lia].
    rewrite !andb_true_r. fold ok'.
    (* room is made in the right node *)
    unfold down_from. rewrite to_int_u32_pred by lia.
    replace (nd - 1 + 1) with nd by lia.
    pose (S1 := fun m => mkState (heap3 H this p dst
                (mkNode nd (leaf_ dn)
                   (blitZ (key_slots dn) (nd - m + k)
                      (sliceZ (key_slots dn) (nd - m) m)) (child_slots dn))
                src sn) ok').
    mloop_down S1.
    { lia. }
    { intros m Hm. unfold S1. wrap_simpl. copy3. }
    { unfold S1. heap3_eq. }
    unfold S1. clear S1. wrap_simpl.
    read3 Hnew.
    pose (S2 := fun m => mkState (heap3 H this p dst
                (mkNode nd (leaf_ dn)
                   (blitZ DK1 0 (sliceZ (key_slots sn) (ns - k + 1) m))
                   (child_slots dn))
                src sn) ok').
    mloop_up S2.
    { lia. }
    { intros m Hm. unfold S2. wrap_simpl. copy3. }
    { unfold S2. heap3_eq. }
    unfold S2. clear S2.
    mstep3. wrap_simpl. mstep3. mstep3. mstep3.
    cbn [num_items_ leaf_ key_slots child_slots].
    destruct (leaf_ sn) eqn:Eleaf; cbn [negb].
    + mstep3. mstep3. cbn [num_items_ leaf_ key_slots child_slots].
      erewrite sub_num_items_run by side3.
      cbn [num_items_ leaf_ key_slots child_slots]. wrap_simpl.
      subst DC SC. rewrite ?Eleaf. heap3_eq.
    + assert (Hchs' : lenZ (child_slots sn) = node_max sn + 1) by auto.
      assert (Hchd' : lenZ (child_slots dn) = node_max dn + 1)
        by (apply Hchd; congruence).
      specialize (HDC1 eq_refl).
      rewrite to_int_small by lia.
      pose (S3 := fun m => mkState (heap3 H this
                (mkNode np (leaf_ p) PK (child_slots p)) dst
                (mkNode nd (leaf_ dn) DK
                   (blitZ (child_slots dn) (nd + 1 - m + k)
                      (sliceZ (child_slots dn) (nd + 1 - m) m)))
                src sn) ok').
      mloop_down S3.
      { lia. }
      { intros m Hm. unfold S3. wrap_simpl. copy3. }
      { unfold S3. heap3_eq. }
      unfold S3. clear S3.
      pose (S4 := fun m => mkState (heap3 H this
                (mkNode np (leaf_ p) PK (child_slots p)) dst
                (mkNode nd (leaf_ dn) DK
                   (blitZ DC1 0 (sliceZ (child_slots sn) (ns - k + 1) m)))
                src
                (mkNode ns false (key_slots sn)
                   (blitZ (child_slots sn) (ns - k + 1) (fillZ m nullptr)))) ok').
      mloop_up S4.
      { lia. }
      { intros m Hm. unfold S4. wrap_simpl.
        destruct (slot_get_is_Some (child_slots sn) (ns - (k - 1) + (0 + m)))
          as [x Hx]; [lia|].
        read3 Hx. mstep3.
        cbn [num_items_ leaf_ key_slots child_slots].
        erewrite SetChild_run by side3.
        cbn [num_items_ leaf_ key_slots child_slots]. heap3_eq. }
      { unfold S4. heap3_eq. }
      unfold S4. clear S4.
      mstep3. cbn [num_items_ leaf_ key_slots child_slots].
      erewrite sub_num_items_run by side3.
      cbn [num_items_ leaf_ key_slots child_slots]. wrap_simpl.
      subst DC SC. rewrite ?Eleaf. heap3_eq.
  - cbn [num_items_ leaf_ key_slots child_slots].
    split; [repeat split; reflexivity|].
    split.
    + split; [reflexivity|]. split; [reflexivity|].
      split; [unfold DK, DK2, DK1; len_lia|].
      split.
      { unfold DC, DC1. destruct (leaf_ sn) eqn:Eleaf; [reflexivity|].
        assert (Hchs' : lenZ (child_slots sn) = node_max sn + 1) by auto.
        assert (Hchd' : lenZ (child_slots dn) = node_max dn + 1)
          by (apply Hchd; congruence).
        len_lia. }
      split.
      { unfold live_keys, DK, DK2, DK1;
          cbn [num_items_ leaf_ key_slots child_slots].
        fold nd ns. arr_ext. }
      intros Eleaf. unfold DC, DC1. rewrite Eleaf.
      assert (Hchs' : lenZ (child_slots sn) = node_max sn + 1) by auto.
      assert (Hchd' : lenZ (child_slots dn) = node_max dn + 1)
        by (apply Hchd; congruence).
      unfold live_children; cbn [num_items_ leaf_ key_slots child_slots].
      fold nd ns. arr_ext.
    + split; [reflexivity|]. split; [reflexivity|].
      split; [reflexivity|].
      split.
      { unfold SC. destruct (leaf_ sn) eqn:Eleaf; [reflexivity|].
        assert (Hchs' : lenZ (child_slots sn) = node_max sn + 1) by auto.
        len_lia. }
      split; [reflexivity|].
      intros Eleaf. unfold SC. rewrite Eleaf.
      assert (Hchs' : lenZ (child_slots sn) = node_max sn + 1) by auto.
      unfold live_children; cbn [num_items_ leaf_ key_slots child_slots].
      fold ns. arr_ext.
Qed.

End ToRight.

(** ** [ShiftRight] and [InsertItem] *)

Section Inserting.

Context {KT : KeyType}.
Hypothesis Hsize : 2 <= kKeySize.
Implicit Types (H : gmap Z BPTreeNode) (ok : bool) (n : BPTreeNode).

Lemma ShiftRight_run this idx n H ok :
  this <> nullptr -> H !! this = Some n -> node_ok n ->
  num_items_ n < node_max n -> 0 <= idx <= num_items_ n ->
  ShiftRight this idx (mkState H ok) =
  Some (tt, mkState
    (<[this := mkNode (num_items_ n + 1) (leaf_ n)
        (if 0 <? num_items_ n - idx
         then blitZ (key_slots n) (idx + 1)
                (sliceZ (key_slots n) idx (num_items_ n - idx))
         else key_slots n)
        (if (0 <? num_items_ n - idx) && negb (leaf_ n)
         then blitZ (child_slots n) (idx + 1)
                (sliceZ (child_slots n) idx (num_items_ n - idx + 1))
         else child_slots n)]> H) ok).
Proof.
  intros Hp E Hok Hroom Hidx.
  pose proof (node_ok_count Hsize n Hok) as Hcnt.
  destruct Hok as (Hc & Hk & Hch).
  pose proof (node_max_bound Hsize n) as Hmax.
  unfold ShiftRight. mstep. wrap_simpl.
  destruct (Z.ltb_spec 0 (num_items_ n - idx)) as [Hsh|Hsh]; cbn [andb].
  - mstep. mstep. cbn [leaf_].
    destruct (leaf_ n) eqn:Eleaf; cbn [negb].
    + mstep. erewrite set_num_items_run by side.
      cbn [num_items_ leaf_ key_slots child_slots].
      rewrite insert_insert_eq. wrap_simpl. reflexivity.
    + specialize (Hch eq_refl).
      mstep. erewrite set_num_items_run by side.
      cbn [num_items_ leaf_ key_slots child_slots].
      rewrite !insert_insert_eq. wrap_simpl. reflexivity.
  - mstep. erewrite set_num_items_run by side. wrap_simpl. reflexivity.
Qed.

(** [InsertItem] at a slot where the new key respects the order of the
    keys next to it. *)
Lemma InsertItem_spec this idx x n H ok :
  this <> nullptr -> H !! this = Some n -> node_ok n ->
  num_items_ n < node_max n -> 0 <= idx <= num_items_ n ->
  (forall a, slot_get (live_keys n) (idx - 1) = Some a -> key_lt a x = true) ->
  (forall b, slot_get (live_keys n) idx = Some b -> key_lt x b = true) ->
  exists n',
    InsertItem this idx x (mkState H ok) = Some (tt, mkState (<[this := n']> H) ok) /\
    num_items_ n' = num_items_ n + 1 /\ leaf_ n' = leaf_ n /\
    lenZ (key_slots n') = lenZ (key_slots n) /\
    lenZ (child_slots n') = lenZ (child_slots n) /\
    live_keys n' =
      takeZ idx (live_keys n) ++ [x] ++
      sliceZ (live_keys n) idx (num_items_ n - idx).
Proof.
  intros Hp E Hok Hroom Hidx Hpred Hsucc.
  pose proof (ShiftRight_run this idx n H ok Hp E Hok Hroom Hidx) as Hshift.
  pose proof (node_ok_count Hsize n Hok) as Hcnt.
  destruct Hok as (Hc & Hk & Hch).
  pose proof (node_max_bound Hsize n) as Hmax.
  unfold live_keys in Hpred, Hsucc.
  eexists. split.
  - unfold InsertItem. mstep. mstep.
    destruct (Z.leb_spec idx (num_items_ n)); [|lia]. rewrite andb_true_r.
    (* the key before the slot *)
    rewrite ?bind_assoc_run.
    erewrite bind_run with (a := tt) (s' := mkState H ok).
    2:{ destruct (Z.eqb_spec idx 0) as [->|Hnz].
        - erewrite assertM_run by apply ret_run. now rewrite andb_true_r.
        - destruct (slot_get_is_Some (key_slots n) (idx - 1)) as [a Ha]; [lia|].
          erewrite assertM_run.
          2:{ wrap_simpl. erewrite bind_run by (eapply Key_run; eauto).
              apply ret_run. }
          rewrite Hpred; [now rewrite andb_true_r|].
          get_solve. }
    (* the key at the slot *)
    erewrite bind_run with (a := tt) (s' := mkState H ok).
    2:{ destruct (Z.eqb_spec idx (num_items_ n)) as [->|Hnz].
        - erewrite assertM_run by apply ret_run. now rewrite andb_true_r.
        - destruct (slot_get_is_Some (key_slots n) idx) as [b Hb]; [lia|].
          erewrite assertM_run.
          2:{ erewrite bind_run by (eapply Key_run; eauto). apply ret_run. }
          rewrite Hsucc; [now rewrite andb_true_r|].
          get_solve. }
    rewrite (bind_run _ _ _ _ _ Hshift).
    erewrite SetKey_run by
      (first [assumption | apply lookup_insert_eq
             | cbn [num_items_ leaf_ key_slots child_slots];
               destruct (0 <? num_items_ n - idx); len_lia]).
    rewrite insert_insert_eq. reflexivity.
  - cbn [num_items_ leaf_ key_slots child_slots].
    split; [reflexivity|]. split; [reflexivity|].
    destruct (Z.ltb_spec 0 (num_items_ n - idx)) as [Hsh|Hsh]; cbn [andb].
    + split; [len_lia|].
      split.
      { destruct (leaf_ n) eqn:El; cbn [negb]; [reflexivity|].
        specialize (Hch eq_refl). len_lia. }
      unfold live_keys. cbn [num_items_ leaf_ key_slots child_slots]. arr_ext.
    + split; [len_lia|]. split; [reflexivity|].
      unfold live_keys. cbn [num_items_ leaf_ key_slots child_slots]. arr_ext.
Qed.

End Inserting.

(** ** The keys and children a node holds *)

Section LiveViews.

Context {KT : KeyType}.
Implicit Types (n : BPTreeNode).

Lemma live_keys_get n j :
  j < num_items_ n -> slot_get (live_keys n) j = slot_get (key_slots n) j.
Proof.
  intros. unfold live_keys. rewrite slot_get_takeZ.
  destruct (Z.ltb_spec j (num_items_ n)); [reflexivity|lia].
Qed.

Lemma live_keys_get_Some n j a :
  slot_get (live_keys n) j = Some a ->
  0 <= j < num_items_ n /\ slot_get (key_slots n) j = Some a.
Proof.
  unfold live_keys. rewrite slot_get_takeZ.
  destruct (Z.ltb_spec j (num_items_ n)); [|discriminate].
  intros E. pose proof (slot_get_lt _ _ _ E). split; [lia|exact E].
Qed.

Lemma live_children_get n j :
  j < num_items_ n + 1 ->
  slot_get (live_children n) j = slot_get (child_slots n) j.
Proof.
  intros. unfold live_children. rewrite slot_get_takeZ.
  destruct (Z.ltb_spec j (num_items_ n + 1)); [reflexivity|lia].
Qed.

Lemma lenZ_live_keys n :
  0 <= num_items_ n <= lenZ (key_slots n) -> lenZ (live_keys n) = num_items_ n.
Proof. intros. unfold live_keys. now apply lenZ_takeZ. Qed.

Lemma lenZ_live_children n :
  0 <= num_items_ n + 1 <= lenZ (child_slots n) ->
  lenZ (live_children n) = num_items_ n + 1.
Proof. intros. unfold live_children. now apply lenZ_takeZ. Qed.

End LiveViews.

(** ** [Split] and [MergeFromRight]: the claims *)

Section SplitMerge.

Context {KT : KeyType}.
Hypothesis Hsize : 2 <= kKeySize.

(** C3: [Split] of a node with [n >= 1] strictly increasing keys, with
    [m = n / 2]: the median is the key at slot [m]; [right] receives the
    keys [m+1, n) and, in an inner node, the children [m+1, n], in
    order; this node keeps the first [m] keys (and [m + 1] children);
    the counts are [m] and [n - m - 1], so they add up to [n - 1]; the
    leaf flag is copied; every key left is below the median, every key
    of [right] is above it, and both nodes are still strictly
    increasing.  No other node changes and no assertion fails. *)
Theorem C3_Split_extracts_median (cmp_op : KeyT -> KeyT -> Z)
    this right n r0 s :
  this <> nullptr -> right <> nullptr -> this <> right ->
  heap s !! this = Some n -> heap s !! right = Some r0 ->
  node_ok n -> 1 <= num_items_ n ->
  num_items_ n - num_items_ n / 2 - 1 <= lenZ (key_slots r0) ->
  (leaf_ n = false -> num_items_ n - num_items_ n / 2 <= lenZ (child_slots r0)) ->
  keys_increasing cmp_op n ->
  exists median n' r' s',
    Split this right s = Some (median, s') /\
    heap s' !! this = Some n' /\ heap s' !! right = Some r' /\
    (forall q, q <> this -> q <> right -> heap s' !! q = heap s !! q) /\
    asserts_ok s' = asserts_ok s /\
    slot_get (key_slots n) (num_items_ n / 2) = Some median /\
    live_keys r' =
      sliceZ (live_keys n) (num_items_ n / 2 + 1)
        (num_items_ n - num_items_ n / 2 - 1) /\
    (leaf_ n = false ->
     live_children r' =
       sliceZ (live_children n) (num_items_ n / 2 + 1)
         (num_items_ n - num_items_ n / 2) /\
     live_children n' = takeZ (num_items_ n / 2 + 1) (live_children n)) /\
    live_keys n' = takeZ (num_items_ n / 2) (live_keys n) /\
    num_items_ n' = num_items_ n / 2 /\
    num_items_ r' = num_items_ n - num_items_ n / 2 - 1 /\
    num_items_ n' + num_items_ r' + 1 = num_items_ n /\
    leaf_ r' = leaf_ n /\ leaf_ n' = leaf_ n /\
    live_keys n = live_keys n' ++ [median] ++ live_keys r' /\
    (forall j a, slot_get (live_keys n') j = Some a -> cmp_op a median < 0) /\
    (forall j b, slot_get (live_keys r') j = Some b -> cmp_op median b < 0) /\
    keys_increasing cmp_op n' /\ keys_increasing cmp_op r'.
Proof.
  intros Hp Hq Hne En Er Hok Hone Hcapk Hcapc Hinc.
  destruct s as [H ok]; simpl in En, Er.
  destruct (Split_spec Hsize this right n r0 H ok Hp Hq Hne En Er Hok Hone
              Hcapk Hcapc)
    as (median & n' & r' & Hrun & Hmed & Hn' & Hr' & Hln & Hlr & Hkn & Hcn
        & Hkr & Hcr).
  pose proof (node_ok_count Hsize n Hok) as Hcnt.
  destruct Hok as (Hc & Hk & Hch).
  set (cnt := num_items_ n) in *. set (mid := cnt / 2) in *.
  assert (Hmid : 0 <= mid /\ mid + 1 <= cnt).
  { unfold mid. split; [apply Z.div_pos; lia|].
    assert (cnt / 2 < cnt) by (apply Z.div_lt_upper_bound; lia). lia. }
  assert (Hlkn : live_keys n' = takeZ mid (live_keys n)).
  { unfold live_keys. rewrite Hn', Hkn. fold cnt. arr_ext. }
  assert (Hlkr : live_keys r' = sliceZ (live_keys n) (mid + 1) (cnt - mid - 1)).
  { rewrite Hkr. unfold live_keys. fold cnt. arr_ext. }
  exists median, n', r', (mkState (<[this := n']> (<[right := r']> H)) ok).
  split; [exact Hrun|]. cbn [heap asserts_ok].
  split; [apply lookup_insert_eq|].
  split; [rewrite lookup_insert_ne by congruence; apply lookup_insert_eq|].
  split; [intros q Hq1 Hq2; now rewrite !lookup_insert_ne by congruence|].
  split; [reflexivity|]. split; [exact Hmed|]. split; [exact Hlkr|].
  split.
  { intros El. specialize (Hch El). specialize (Hcr El). split.
    - rewrite Hcr. unfold live_children. fold cnt. arr_ext.
    - unfold live_children. rewrite Hn', Hcn. fold cnt mid. arr_ext. }
  split; [exact Hlkn|]. split; [exact Hn'|]. split; [exact Hr'|].
  split; [rewrite Hn', Hr'; lia|]. split; [exact Hlr|]. split; [exact Hln|].
  split.
  { rewrite Hlkn, Hlkr. unfold live_keys. fold cnt. arr_ext. }
  split.
  { intros j a Ha. rewrite Hlkn in Ha. unfold live_keys in Ha. fold cnt in Ha.
    rewrite !slot_get_takeZ in Ha.
    destruct (Z.ltb_spec j mid); [|discriminate].
    destruct (Z.ltb_spec j cnt); [|discriminate].
    pose proof (slot_get_lt _ _ _ Ha).
    apply (Hinc j mid a median); auto; lia. }
  split.
  { intros j b Hb. rewrite Hlkr in Hb.
    assert (Hl : lenZ (live_keys n) = cnt) by (apply lenZ_live_keys; lia).
    rewrite slot_get_sliceZ in Hb by lia.
    destruct (Z.leb_spec 0 j); [|discriminate].
    destruct (Z.ltb_spec j (cnt - mid - 1)); [|discriminate]. cbn [andb] in Hb.
    rewrite live_keys_get in Hb by (fold cnt; lia).
    apply (Hinc mid (mid + 1 + j) median b); auto; lia. }
  split.
  { intros i j a b Hi Hij Hj Ha Hb. rewrite Hn' in Hj. rewrite Hkn in Ha, Hb.
    apply (Hinc i j a b); auto. fold cnt. lia. }
  intros i j a b Hi Hij Hj Ha Hb. rewrite Hr' in Hj. fold cnt mid in Hj.
  rewrite <- live_keys_get in Ha by (rewrite Hr'; fold cnt mid; lia).
  rewrite <- live_keys_get in Hb by (rewrite Hr'; fold cnt mid; lia).
  rewrite Hlkr in Ha, Hb.
  assert (Hl : lenZ (live_keys n) = cnt) by (apply lenZ_live_keys; lia).
  rewrite slot_get_sliceZ in Ha, Hb by lia.
  destruct (Z.leb_spec 0 i); [|lia]. destruct (Z.leb_spec 0 j); [|lia].
  destruct (Z.ltb_spec i (cnt - mid - 1)); [|lia].
  destruct (Z.ltb_spec j (cnt - mid - 1)); [|lia].
  cbn [andb] in Ha, Hb.
  rewrite live_keys_get in Ha, Hb by (fold cnt; lia).
  apply (Hinc (mid + 1 + i) (mid + 1 + j) a b); auto; lia.
Qed.

(** C6: [MergeFromRight] on two nodes of the same kind whose keys fit
    in one node: this node then holds its old keys, the separator and
    the keys of [right], in this order; an inner node holds its old
    children followed by the [count + 1] children of [right]; its count
    is the old count plus one plus the count of [right]; [right] is
    empty.  No other node changes and no assertion fails. *)
Theorem C6_MergeFromRight_appends this right sep_key l r s :
  this <> nullptr -> right <> nullptr -> this <> right ->
  heap s !! this = Some l -> heap s !! right = Some r ->
  node_ok l -> node_ok r -> leaf_ l = leaf_ r ->
  num_items_ l + 1 + num_items_ r <= node_max l ->
  exists l' r' s',
    MergeFromRight this sep_key right s = Some (tt, s') /\
    heap s' !! this = Some l' /\ heap s' !! right = Some r' /\
    (forall q, q <> this -> q <> right -> heap s' !! q = heap s !! q) /\
    asserts_ok s' = asserts_ok s /\
    live_keys l' = live_keys l ++ [sep_key] ++ live_keys r /\
    (leaf_ l = false -> live_children l' = live_children l ++ live_children r) /\
    num_items_ l' = num_items_ l + 1 + num_items_ r /\
    leaf_ l' = leaf_ l /\
    num_items_ r' = 0 /\ live_keys r' = [].
Proof.
  intros Hp Hq Hne El Er Hokl Hokr Hkind Hfit.
  destruct s as [H ok]; simpl in El, Er.
  destruct (MergeFromRight_spec Hsize this right sep_key l r H ok Hp Hq Hne El Er
              Hokl Hokr Hkind Hfit)
    as (l' & r' & Hrun & Hnl & Hll & _ & _ & Hkeys & Hch & Hnr & _).
  exists l', r', (mkState (<[right := r']> (<[this := l']> H)) ok).
  split; [exact Hrun|]. cbn [heap asserts_ok].
  split; [rewrite lookup_insert_ne by congruence; apply lookup_insert_eq|].
  split; [apply lookup_insert_eq|].
  split; [intros q Hq1 Hq2; now rewrite !lookup_insert_ne by congruence|].
  split; [reflexivity|]. split; [exact Hkeys|]. split; [exact Hch|].
  split; [exact Hnl|]. split; [exact Hll|]. split; [exact Hnr|].
  unfold live_keys. rewrite Hnr. reflexivity.
Qed.

End SplitMerge.

(** ** [RebalanceChildToLeft] and [RebalanceChildToRight]: the claim *)

Section RebalancingSiblings.

Context {KT : KeyType}.
Hypothesis Hsize : 2 <= kKeySize.

Lemma rebalanced_to_left this i k lc rc p ln rn H ok :
  this <> nullptr -> lc <> nullptr -> rc <> nullptr ->
  this <> lc -> this <> rc -> lc <> rc ->
  H !! this = Some p -> H !! lc = Some ln -> H !! rc = Some rn ->
  node_ok p -> leaf_ p = false -> 0 <= i < num_items_ p ->
  slot_get (child_slots p) i = Some lc ->
  slot_get (child_slots p) (i + 1) = Some rc ->
  node_ok ln -> node_ok rn -> leaf_ ln = leaf_ rn ->
  1 <= k <= num_items_ rn -> k <= node_max ln - num_items_ ln ->
  exists H',
    RebalanceChildToLeft this (i + 1) k (mkState H ok) = Some (tt, mkState H' ok) /\
    rebalanced (mkState H ok) (mkState H' ok) this p i lc ln rc rn k (- k).
Proof.
  intros Hp Hl Hr Htl Htr Hlr Ep El Er Hokp Hinner Hi Hcl Hcr Hokl Hokr Hkind
         Hk Hfree.
  assert (Hkeyrange : 0 <= i < lenZ (key_slots p)).
  { destruct Hokp as (? & ? & ?). lia. }
  destruct (slot_get_is_Some (key_slots p) i Hkeyrange) as [sep Hsep].
  destruct (RebalanceChildToLeft_spec Hsize this (i + 1) k rc lc p rn ln sep H ok)
    as (p' & rn' & ln' & new_sep & Hrun & Hnew & (Hp1 & Hp2 & Hp3 & Hp4)
        & (Hd1 & Hd2 & Hd3 & Hd4 & Hd5 & Hd6) & (Hs1 & Hs2 & Hs3 & Hs4 & Hs5 & Hs6));
    auto; try lia; try congruence;
    try (replace (i + 1 - 1) with i by lia; assumption).
  pose proof (node_ok_count Hsize rn Hokr) as Hcr'.
  pose proof (node_ok_count Hsize ln Hokl) as Hcl'.
  pose proof (node_max_same_kind ln rn Hkind) as Hmx.
  replace (i + 1 - 1) with i in Hp4 by lia.
  assert (Hseq : live_keys ln' ++ [new_sep] ++ live_keys rn' =
                 live_keys ln ++ [sep] ++ live_keys rn).
  { rewrite Hd5, Hs5. destruct Hokl as (? & ? & ?), Hokr as (? & ? & ?).
    unfold live_keys. arr_ext. }
  eexists. split; [exact Hrun|].
  exists p', ln', rn', sep, new_sep. cbn [heap].
  split; [rewrite !lookup_insert_ne by congruence; apply lookup_insert_eq|].
  split; [rewrite lookup_insert_ne by congruence; apply lookup_insert_eq|].
  split; [apply lookup_insert_eq|].
  split; [intros q ? ? ?; now rewrite !lookup_insert_ne by congruence|].
  split; [exact Hp1|]. split; [exact Hp2|]. split; [exact Hp3|].
  split.
  { intros j Hj. rewrite Hp4, slot_get_upd by lia.
    destruct (Z.eqb_spec j i); [contradiction|reflexivity]. }
  split; [exact Hsep|].
  split.
  { rewrite Hp4, slot_get_upd by lia. now rewrite Z.eqb_refl. }
  split; [exact Hseq|].
  split; [now rewrite Hseq|].
  split.
  { intros Eleaf. rewrite Hd6, Hs6 by congruence.
    destruct Hokl as (? & ? & Hchl), Hokr as (? & ? & Hchr).
    specialize (Hchl Eleaf). specialize (Hchr ltac:(congruence)).
    unfold live_children. arr_ext. }
  split; [exact Hd1|]. split; [rewrite Hs1; lia|].
  split; [exact Hd2|]. split; [exact Hs2|].
  destruct Hokl as (Hl1 & Hl2 & Hl3), Hokr as (Hr1 & Hr2 & Hr3),
           Hokp as (Hp5 & Hp6 & Hp7).
  unfold node_ok, node_max in *.
  rewrite Hd1, Hd2, Hd3, Hd4, Hs1, Hs2, Hs3, Hs4, Hp1, Hp2, Hp3, Hp4.
  rewrite lenZ_upd.
  repeat split; auto; lia.
Qed.

Lemma rebalanced_to_right this i k lc rc p ln rn H ok :
  this <> nullptr -> lc <> nullptr -> rc <> nullptr ->
  this <> lc -> this <> rc -> lc <> rc ->
  H !! this = Some p -> H !! lc = Some ln -> H !! rc = Some rn ->
  node_ok p -> leaf_ p = false -> 0 <= i < num_items_ p ->
  slot_get (child_slots p) i = Some lc ->
  slot_get (child_slots p) (i + 1) = Some rc ->
  node_ok ln -> node_ok rn -> leaf_ ln = leaf_ rn ->
  1 <= k <= num_items_ ln -> k <= node_max rn - num_items_ rn ->
  exists H',
    RebalanceChildToRight this i k (mkState H ok) =
      Some (tt, mkState H' (ok && (0 <? num_items_ rn))) /\
    rebalanced (mkState H ok) (mkState H' (ok && (0 <? num_items_ rn)))
      this p i lc ln rc rn (- k) k.
Proof.
  intros Hp Hl Hr Htl Htr Hlr Ep El Er Hokp Hinner Hi Hcl Hcr Hokl Hokr Hkind
         Hk Hfree.
  assert (Hkeyrange : 0 <= i < lenZ (key_slots p)).
  { destruct Hokp as (? & ? & ?). lia. }
  destruct (slot_get_is_Some (key_slots p) i Hkeyrange) as [sep Hsep].
  destruct (RebalanceChildToRight_spec Hsize this i k lc rc p ln rn sep H ok)
    as (p' & ln' & rn' & new_sep & Hrun & Hnew & (Hp1 & Hp2 & Hp3 & Hp4)
        & (Hd1 & Hd2 & Hd3 & Hd4 & Hd5 & Hd6) & (Hs1 & Hs2 & Hs3 & Hs4 & Hs5 & Hs6));
    auto; try lia; try congruence.
  pose proof (node_ok_count Hsize rn Hokr) as Hcr'.
  pose proof (node_ok_count Hsize ln Hokl) as Hcl'.
  pose proof (node_max_same_kind ln rn Hkind) as Hmx.
  assert (Hseq : live_keys ln' ++ [new_sep] ++ live_keys rn' =
                 live_keys ln ++ [sep] ++ live_keys rn).
  { rewrite Hd5, Hs5. destruct Hokl as (? & ? & ?), Hokr as (? & ? & ?).
    unfold live_keys. arr_ext. }
  eexists. split; [exact Hrun|].
  exists p', ln', rn', sep, new_sep. cbn [heap].
  split; [rewrite !lookup_insert_ne by congruence; apply lookup_insert_eq|].
  split; [apply lookup_insert_eq|].
  split; [rewrite lookup_insert_ne by congruence; apply lookup_insert_eq|].
  split; [intros q ? ? ?; now rewrite !lookup_insert_ne by congruence|].
  split; [exact Hp1|]. split; [exact Hp2|]. split; [exact Hp3|].
  split.
  { intros j Hj. rewrite Hp4, slot_get_upd by lia.
    destruct (Z.eqb_spec j i); [contradiction|reflexivity]. }
  split; [exact Hsep|].
  split.
  { rewrite Hp4, slot_get_upd by lia. now rewrite Z.eqb_refl. }
  split; [exact Hseq|].
  split; [now rewrite Hseq|].
  split.
  { intros Eleaf. rewrite Hd6, Hs6 by congruence.
    destruct Hokl as (? & ? & Hchl), Hokr as (? & ? & Hchr).
    specialize (Hchl Eleaf). specialize (Hchr ltac:(congruence)).
    unfold live_children. arr_ext. }
  split; [rewrite Hs1; lia|]. split; [exact Hd1|].
  split; [exact Hs2|]. split; [exact Hd2|].
  destruct Hokl as (Hl1 & Hl2 & Hl3), Hokr as (Hr1 & Hr2 & Hr3),
           Hokp as (Hp5 & Hp6 & Hp7).
  unfold node_ok, node_max in *.
  rewrite Hd1, Hd2, Hd3, Hd4, Hs1, Hs2, Hs3, Hs4, Hp1, Hp2, Hp3, Hp4.
  rewrite lenZ_upd.
  repeat split; auto; lia.
Qed.

(** C8: for a parent and its two children left and right of the
    separator at slot [i], and a count [k] within what the source child
    holds and the destination child has room for,
    [RebalanceChildToLeft(i + 1, k)] and [RebalanceChildToRight(i, k)]
    leave the parent's count and children unchanged, change no key slot
    of the parent but the separator at slot [i], keep the sequence (so
    the multiset) of keys of left child, separator and right child, add
    [k] to the count of the destination and take [k] from the count of
    the source.  No assertion of the left move fails; the right move
    fails an assertion exactly when its destination is empty. *)
Theorem C8_rebalance_between_siblings_frame this i k lc rc p ln rn s :
  this <> nullptr -> lc <> nullptr -> rc <> nullptr ->
  this <> lc -> this <> rc -> lc <> rc ->
  heap s !! this = Some p -> heap s !! lc = Some ln -> heap s !! rc = Some rn ->
  node_ok p -> leaf_ p = false -> 0 <= i < num_items_ p ->
  slot_get (child_slots p) i = Some lc ->
  slot_get (child_slots p) (i + 1) = Some rc ->
  node_ok ln -> node_ok rn -> leaf_ ln = leaf_ rn ->
  (1 <= k <= num_items_ rn -> k <= node_max ln - num_items_ ln ->
   exists s',
     RebalanceChildToLeft this (i + 1) k s = Some (tt, s') /\
     asserts_ok s' = asserts_ok s /\
     rebalanced s s' this p i lc ln rc rn k (- k)) /\
  (1 <= k <= num_items_ ln -> k <= node_max rn - num_items_ rn ->
   exists s',
     RebalanceChildToRight this i k s = Some (tt, s') /\
     asserts_ok s' = (asserts_ok s && (0 <? num_items_ rn)) /\
     rebalanced s s' this p i lc ln rc rn (- k) k).
Proof.
  intros Hp Hl Hr Htl Htr Hlr Ep El Er Hokp Hinner Hi Hcl Hcr Hokl Hokr Hkind.
  destruct s as [H ok]; cbn [heap asserts_ok] in *.
  split; intros Hk Hfree.
  - destruct (rebalanced_to_left this i k lc rc p ln rn H ok) as (H' & Hrun & Hreb);
      auto.
    exists (mkState H' ok). auto.
  - destruct (rebalanced_to_right this i k lc rc p ln rn H ok) as (H' & Hrun & Hreb);
      auto.
    eexists. split; [exact Hrun|]. auto.
Qed.

End RebalancingSiblings.

(** ** Inserting the pending key after a rebalance *)

Section InsertAfterRebalance.

Context {KT : KeyType}.
Hypothesis Hsize : 2 <= kKeySize.

Lemma lenZ_live_keys_ok (n : BPTreeNode) :
  node_ok n -> lenZ (live_keys n) = num_items_ n.
Proof. intros (? & ? & ?). apply lenZ_live_keys. lia. Qed.

Lemma sibling_keys_eq H ok this p i lc ln rc rn sep :
  H !! this = Some p -> H !! lc = Some ln -> H !! rc = Some rn ->
  slot_get (child_slots p) i = Some lc ->
  slot_get (child_slots p) (i + 1) = Some rc ->
  slot_get (key_slots p) i = Some sep ->
  sibling_keys (mkState H ok) this i = live_keys ln ++ [sep] ++ live_keys rn.
Proof.
  intros Ep El Er Hcl Hcr Hsep. unfold sibling_keys, child_keys. cbn [heap].
  now rewrite Ep, Hcl, Hsep, Hcr, El, Er.
Qed.

Section AfterMove.

Variables (this lc rc : ptr) (p ln rn : BPTreeNode) (i dl dr : Z).
Variables (H H' : gmap Z BPTreeNode) (ok ok' : bool) (x : KeyT).

Hypothesis Hl : lc <> nullptr.
Hypothesis Hr : rc <> nullptr.
Hypothesis Htl : this <> lc.
Hypothesis Htr : this <> rc.
Hypothesis Hlr : lc <> rc.
Hypothesis Ep : H !! this = Some p.
Hypothesis El : H !! lc = Some ln.
Hypothesis Er : H !! rc = Some rn.
Hypothesis Hcl : slot_get (child_slots p) i = Some lc.
Hypothesis Hcr : slot_get (child_slots p) (i + 1) = Some rc.
Hypothesis Hokl : node_ok ln.
Hypothesis Hokr : node_ok rn.
Hypothesis Hreb :
  rebalanced (mkState H ok) (mkState H' ok') this p i lc ln rc rn dl dr.

(** The pending key goes into the left child. *)
Lemma insert_left_after idx :
  0 <= idx <= num_items_ ln + dl -> num_items_ ln + dl < node_max ln ->
  (forall a, idx <> 0 ->
     slot_get (sibling_keys (mkState H ok) this i) (idx - 1) = Some a ->
     key_lt a x = true) ->
  (forall b,
     slot_get (sibling_keys (mkState H ok) this i) idx = Some b ->
     key_lt x b = true) ->
  exists s'',
    InsertItem lc idx x (mkState H' ok') = Some (tt, s'') /\
    asserts_ok s'' = ok' /\
    (forall q, q <> lc -> heap s'' !! q = H' !! q) /\
    sibling_keys s'' this i = insert_at idx x (sibling_keys (mkState H ok) this i).
Proof.
  intros Hidx Hroom Hpred Hsucc.
  destruct Hreb as (p' & ln' & rn' & sep & sep' & Hp' & Hl' & Hr' & Hfr & Hnp
                    & Hlp & Hcp & Hkp & Hsep & Hsep' & Hseq & _ & _ & Hnl & Hnr
                    & Hll & Hlr' & Hokl' & Hokr' & Hokp').
  cbn [heap] in Hp', Hl', Hr', Hfr.
  rewrite (sibling_keys_eq H ok this p i lc ln rc rn sep) in * by assumption.
  pose proof (lenZ_live_keys_ok ln Hokl) as Lln.
  pose proof (lenZ_live_keys_ok rn Hokr) as Lrn.
  pose proof (lenZ_live_keys_ok ln' Hokl') as Lln'.
  pose proof (lenZ_live_keys_ok rn' Hokr') as Lrn'.
  pose proof (node_max_same_kind ln' ln Hll) as Hmx.
  rewrite <- Hseq in Hpred, Hsucc |- *.
  destruct (InsertItem_spec Hsize lc idx x ln' H' ok') as (n'' & Hrun & Hn1 & Hn2 & Hn3
                                                   & Hn4 & Hn5);
    auto; try lia.
  { intros a Ha. destruct (Z.eq_dec idx 0) as [->|Hnz].
    - rewrite slot_get_None in Ha by lia. discriminate.
    - apply Hpred; [assumption|]. rewrite <- Ha. get_solve. }
  { intros b Hb. apply Hsucc. rewrite <- Hb.
    pose proof (slot_get_lt _ _ _ Hb). get_solve. }
  eexists. split; [exact Hrun|]. cbn [heap asserts_ok].
  split; [reflexivity|].
  split; [intros q Hq; now rewrite lookup_insert_ne by congruence|].
  unfold sibling_keys, child_keys. cbn [heap].
  rewrite lookup_insert_ne, Hp', Hcp, Hcl, Hsep', Hcr by congruence.
  rewrite lookup_insert_eq, lookup_insert_ne, Hr' by congruence.
  rewrite Hn5. unfold insert_at. arr_ext.
Qed.

(** The pending key goes into the right child. *)
Lemma insert_right_after idx :
  0 <= idx <= num_items_ rn + dr -> num_items_ rn + dr < node_max rn ->
  (forall a, idx <> 0 ->
     slot_get (sibling_keys (mkState H ok) this i)
       (num_items_ ln + dl + 1 + idx - 1) = Some a ->
     key_lt a x = true) ->
  (forall b,
     slot_get (sibling_keys (mkState H ok) this i)
       (num_items_ ln + dl + 1 + idx) = Some b ->
     key_lt x b = true) ->
  exists s'',
    InsertItem rc idx x (mkState H' ok') = Some (tt, s'') /\
    asserts_ok s'' = ok' /\
    (forall q, q <> rc -> heap s'' !! q = H' !! q) /\
    sibling_keys s'' this i =
      insert_at (num_items_ ln + dl + 1 + idx) x
        (sibling_keys (mkState H ok) this i).
Proof.
  intros Hidx Hroom Hpred Hsucc.
  destruct Hreb as (p' & ln' & rn' & sep & sep' & Hp' & Hl' & Hr' & Hfr & Hnp
                    & Hlp & Hcp & Hkp & Hsep & Hsep' & Hseq & _ & _ & Hnl & Hnr
                    & Hll & Hlr' & Hokl' & Hokr' & Hokp').
  cbn [heap] in Hp', Hl', Hr', Hfr.
  rewrite (sibling_keys_eq H ok this p i lc ln rc rn sep) in * by assumption.
  pose proof (lenZ_live_keys_ok ln Hokl) as Lln.
  pose proof (lenZ_live_keys_ok rn Hokr) as Lrn.
  pose proof (lenZ_live_keys_ok ln' Hokl') as Lln'.
  pose proof (lenZ_live_keys_ok rn' Hokr') as Lrn'.
  pose proof (node_max_same_kind rn' rn Hlr') as Hmx.
  assert (Hnl0 : 0 <= num_items_ ln + dl) by (destruct Hokl'; lia).
  rewrite <- Hseq in Hpred, Hsucc |- *.
  destruct (InsertItem_spec Hsize rc idx x rn' H' ok') as (n'' & Hrun & Hn1 & Hn2 & Hn3
                                                   & Hn4 & Hn5);
    auto; try lia.
  { intros a Ha. destruct (Z.eq_dec idx 0) as [->|Hnz].
    - rewrite slot_get_None in Ha by lia. discriminate.
    - apply Hpred; [assumption|]. rewrite <- Ha. get_solve. }
  { intros b Hb. apply Hsucc. rewrite <- Hb.
    pose proof (slot_get_lt _ _ _ Hb). get_solve. }
  eexists. split; [exact Hrun|]. cbn [heap asserts_ok].
  split; [reflexivity|].
  split; [intros q Hq; now rewrite lookup_insert_ne by congruence|].
  unfold sibling_keys, child_keys. cbn [heap].
  rewrite lookup_insert_ne, Hp', Hcp, Hcl, Hsep', Hcr by congruence.
  rewrite lookup_insert_eq, lookup_insert_ne, Hl' by congruence.
  rewrite Hn5. unfold insert_at. arr_ext.
Qed.

End AfterMove.

End InsertAfterRebalance.

(** ** [RebalanceChild] *)

Section RebalanceForInsert.

Context {KT : KeyType}.
Hypothesis Hsize : 2 <= kKeySize.

Lemma to_move_bounds far free :
  0 <= free -> 0 <= rebalance_to_move far free <= free.
Proof.
  intros. unfold rebalance_to_move.
  destruct (Z.ltb_spec 0 free); [|lia].
  destruct far; [lia|].
  destruct (Z.ltb_spec 1 free); [|lia].
  split; [apply Z.div_pos; lia|apply Z.div_le_upper_bound; lia].
Qed.

Lemma to_move_half free :
  rebalance_to_move false free <> 0 ->
  1 < free /\ rebalance_to_move false free = free / 2 /\ 1 <= free / 2 < free.
Proof.
  unfold rebalance_to_move.
  destruct (Z.ltb_spec 0 free); [|congruence].
  destruct (Z.ltb_spec 1 free); [|congruence].
  intros _. split; [lia|]. split; [reflexivity|].
  split; [apply Z.div_le_lower_bound; lia|apply Z.div_lt_upper_bound; lia].
Qed.


Variables (this : ptr) (pos insert_pos : Z) (node left right : ptr).
Variables (p nn ln rn : BPTreeNode) (H : gmap Z BPTreeNode).

Hypothesis Hthis : this <> nullptr.
Hypothesis Ep : H !! this = Some p.
Hypothesis Hokp : node_ok p.
Hypothesis Hinner : leaf_ p = false.
Hypothesis Hpos : 0 <= pos <= num_items_ p.
Hypothesis Hnode : child_at H p pos node nn.
Hypothesis Htn : this <> node.
Hypothesis Hfull : num_items_ nn = node_max nn.
Hypothesis Hip : 0 <= insert_pos <= num_items_ nn.
Hypothesis Hleft :
  0 < pos -> child_at H p (pos - 1) left ln /\ leaf_ ln = leaf_ nn /\
             left <> this /\ left <> node.
Hypothesis Hright :
  pos < num_items_ p -> child_at H p (pos + 1) right rn /\ leaf_ rn = leaf_ nn /\
                        right <> this /\ right <> node.

Let kL := rebalance_to_move (insert_pos =? num_items_ nn)
            (node_max ln - num_items_ ln).
Let kR := rebalance_to_move (insert_pos =? 0) (node_max rn - num_items_ rn).

(** The left sibling takes the items. *)
Lemma RebalanceChild_left ok :
  0 < pos -> kL <> 0 ->
  exists H' ok',
    RebalanceChild this pos insert_pos (mkState H ok) =
      Some (if insert_pos <? kL then (left, num_items_ ln + insert_pos + 1)
            else (node, insert_pos - kL), mkState H' ok') /\
    rebalanced (mkState H ok) (mkState H' ok') this p (pos - 1) left ln node nn
      kL (- kL) /\
    (1 <= num_items_ ln -> ok' = ok).
Proof.
  intros Hpos0 HkL.
  destruct (Hleft Hpos0) as ((Hcl & Hlnz & El & Hokl) & Hkind & Hlt & Hln).
  destruct Hnode as (Hcn & Hnnz & En & Hokn).
  pose proof (node_ok_count Hsize nn Hokn) as Hcntn.
  pose proof (node_ok_count Hsize ln Hokl) as Hcntl.
  pose proof (node_ok_count Hsize p Hokp) as Hcntp.
  pose proof (node_max_same_kind ln nn Hkind) as Hmx.
  pose proof (node_max_bound Hsize ln) as Hmaxl.
  assert (Hfree : 0 <= node_max ln - num_items_ ln) by (destruct Hokl; lia).
  pose proof (to_move_bounds (insert_pos =? num_items_ nn) _ Hfree) as HkLb.
  fold kL in HkLb.
  set (b := if insert_pos =? num_items_ nn
            then node_max ln - num_items_ ln <? num_items_ nn else true).
  destruct (rebalanced_to_left Hsize this (pos - 1) kL left node p ln nn H (ok && b))
    as (H' & Hrun & Hreb); auto; try lia; try congruence.
  { replace (pos - 1 + 1) with pos by lia. exact Hcn. }
  replace (pos - 1 + 1) with pos in Hrun by lia.
  exists H', (ok && b). split; [|split].
  - unfold RebalanceChild. mstep.
    destruct (Z.ltb_spec 0 pos); [|lia].
    wrap_simpl. mstep. mstep. wrap_simpl.
    assert (Hfree0 : 0 < node_max ln - num_items_ ln).
    { destruct (Z.ltb_spec 0 (node_max ln - num_items_ ln)); [assumption|].
      exfalso. apply HkL. unfold kL, rebalance_to_move.
      destruct (Z.ltb_spec 0 (node_max ln - num_items_ ln)); [lia|reflexivity]. }
    destruct (Z.ltb_spec 0 (node_max ln - num_items_ ln)); [|lia].
    mstep.
    (* the number of items to move *)
    rewrite ?bind_assoc_run.
    erewrite bind_run with (a := kL) (s' := mkState H (ok && b)).
    2:{ unfold kL, rebalance_to_move, b.
        destruct (Z.ltb_spec 0 (node_max ln - num_items_ ln)); [|lia].
        destruct (insert_pos =? num_items_ nn).
        - mstep. apply ret_run.
        - rewrite andb_true_r.
          destruct (1 <? node_max ln - num_items_ ln); apply ret_run. }
    cbv beta.
    destruct (Z.eqb_spec kL 0); [contradiction|]. cbn [negb].
    mstep. rewrite (bind_run _ _ _ _ _ Hrun).
    destruct Hreb as (p' & ln' & nn' & sep & sep' & Hp' & Hl' & Hn' & Hfr & _
                      & _ & _ & _ & _ & _ & _ & _ & _ & Hnl & Hnn & Hll & Hln'
                      & _).
    pose proof (node_max_same_kind nn' nn Hln') as Hmx'.
    pose proof (node_max_same_kind ln' ln Hll) as Hmxl'.
    cbn [heap] in Hp', Hl', Hn'.
    massert. rewrite Hmx', Hnn. wrap_simpl.
    replace (node_max nn - (num_items_ nn + - kL) =? kL) with true
      by (symmetry; apply Z.eqb_eq; lia).
    rewrite andb_true_r.
    destruct (Z.ltb_spec insert_pos kL) as [Hlt'|Hge].
    + massert. rewrite Hmxl', Hnl. wrap_simpl.
      assert (Hhalf : kL < node_max ln - num_items_ ln).
      { destruct (Z.eqb_spec insert_pos (num_items_ nn)) as [Heq|Hneq]; [lia|].
        subst kL. destruct (Z.eqb_spec insert_pos (num_items_ nn)); [lia|].
        destruct (to_move_half _ HkL) as (_ & Ehalf & ?).
        rewrite Ehalf in *. lia. }
      destruct (Z.ltb_spec 0 (node_max ln - (num_items_ ln + kL))); [|lia].
      rewrite andb_true_r. wrap_simpl. reflexivity.
    + wrap_simpl. reflexivity.
  - exact Hreb.
  - intros Hl1. unfold b.
    destruct (insert_pos =? num_items_ nn); [|apply andb_true_r].
    destruct (Z.ltb_spec (node_max ln - num_items_ ln) (num_items_ nn)); [|lia].
    apply andb_true_r.
Qed.

(** The left sibling takes nothing: the right sibling is tried. *)
Lemma RebalanceChild_skip_left ok :
  (0 < pos -> kL = 0) ->
  RebalanceChild this pos insert_pos (mkState H ok) =
  RebalanceChild_right this pos insert_pos node 0 (mkState H ok).
Proof.
  intros HkL.
  destruct Hnode as (Hcn & Hnnz & En & Hokn).
  pose proof (node_ok_count Hsize p Hokp) as Hcntp.
  unfold RebalanceChild. mstep.
  destruct (Z.ltb_spec 0 pos) as [Hpos0|]; [|reflexivity].
  destruct (Hleft Hpos0) as ((Hcl & Hlnz & El & Hokl) & Hkind & Hlt & Hln).
  pose proof (node_ok_count Hsize ln Hokl) as Hcntl.
  pose proof (node_max_bound Hsize ln) as Hmaxl.
  assert (Hfree : 0 <= node_max ln - num_items_ ln) by (destruct Hokl; lia).
  specialize (HkL Hpos0). unfold kL, rebalance_to_move in HkL.
  wrap_simpl. mstep. mstep. wrap_simpl.
  destruct (Z.ltb_spec 0 (node_max ln - num_items_ ln)); [|reflexivity].
  mstep.
  destruct (Z.eqb_spec insert_pos (num_items_ nn)); [lia|].
  destruct (Z.ltb_spec 1 (node_max ln - num_items_ ln)).
  - assert (1 <= (node_max ln - num_items_ ln) / 2)
      by (apply Z.div_le_lower_bound; lia). lia.
  - mstep. reflexivity.
Qed.

(** The right sibling takes the items. *)
Lemma RebalanceChild_right_move ok :
  pos < num_items_ p -> kR <> 0 ->
  exists H' ok',
    RebalanceChild_right this pos insert_pos node 0 (mkState H ok) =
      Some (if num_items_ nn - kR <? insert_pos
            then (right, insert_pos - (num_items_ nn - kR + 1))
            else (node, insert_pos), mkState H' ok') /\
    rebalanced (mkState H ok) (mkState H' ok') this p pos node nn right rn
      (- kR) kR /\
    (1 <= num_items_ rn -> ok' = ok).
Proof.
  intros Hpos1 HkR.
  destruct (Hright Hpos1) as ((Hcr & Hrnz & Er & Hokr) & Hkind & Hrt & Hrn).
  destruct Hnode as (Hcn & Hnnz & En & Hokn).
  pose proof (node_ok_count Hsize nn Hokn) as Hcntn.
  pose proof (node_ok_count Hsize rn Hokr) as Hcntr.
  pose proof (node_ok_count Hsize p Hokp) as Hcntp.
  pose proof (node_max_same_kind rn nn Hkind) as Hmx.
  pose proof (node_max_bound Hsize rn) as Hmaxr.
  assert (Hfree : 0 <= node_max rn - num_items_ rn) by (destruct Hokr; lia).
  pose proof (to_move_bounds (insert_pos =? 0) _ Hfree) as HkRb.
  fold kR in HkRb.
  set (b := if insert_pos =? 0
            then node_max rn - num_items_ rn <? num_items_ nn else true).
  destruct (rebalanced_to_right Hsize this pos kR node right p nn rn H (ok && b))
    as (H' & Hrun & Hreb); auto; try lia; try congruence.
  exists H', (ok && b && (0 <? num_items_ rn)). split; [|split].
  - unfold RebalanceChild_right. mstep.
    destruct (Z.ltb_spec pos (num_items_ p)); [|lia].
    wrap_simpl. mstep. mstep. wrap_simpl.
    assert (Hfree0 : 0 < node_max rn - num_items_ rn).
    { destruct (Z.ltb_spec 0 (node_max rn - num_items_ rn)); [assumption|].
      exfalso. apply HkR. unfold kR, rebalance_to_move.
      destruct (Z.ltb_spec 0 (node_max rn - num_items_ rn)); [lia|reflexivity]. }
    destruct (Z.ltb_spec 0 (node_max rn - num_items_ rn)); [|lia].
    rewrite ?bind_assoc_run.
    erewrite bind_run with (a := kR) (s' := mkState H (ok && b)).
    2:{ unfold kR, rebalance_to_move, b.
        destruct (Z.ltb_spec 0 (node_max rn - num_items_ rn)); [|lia].
        destruct (insert_pos =? 0).
        - mstep. mstep. apply ret_run.
        - rewrite andb_true_r.
          destruct (1 <? node_max rn - num_items_ rn); apply ret_run. }
    cbv beta.
    destruct (Z.eqb_spec kR 0); [contradiction|]. cbn [negb].
    rewrite (bind_run _ _ _ _ _ Hrun).
    destruct Hreb as (p' & nn' & rn' & sep & sep' & Hp' & Hn' & Hr' & Hfr & _
                      & _ & _ & _ & _ & _ & _ & _ & _ & Hnn & Hnr & _).
    cbn [heap] in Hp', Hn', Hr'.
    mstep. rewrite Hnn.
    replace (num_items_ nn + - kR) with (num_items_ nn - kR) by lia.
    destruct (Z.ltb_spec (num_items_ nn - kR) insert_pos).
    + wrap_simpl. reflexivity.
    + reflexivity.
  - exact Hreb.
  - intros Hr1. unfold b.
    destruct (Z.ltb_spec 0 (num_items_ rn)); [|lia]. rewrite andb_true_r.
    destruct (insert_pos =? 0); [|apply andb_true_r].
    destruct (Z.ltb_spec (node_max rn - num_items_ rn) (num_items_ nn)); [|lia].
    apply andb_true_r.
Qed.

(** The right sibling takes nothing either: the call fails and the
    state is as it was. *)
Lemma RebalanceChild_right_none ok :
  (pos < num_items_ p -> kR = 0) ->
  RebalanceChild_right this pos insert_pos node 0 (mkState H ok) =
  Some ((nullptr, 0), mkState H ok).
Proof.
  intros HkR.
  destruct Hnode as (Hcn & Hnnz & En & Hokn).
  unfold RebalanceChild_right. mstep.
  destruct (Z.ltb_spec pos (num_items_ p)) as [Hpos1|]; [|reflexivity].
  destruct (Hright Hpos1) as ((Hcr & Hrnz & Er & Hokr) & Hkind & Hrt & Hrn).
  pose proof (node_ok_count Hsize rn Hokr) as Hcntr.
  pose proof (node_ok_count Hsize p Hokp) as Hcntp.
  pose proof (node_max_bound Hsize rn) as Hmaxr.
  assert (Hfree : 0 <= node_max rn - num_items_ rn) by (destruct Hokr; lia).
  specialize (HkR Hpos1). unfold kR, rebalance_to_move in HkR.
  wrap_simpl. mstep. mstep. wrap_simpl.
  destruct (Z.ltb_spec 0 (node_max rn - num_items_ rn)); [|reflexivity].
  destruct (Z.eqb_spec insert_pos 0); [lia|].
  destruct (Z.ltb_spec 1 (node_max rn - num_items_ rn)).
  - assert (1 <= (node_max rn - num_items_ rn) / 2)
      by (apply Z.div_le_lower_bound; lia). lia.
  - mstep. reflexivity.
Qed.


Lemma to_move_not_all far free :
  far = false -> rebalance_to_move far free <> 0 ->
  rebalance_to_move far free < free.
Proof.
  intros -> Hk. destruct (to_move_half _ Hk) as (_ & -> & ?). lia.
Qed.

(** C4: when [RebalanceChild] succeeds, the node and position it returns
    designate the slot the pending key was meant for.  After a move to
    the left sibling the result is the left sibling at its old count
    plus [insert_pos] plus one when [insert_pos] is below the number of
    items moved, and the child at [insert_pos] minus that number
    otherwise; after a move to the right sibling it is the right sibling
    at [insert_pos - (count + 1)] when [insert_pos] exceeds the new
    count of the child, and the child at [insert_pos] otherwise.  For a
    key that respects the order at the original slot (its neighbours
    there being keys of the child or, at the two ends, the separators of
    the parent), [InsertItem] at the returned node and position fails no
    assertion, and the keys of the two siblings with their separator
    read in order are then the old sequence with the key inserted at the
    original slot.  Nodes other than the parent and the two siblings are
    as before. *)
Theorem C4_RebalanceChild_keeps_insert_slot ok x res s' :
  (forall a,
     (if insert_pos =? 0
      then 0 < pos /\ slot_get (key_slots p) (pos - 1) = Some a
      else slot_get (key_slots nn) (insert_pos - 1) = Some a) ->
     key_lt a x = true) ->
  (forall b,
     (if insert_pos =? num_items_ nn
      then pos < num_items_ p /\ slot_get (key_slots p) pos = Some b
      else slot_get (key_slots nn) insert_pos = Some b) ->
     key_lt x b = true) ->
  RebalanceChild this pos insert_pos (mkState H ok) = Some (res, s') ->
  fst res <> nullptr ->
  exists s'',
    InsertItem (fst res) (snd res) x s' = Some (tt, s'') /\
    asserts_ok s'' = asserts_ok s' /\
    (forall q, q <> this -> q <> left -> q <> node -> q <> right ->
               heap s'' !! q = H !! q) /\
    ((0 < pos /\ kL <> 0 /\
      res = (if insert_pos <? kL then (left, num_items_ ln + insert_pos + 1)
             else (node, insert_pos - kL)) /\
      sibling_keys s'' this (pos - 1) =
        insert_at (num_items_ ln + 1 + insert_pos) x
          (sibling_keys (mkState H ok) this (pos - 1)))
     \/
     ((0 < pos -> kL = 0) /\ pos < num_items_ p /\ kR <> 0 /\
      res = (if num_items_ nn - kR <? insert_pos
             then (right, insert_pos - (num_items_ nn - kR + 1))
             else (node, insert_pos)) /\
      sibling_keys s'' this pos =
        insert_at insert_pos x (sibling_keys (mkState H ok) this pos))).
Proof.
  intros Hpred Hsucc Hrun Hres.
  pose proof Hnode as (Hcn & Hnnz & En & Hokn).
  pose proof (node_ok_count Hsize nn Hokn) as Hcntn.
  pose proof (node_ok_count Hsize p Hokp) as Hcntp.
  pose proof (lenZ_live_keys_ok nn Hokn) as Lnn.
  assert (Knn : lenZ (key_slots nn) = node_max nn) by (destruct Hokn as (? & ? & ?); auto).
  assert (Hkeysp : lenZ (key_slots p) = node_max p) by (destruct Hokp as (? & ? & ?); auto).
  assert (Hcapp : num_items_ p <= node_max p) by (destruct Hokp as (? & ? & ?); lia).
  assert (Hdec : (0 < pos /\ kL <> 0) \/ (0 < pos -> kL = 0)).
  { destruct (Z.lt_ge_cases 0 pos); [|right; intros; lia].
    destruct (Z.eq_dec kL 0); [right; auto|left; auto]. }
  destruct Hdec as [[Hp0 HkL0]|Hskip].
  - (* moved to the left sibling *)
    destruct (RebalanceChild_left ok Hp0 HkL0) as (H' & ok' & Hrun' & Hreb & _).
    rewrite Hrun' in Hrun. injection Hrun as <- <-.
    destruct (Hleft Hp0) as ((Hcl & Hlnz & El & Hokl) & Hkind & Hlt & Hln).
    pose proof (node_ok_count Hsize ln Hokl) as Hcntl.
    pose proof (lenZ_live_keys_ok ln Hokl) as Lln.
    assert (Kln : lenZ (key_slots ln) = node_max ln) by (destruct Hokl as (? & ? & ?); auto).
    pose proof (node_max_same_kind ln nn Hkind) as Hmx.
    assert (Hfree : 0 <= node_max ln - num_items_ ln) by (destruct Hokl; lia).
    pose proof (to_move_bounds (insert_pos =? num_items_ nn) _ Hfree) as HkLb.
    fold kL in HkLb.
    destruct (slot_get_is_Some (key_slots p) (pos - 1)) as [sep Hsep]; [lia|].
    assert (HW : sibling_keys (mkState H ok) this (pos - 1) =
                 live_keys ln ++ [sep] ++ live_keys nn).
    { apply (sibling_keys_eq H ok this p (pos - 1) left ln node nn sep); auto.
      now replace (pos - 1 + 1) with pos by lia. }
    assert (Hcn' : slot_get (child_slots p) (pos - 1 + 1) = Some node)
      by (now replace (pos - 1 + 1) with pos by lia).
    assert (Hframe : forall s'' t, (t = left \/ t = node) ->
              (forall q, q <> t -> heap s'' !! q = H' !! q) ->
              forall q, q <> this -> q <> left -> q <> node -> q <> right ->
                        heap s'' !! q = H !! q).
    { intros s'' t Ht Hfr q Hq1 Hq2 Hq3 _.
      destruct Hreb as (? & ? & ? & ? & ? & _ & _ & _ & Hfr' & _).
      rewrite Hfr by (destruct Ht; congruence). now apply Hfr'. }
    destruct (Z.ltb_spec insert_pos kL) as [Hlt'|Hge]; cbn [fst snd] in *.
    + assert (Hne : insert_pos <> num_items_ nn) by lia.
      assert (HkLlt : kL < node_max ln - num_items_ ln).
      { apply to_move_not_all; [now apply Z.eqb_neq|exact HkL0]. }
      destruct (insert_left_after Hsize this left node p ln nn (pos - 1) kL (- kL)
                  H H' ok ok' x) with (idx := num_items_ ln + insert_pos + 1)
        as (s'' & Hins & Hok'' & Hfr & Hseq); auto; try lia; try congruence.
      { intros a _ Ha. rewrite HW in Ha. apply Hpred.
        destruct (Z.eqb_spec insert_pos 0) as [->|Hnz].
        - split; [assumption|]. rewrite <- Ha, Hsep. get_solve.
        - rewrite <- Ha. unfold live_keys. get_solve. }
      { intros b Hb. rewrite HW in Hb. apply Hsucc.
        destruct (Z.eqb_spec insert_pos (num_items_ nn)); [lia|].
        rewrite <- Hb. unfold live_keys. get_solve. }
      exists s''. split; [exact Hins|]. split; [exact Hok''|].
      split; [apply (Hframe s'' left); auto|].
      left. split; [assumption|]. split; [assumption|]. split; [reflexivity|].
      rewrite Hseq. f_equal. lia.
    + destruct (insert_right_after Hsize this left node p ln nn (pos - 1) kL (- kL)
                  H H' ok ok' x) with (idx := insert_pos - kL)
        as (s'' & Hins & Hok'' & Hfr & Hseq); auto; try lia; try congruence.
      { intros a Hnz Ha. rewrite HW in Ha. apply Hpred.
        destruct (Z.eqb_spec insert_pos 0) as [|Hnz']; [lia|].
        rewrite <- Ha. unfold live_keys. get_solve. }
      { intros b Hb. rewrite HW in Hb. apply Hsucc.
        pose proof (slot_get_lt _ _ _ Hb) as Hrange.
        destruct (Z.eqb_spec insert_pos (num_items_ nn)) as [Heq|Hneq].
        - exfalso. revert Hrange. len_facts. lia.
        - rewrite <- Hb. unfold live_keys. get_solve. }
      exists s''. split; [exact Hins|]. split; [exact Hok''|].
      split; [apply (Hframe s'' node); auto|].
      left. split; [assumption|]. split; [assumption|]. split; [reflexivity|].
      rewrite Hseq. f_equal. lia.
  - (* the left sibling took nothing *)
    rewrite (RebalanceChild_skip_left ok Hskip) in Hrun.
    assert (Hdec : (pos < num_items_ p /\ kR <> 0) \/ (pos < num_items_ p -> kR = 0)).
    { destruct (Z.lt_ge_cases pos (num_items_ p)); [|right; intros; lia].
      destruct (Z.eq_dec kR 0); [right; auto|left; auto]. }
    destruct Hdec as [[Hp1 HkR0]|Hnone].
    2:{ rewrite (RebalanceChild_right_none ok Hnone) in Hrun.
        injection Hrun as <- <-. cbn [fst] in Hres. contradiction. }
    destruct (RebalanceChild_right_move ok Hp1 HkR0) as (H' & ok' & Hrun' & Hreb & _).
    rewrite Hrun' in Hrun. injection Hrun as <- <-.
    destruct (Hright Hp1) as ((Hcr & Hrnz & Er & Hokr) & Hkind & Hrt & Hrn).
    pose proof (node_ok_count Hsize rn Hokr) as Hcntr.
    pose proof (lenZ_live_keys_ok rn Hokr) as Lrn.
    assert (Krn : lenZ (key_slots rn) = node_max rn) by (destruct Hokr as (? & ? & ?); auto).
    pose proof (node_max_same_kind rn nn Hkind) as Hmx.
    assert (Hfree : 0 <= node_max rn - num_items_ rn) by (destruct Hokr; lia).
    pose proof (to_move_bounds (insert_pos =? 0) _ Hfree) as HkRb.
    fold kR in HkRb.
    destruct (slot_get_is_Some (key_slots p) pos) as [sep Hsep]; [lia|].
    assert (HW : sibling_keys (mkState H ok) this pos =
                 live_keys nn ++ [sep] ++ live_keys rn).
    { apply (sibling_keys_eq H ok this p pos node nn right rn sep); auto. }
    assert (Hframe : forall s'' t, (t = right \/ t = node) ->
              (forall q, q <> t -> heap s'' !! q = H' !! q) ->
              forall q, q <> this -> q <> left -> q <> node -> q <> right ->
                        heap s'' !! q = H !! q).
    { intros s'' t Ht Hfr q Hq1 _ Hq3 Hq4.
      destruct Hreb as (? & ? & ? & ? & ? & _ & _ & _ & Hfr' & _).
      rewrite Hfr by (destruct Ht; congruence). now apply Hfr'. }
    destruct (Z.ltb_spec (num_items_ nn - kR) insert_pos) as [Hgt|Hle];
      cbn [fst snd] in *.
    + assert (Hne : insert_pos <> 0) by lia.
      assert (HkRlt : kR < node_max rn - num_items_ rn).
      { apply to_move_not_all; [now apply Z.eqb_neq|exact HkR0]. }
      destruct (insert_right_after Hsize this node right p nn rn pos (- kR) kR
                  H H' ok ok' x)
        with (idx := insert_pos - (num_items_ nn - kR + 1))
        as (s'' & Hins & Hok'' & Hfr & Hseq); auto; try lia; try congruence.
      { intros a Hnz Ha. rewrite HW in Ha. apply Hpred.
        destruct (Z.eqb_spec insert_pos 0) as [|Hnz']; [lia|].
        rewrite <- Ha. unfold live_keys. get_solve. }
      { intros b Hb. rewrite HW in Hb. apply Hsucc.
        destruct (Z.eqb_spec insert_pos (num_items_ nn)) as [Heq|Hneq].
        - split; [assumption|]. rewrite <- Hb, Hsep. get_solve.
        - rewrite <- Hb. unfold live_keys. get_solve. }
      exists s''. split; [exact Hins|]. split; [exact Hok''|].
      split; [apply (Hframe s'' right); auto|].
      right. split; [assumption|]. split; [assumption|]. split; [assumption|].
      split; [reflexivity|].
      rewrite Hseq. f_equal. lia.
    + destruct (insert_left_after Hsize this node right p nn rn pos (- kR) kR
                  H H' ok ok' x) with (idx := insert_pos)
        as (s'' & Hins & Hok'' & Hfr & Hseq); auto; try lia; try congruence.
      { intros a Hnz Ha. rewrite HW in Ha. apply Hpred.
        destruct (Z.eqb_spec insert_pos 0) as [|Hnz']; [lia|].
        rewrite <- Ha. unfold live_keys. get_solve. }
      { intros b Hb. rewrite HW in Hb. apply Hsucc.
        destruct (Z.eqb_spec insert_pos (num_items_ nn)) as [Heq|Hneq]; [lia|].
        rewrite <- Hb. unfold live_keys. get_solve. }
      exists s''. split; [exact Hins|]. split; [exact Hok''|].
      split; [apply (Hframe s'' node); auto|].
      right. split; [assumption|]. split; [assumption|]. split; [assumption|].
      split; [reflexivity|]. exact Hseq.
Qed.

End RebalanceForInsert.
(** ** [MergeOrRebalanceChild] *)

Section MergeOrRebalance.

Context {KT : KeyType}.
Hypothesis Hsize : 2 <= kKeySize.

(** The three statements of a merge: read the separator, append the
    right child to the left one, drop the separator from the parent. *)
Lemma merge_children this i lc rc p ln rn H ok :
  this <> nullptr -> lc <> nullptr -> rc <> nullptr ->
  this <> lc -> this <> rc -> lc <> rc ->
  H !! this = Some p -> H !! lc = Some ln -> H !! rc = Some rn ->
  node_ok p -> leaf_ p = false -> 0 <= i < num_items_ p ->
  node_ok ln -> node_ok rn -> leaf_ ln = leaf_ rn ->
  num_items_ ln + 1 + num_items_ rn <= node_max ln ->
  exists sep H1 H',
    Key this i (mkState H ok) = Some (sep, mkState H ok) /\
    MergeFromRight lc sep rc (mkState H ok) = Some (tt, mkState H1 ok) /\
    ShiftLeft this i true (mkState H1 ok) = Some (tt, mkState H' ok) /\
    merged (mkState H ok) (mkState H' ok) this p i lc ln rc rn.
Proof.
  intros Hthis Hlc Hrc Htl Htr Hlr Ep El Er Hokp Hinner Hi Hokl Hokr Hkind Hfit.
  pose proof Hokp as (Hcp & Hkp & Hchp). specialize (Hchp Hinner).
  destruct (slot_get_is_Some (key_slots p) i) as [sep Hsep]; [lia|].
  destruct (MergeFromRight_spec Hsize lc rc sep ln rn H ok)
    as (l' & r' & Hm & Hm1 & Hm2 & Hm3 & Hm4 & Hm5 & Hm6 & Hm7 & Hm8 & Hm9 & Hm10);
    auto.
  destruct (ShiftLeft_step_right Hsize this i p (<[rc := r']> (<[lc := l']> H)) ok)
    as (p' & Hs & Hs1 & Hs2 & Hs3 & Hs4 & Hs5 & Hs6); auto.
  { now rewrite !lookup_insert_ne by congruence. }
  exists sep, (<[rc := r']> (<[lc := l']> H)),
    (<[this := p']> (<[rc := r']> (<[lc := l']> H))).
  split; [now apply (Key_run this i p)|].
  split; [exact Hm|]. split; [exact Hs|].
  exists p', l', r', sep. cbn [heap].
  split; [now rewrite lookup_insert_eq|].
  split; [now rewrite lookup_insert_ne, lookup_insert_ne, lookup_insert_eq by congruence|].
  split; [now rewrite lookup_insert_ne, lookup_insert_eq by congruence|].
  split; [intros q Hq1 Hq2 Hq3; now rewrite !lookup_insert_ne by congruence|].
  split; [exact Hsep|].
  split; [exact Hs1|]. split; [exact Hs2|]. split; [exact Hs5|].
  split; [now apply Hs6|]. split; [exact Hm5|]. split; [exact Hm6|].
  split; [exact Hm1|]. split; [exact Hm2|]. split; [exact Hm7|].
  split; [unfold live_keys; rewrite Hm7; reflexivity|].
  pose proof Hokl as (Hcl & Hkl & Hchl).
  split.
  - unfold node_ok, node_max in *. rewrite Hm2, Hm3, Hm4, Hm1.
    split; [lia|]. split; [exact Hkl|]. exact Hchl.
  - unfold node_ok, node_max in *. rewrite Hs2, Hs3, Hs4, Hs1.
    split; [lia|]. split; [exact Hkp|]. intros _. exact Hchp.
Qed.

Lemma deficit_gap (mx n r : Z) :
  0 <= n -> n < mx / 2 -> mx < n + 1 + r -> r <= mx ->
  n + 2 <= r /\
  1 <= (r - n) / 2 /\ (r - n) / 2 < r /\ (r - n) / 2 <= mx - n.
Proof.
  intros Hn Hlt Hno Hr.
  assert (2 * (mx / 2) <= mx) by (apply Z.mul_div_le; lia).
  split; [lia|].
  split; [apply Z.div_le_lower_bound; lia|].
  split; apply Z.div_lt_upper_bound || apply Z.div_le_upper_bound; lia.
Qed.

Variables (this : ptr) (pos : Z) (node left right : ptr).
Variables (p nn ln rn : BPTreeNode) (H : gmap Z BPTreeNode).

Hypothesis Hthis : this <> nullptr.
Hypothesis Ep : H !! this = Some p.
Hypothesis Hokp : node_ok p.
Hypothesis Hinner : leaf_ p = false.
Hypothesis Hnp : 1 <= num_items_ p.
Hypothesis Hpos : 0 <= pos <= num_items_ p.
Hypothesis Hnode : child_at H p pos node nn.
Hypothesis Htn : this <> node.
Hypothesis Hdef : num_items_ nn < node_min nn.
Hypothesis Hleft :
  0 < pos -> child_at H p (pos - 1) left ln /\ leaf_ ln = leaf_ nn /\
             left <> this /\ left <> node.
Hypothesis Hright :
  pos < num_items_ p -> child_at H p (pos + 1) right rn /\ leaf_ rn = leaf_ nn /\
                        right <> this /\ right <> node.

(** The deficient child is appended to its left sibling. *)
Lemma MergeOrRebalanceChild_merge_left ok :
  0 < pos -> num_items_ ln + 1 + num_items_ nn <= node_max ln ->
  exists H',
    MergeOrRebalanceChild this pos (mkState H ok) = Some (node, mkState H' ok) /\
    merged (mkState H ok) (mkState H' ok) this p (pos - 1) left ln node nn.
Proof.
  intros Hp0 Hfit.
  destruct (Hleft Hp0) as ((Hcl & Hlnz & El & Hokl) & Hkind & Hlt & Hln).
  destruct Hnode as (Hcn & Hnnz & En & Hokn).
  pose proof (node_ok_count Hsize nn Hokn) as Hcntn.
  pose proof (node_ok_count Hsize ln Hokl) as Hcntl.
  pose proof (node_ok_count Hsize p Hokp) as Hcntp.
  pose proof (node_max_bound Hsize ln) as Hmaxl.
  destruct (merge_children this (pos - 1) left node p ln nn H ok)
    as (sep & H1 & H' & Hk & Hm & Hs & Hmerged); auto; try lia; try congruence.
  exists H'. split; [|exact Hmerged].
  unfold MergeOrRebalanceChild. mstep. cbv zeta. mstep. mstep.
  destruct (Z.leb_spec 1 (num_items_ p)); [|lia]. rewrite andb_true_r.
  massert. destruct (Z.ltb_spec (num_items_ nn) (node_min nn)); [|lia].
  rewrite andb_true_r.
  destruct (Z.ltb_spec 0 pos); [|lia].
  wrap_simpl. mstep. mstep. mstep. mstep. wrap_simpl.
  destruct (Z.leb_spec (num_items_ ln + 1 + num_items_ nn) (node_max ln)); [|lia].
  rewrite (bind_run _ _ _ _ _ Hk). rewrite (bind_run _ _ _ _ _ Hm).
  rewrite (bind_run _ _ _ _ _ Hs). reflexivity.
Qed.

(** The left sibling cannot absorb the deficient child. *)
Lemma MergeOrRebalanceChild_skip_left ok :
  (0 < pos -> node_max ln < num_items_ ln + 1 + num_items_ nn) ->
  MergeOrRebalanceChild this pos (mkState H ok) =
  MergeOrRebalanceChild_rest this pos node (if 0 <? pos then left else nullptr)
    (mkState H ok).
Proof.
  intros Hno.
  destruct Hnode as (Hcn & Hnnz & En & Hokn).
  pose proof (node_ok_count Hsize nn Hokn) as Hcntn.
  pose proof (node_ok_count Hsize p Hokp) as Hcntp.
  unfold MergeOrRebalanceChild. mstep. cbv zeta. mstep. mstep.
  destruct (Z.leb_spec 1 (num_items_ p)); [|lia]. rewrite andb_true_r.
  massert. destruct (Z.ltb_spec (num_items_ nn) (node_min nn)); [|lia].
  rewrite andb_true_r.
  destruct (Z.ltb_spec 0 pos) as [Hp0|]; [|reflexivity].
  destruct (Hleft Hp0) as ((Hcl & Hlnz & El & Hokl) & Hkind & Hlt & Hln).
  pose proof (node_ok_count Hsize ln Hokl) as Hcntl.
  specialize (Hno Hp0).
  wrap_simpl. mstep. mstep. mstep. mstep. wrap_simpl.
  destruct (Z.leb_spec (num_items_ ln + 1 + num_items_ nn) (node_max ln)); [lia|].
  reflexivity.
Qed.

(** The right sibling is appended to the deficient child. *)
Lemma MergeOrRebalanceChild_merge_right ok lft :
  pos < num_items_ p -> num_items_ nn + 1 + num_items_ rn <= node_max rn ->
  exists H',
    MergeOrRebalanceChild_rest this pos node lft (mkState H ok) =
      Some (right, mkState H' ok) /\
    merged (mkState H ok) (mkState H' ok) this p pos node nn right rn.
Proof.
  intros Hp1 Hfit.
  destruct (Hright Hp1) as ((Hcr & Hrnz & Er & Hokr) & Hkind & Hrt & Hrn).
  destruct Hnode as (Hcn & Hnnz & En & Hokn).
  pose proof (node_ok_count Hsize nn Hokn) as Hcntn.
  pose proof (node_ok_count Hsize rn Hokr) as Hcntr.
  pose proof (node_ok_count Hsize p Hokp) as Hcntp.
  pose proof (node_max_same_kind rn nn Hkind) as Hmx.
  destruct (merge_children this pos node right p nn rn H ok)
    as (sep & H1 & H' & Hk & Hm & Hs & Hmerged); auto; try lia; try congruence.
  exists H'. split; [|exact Hmerged].
  unfold MergeOrRebalanceChild_rest. mstep.
  destruct (Z.ltb_spec pos (num_items_ p)); [|lia].
  wrap_simpl. mstep. mstep. mstep. mstep. wrap_simpl.
  destruct (Z.leb_spec (num_items_ nn + 1 + num_items_ rn) (node_max rn)); [|lia].
  rewrite (bind_run _ _ _ _ _ Hk). rewrite (bind_run _ _ _ _ _ Hm).
  rewrite (bind_run _ _ _ _ _ Hs). reflexivity.
Qed.

(** Items come over from the right sibling. *)
Lemma MergeOrRebalanceChild_from_right ok lft :
  pos < num_items_ p -> node_max rn < num_items_ nn + 1 + num_items_ rn ->
  exists H',
    MergeOrRebalanceChild_rest this pos node lft (mkState H ok) =
      Some (nullptr, mkState H' ok) /\
    rebalanced (mkState H ok) (mkState H' ok) this p pos node nn right rn
      ((num_items_ rn - num_items_ nn) / 2)
      (- ((num_items_ rn - num_items_ nn) / 2)).
Proof.
  intros Hp1 Hno.
  destruct (Hright Hp1) as ((Hcr & Hrnz & Er & Hokr) & Hkind & Hrt & Hrn).
  destruct Hnode as (Hcn & Hnnz & En & Hokn).
  pose proof (node_ok_count Hsize nn Hokn) as Hcntn.
  pose proof (node_ok_count Hsize rn Hokr) as Hcntr.
  pose proof (node_ok_count Hsize p Hokp) as Hcntp.
  pose proof (node_max_same_kind rn nn Hkind) as Hmx.
  pose proof (node_min_eq Hsize nn) as Hmin.
  assert (Hrmax : num_items_ rn <= node_max rn) by (destruct Hokr; lia).
  destruct (deficit_gap (node_max nn) (num_items_ nn) (num_items_ rn))
    as (Hk0 & Hk1 & Hk2 & Hk3); [lia|lia|lia|lia|].
  destruct (rebalanced_to_left Hsize this pos ((num_items_ rn - num_items_ nn) / 2)
              node right p nn rn H ok)
    as (H' & Hrun & Hreb); auto; try lia; try congruence.
  exists H'. split; [|exact Hreb].
  unfold MergeOrRebalanceChild_rest. mstep.
  destruct (Z.ltb_spec pos (num_items_ p)); [|lia].
  wrap_simpl. mstep. mstep. mstep. mstep. wrap_simpl.
  destruct (Z.leb_spec (num_items_ nn + 1 + num_items_ rn) (node_max rn)); [lia|].
  cbv zeta. wrap_simpl. mstep.
  destruct (Z.ltb_spec ((num_items_ rn - num_items_ nn) / 2) (num_items_ rn)); [|lia].
  rewrite andb_true_r. wrap_simpl.
  rewrite (bind_run _ _ _ _ _ Hrun). reflexivity.
Qed.

(** Items come over from the left sibling; the assertion of
    [RebalanceChildToRight] that its destination holds an item is
    recorded. *)
Lemma MergeOrRebalanceChild_from_left ok :
  pos = num_items_ p -> node_max ln < num_items_ ln + 1 + num_items_ nn ->
  exists H',
    MergeOrRebalanceChild_rest this pos node left (mkState H ok) =
      Some (nullptr, mkState H' (ok && (0 <? num_items_ nn))) /\
    rebalanced (mkState H ok) (mkState H' (ok && (0 <? num_items_ nn)))
      this p (pos - 1) left ln node nn
      (- ((num_items_ ln - num_items_ nn) / 2))
      ((num_items_ ln - num_items_ nn) / 2).
Proof.
  intros Hlast Hno.
  assert (Hp0 : 0 < pos) by lia.
  destruct (Hleft Hp0) as ((Hcl & Hlnz & El & Hokl) & Hkind & Hlt & Hln).
  destruct Hnode as (Hcn & Hnnz & En & Hokn).
  pose proof (node_ok_count Hsize nn Hokn) as Hcntn.
  pose proof (node_ok_count Hsize ln Hokl) as Hcntl.
  pose proof (node_ok_count Hsize p Hokp) as Hcntp.
  pose proof (node_max_same_kind ln nn Hkind) as Hmx.
  pose proof (node_min_eq Hsize nn) as Hmin.
  assert (Hlmax : num_items_ ln <= node_max ln) by (destruct Hokl; lia).
  destruct (deficit_gap (node_max nn) (num_items_ nn) (num_items_ ln))
    as (Hk0 & Hk1 & Hk2 & Hk3); [lia|lia|lia|lia|].
  destruct (rebalanced_to_right Hsize this (pos - 1)
              ((num_items_ ln - num_items_ nn) / 2) left node p ln nn H ok)
    as (H' & Hrun & Hreb); auto; try lia; try congruence.
  { replace (pos - 1 + 1) with pos by lia. exact Hcn. }
  exists H'. split; [|exact Hreb].
  unfold MergeOrRebalanceChild_rest. mstep.
  destruct (Z.ltb_spec pos (num_items_ p)); [lia|].
  mstep. destruct (Z.eqb_spec left nullptr); [contradiction|].
  cbn [negb]. rewrite andb_true_r.
  mstep. mstep. cbv zeta. wrap_simpl. mstep.
  destruct (Z.ltb_spec ((num_items_ ln - num_items_ nn) / 2) (num_items_ ln)); [|lia].
  rewrite andb_true_r. wrap_simpl.
  rewrite (bind_run _ _ _ _ _ Hrun). reflexivity.
Qed.

(** The assertions on [MergeOrRebalanceChild]'s way: the transfer size
    it computes is within the bounds the rebalancing functions assert,
    no slot out of range is touched (the call returns), and the only
    assertion that can fail is the one of [RebalanceChildToRight] that
    its destination holds an item, which fails when items come from the
    left sibling into an empty child. *)
Lemma MergeOrRebalanceChild_asserts ok :
  let n := num_items_ nn in
  let merge_left := (0 <? pos) && (num_items_ ln + 1 + n <=? node_max ln) in
  let from_left := negb merge_left && negb (pos <? num_items_ p) in
  (pos < num_items_ p -> node_max rn < n + 1 + num_items_ rn ->
   1 <= (num_items_ rn - n) / 2 < num_items_ rn /\
   (num_items_ rn - n) / 2 <= node_max nn - n) /\
  (0 < pos -> node_max ln < num_items_ ln + 1 + n ->
   1 <= (num_items_ ln - n) / 2 < num_items_ ln /\
   (num_items_ ln - n) / 2 <= node_max nn - n) /\
  exists res s',
    MergeOrRebalanceChild this pos (mkState H ok) = Some (res, s') /\
    asserts_ok s' = ok && negb (from_left && (n =? 0)).
Proof.
  intros n merge_left from_left. subst n merge_left from_left.
  pose proof Hnode as (Hcn & Hnnz & En & Hokn).
  pose proof (node_ok_count Hsize nn Hokn) as Hcntn.
  pose proof (node_min_eq Hsize nn) as Hmin.
  split; [|split].
  - intros Hp1 Hno.
    destruct (Hright Hp1) as ((Hcr & Hrnz & Er & Hokr) & Hkind & Hrt & Hrn).
    pose proof (node_max_same_kind rn nn Hkind) as Hmx.
    assert (Hrmax : num_items_ rn <= node_max rn) by (destruct Hokr; lia).
    destruct (deficit_gap (node_max nn) (num_items_ nn) (num_items_ rn))
      as (Hk0 & Hk1 & Hk2 & Hk3); [lia|lia|lia|lia|]. lia.
  - intros Hp0 Hno.
    destruct (Hleft Hp0) as ((Hcl & Hlnz & El & Hokl) & Hkind & Hlt & Hln).
    pose proof (node_max_same_kind ln nn Hkind) as Hmx.
    assert (Hlmax : num_items_ ln <= node_max ln) by (destruct Hokl; lia).
    destruct (deficit_gap (node_max nn) (num_items_ nn) (num_items_ ln))
      as (Hk0 & Hk1 & Hk2 & Hk3); [lia|lia|lia|lia|]. lia.
  - destruct (Z.ltb_spec 0 pos) as [Hp0|Hp0]; cbn [andb negb].
    + destruct (Z.leb_spec (num_items_ ln + 1 + num_items_ nn) (node_max ln))
        as [Hfit|Hno]; cbn [andb negb].
      * destruct (MergeOrRebalanceChild_merge_left ok Hp0 Hfit) as (H' & Hrun & _).
        rewrite andb_true_r. eauto.
      * rewrite MergeOrRebalanceChild_skip_left by (intros; lia).
        destruct (Z.ltb_spec 0 pos); [|lia].
        destruct (Z.ltb_spec pos (num_items_ p)) as [Hp1|Hp1]; cbn [andb negb].
        -- rewrite andb_true_r.
           destruct (Hright Hp1) as ((Hcr & Hrnz & Er & Hokr) & Hkind & Hrt & Hrn).
           destruct (Z.le_gt_cases (num_items_ nn + 1 + num_items_ rn) (node_max rn))
             as [Hfit|Hno'].
           ++ destruct (MergeOrRebalanceChild_merge_right ok left Hp1 Hfit)
                as (H' & Hrun & _). eauto.
           ++ destruct (MergeOrRebalanceChild_from_right ok left Hp1)
                as (H' & Hrun & _); [lia|]. eauto.
        -- destruct (MergeOrRebalanceChild_from_left ok) as (H' & Hrun & _);
             [lia|lia|].
           exists nullptr. eexists. split; [exact Hrun|]. cbn [asserts_ok].
           f_equal. destruct (Z.ltb_spec 0 (num_items_ nn));
             destruct (Z.eqb_spec (num_items_ nn) 0); try lia; reflexivity.
    + rewrite MergeOrRebalanceChild_skip_left by (intros; lia).
      destruct (Z.ltb_spec 0 pos); [lia|].
      assert (Hp1 : pos < num_items_ p) by lia.
      destruct (Z.ltb_spec pos (num_items_ p)); [|lia]. cbn [andb negb].
      rewrite andb_true_r.
      destruct (Hright Hp1) as ((Hcr & Hrnz & Er & Hokr) & Hkind & Hrt & Hrn).
      destruct (Z.le_gt_cases (num_items_ nn + 1 + num_items_ rn) (node_max rn))
        as [Hfit|Hno'].
      * destruct (MergeOrRebalanceChild_merge_right ok nullptr Hp1 Hfit)
          as (H' & Hrun & _). eauto.
      * destruct (MergeOrRebalanceChild_from_right ok nullptr Hp1)
          as (H' & Hrun & _); [lia|]. eauto.
Qed.


End MergeOrRebalance.
(** ** [ShiftLeft] without the step to the right *)

Section ShiftLeftChildren.

Context {KT : KeyType}.
Hypothesis Hsize : 2 <= kKeySize.

(** With [child_step_right] false, [ShiftLeft] removes the key at
    [idx]; of the children of an inner node it removes the one at [idx]
    when a key lies above [idx], and the one at [idx + 1] when [idx] is
    the last key: the children are then not moved at all. *)
Lemma ShiftLeft_no_step this idx n H ok :
  this <> nullptr -> H !! this = Some n -> node_ok n ->
  0 <= idx < num_items_ n ->
  exists n',
    ShiftLeft this idx false (mkState H ok) = Some (tt, mkState (<[this := n']> H) ok) /\
    num_items_ n' = num_items_ n - 1 /\
    leaf_ n' = leaf_ n /\
    live_keys n' = delete (Z.to_nat idx) (live_keys n) /\
    (leaf_ n = false ->
     live_children n' =
       delete (Z.to_nat (if idx <? num_items_ n - 1 then idx else idx + 1))
         (live_children n)).
Proof.
  intros Hp E Hok Hidx.
  pose proof (ShiftLeft_run Hsize this idx false n H ok Hp E Hok Hidx) as Hrun.
  cbv zeta in Hrun.
  destruct Hok as (Hc & Hk & Hch).
  eexists; split; [exact Hrun|]. simpl.
  split; [reflexivity|]. split; [reflexivity|].
  destruct (Z.ltb_spec 0 (num_items_ n - idx - 1)) as [Hsh|Hsh]; simpl.
  - split.
    { unfold live_keys; simpl. arr_ext. }
    intros El. rewrite El; simpl. specialize (Hch El).
    destruct (Z.ltb_spec idx (num_items_ n - 1)); [|lia].
    destruct (Z.ltb_spec 0 (num_items_ n - (idx + 0))); [|lia].
    unfold live_children; simpl. arr_ext.
  - split.
    { unfold live_keys; simpl. arr_ext. }
    intros El. specialize (Hch El).
    destruct (Z.ltb_spec idx (num_items_ n - 1)); [lia|].
    unfold live_children; simpl. arr_ext.
Qed.

End ShiftLeftChildren.
(** ** The claims on the sample trees *)

Ltac concrete :=
  vm_compute; repeat split; try reflexivity; try discriminate;
  try (intros; discriminate); try lia.

(** The keys of a sample node are increasing: try the slots one by one. *)
Ltac increasing3 :=
  let i := fresh "i" in let j := fresh "j" in
  let a := fresh "a" in let b := fresh "b" in
  let Hi := fresh in let Hij := fresh in let Hj := fresh in
  let Ha := fresh in let Hb := fresh in
  intros i j a b Hi Hij Hj Ha Hb; cbn in Hj;
  assert (i = 0 \/ i = 1) as [-> | ->] by lia;
  (assert (j = 1 \/ j = 2) as [-> | ->] by lia);
  vm_compute in Ha; vm_compute in Hb;
  injection Ha as <-; injection Hb as <-; unfold cmp_sub; lia.

Lemma cmp_sub_three_way : three_way_order (KT := Key64) cmp_sub.
Proof. unfold three_way_order, cmp_sub. repeat split; intros; lia. Qed.

Lemma C9_holds_for_8_byte_keys :
  kMaxLeafKeys 8 = (256 - 8) / 8 /\ kMaxLeafKeys 8 < 128 /\
  kMaxLeafKeys 8 = 31 /\ kMaxInnerKeys 8 = 15.
Proof.
  destruct (C9_leaf_capacity_fits_count_field 8) as (H1 & H2 & _ & _ & H3 & _ & H4);
    [lia|].
  repeat split; assumption.
Defined.


Lemma Key64_size : 2 <= kKeySize (KeyType := Key64).
Proof. concrete. Qed.

Lemma C3_split_of_full_leaf :
  exists median s',
    Split (KT := Key64) 30 40 tree_to_split = Some (median, s') /\
    asserts_ok s' = true /\
    slot_get [200; 300; 400] 1 = Some median.
Proof.
  destruct (C3_Split_extracts_median (KT := Key64) Key64_size cmp_sub 30 40
              (leaf_node 3 [200; 300; 400]) (leaf_node 0 [0; 0; 0]) tree_to_split)
    as (median & n' & r' & s' & Hrun & _ & _ & _ & Hok & Hmed & _).
  - discriminate.
  - discriminate.
  - discriminate.
  - reflexivity.
  - reflexivity.
  - concrete.
  - concrete.
  - concrete.
  - concrete.
  - increasing3.
  - exists median, s'. split; [exact Hrun|]. split; [exact Hok|exact Hmed].
Defined.

Lemma C6_merge_of_two_leaves :
  exists l' s',
    MergeFromRight (KT := Key64) 20 100 30 tree_roomy = Some (tt, s') /\
    heap s' !! 20 = Some l' /\
    live_keys l' = [1; 100; 200].
Proof.
  destruct (C6_MergeFromRight_appends (KT := Key64) Key64_size 20 30 100
              (leaf_node 1 [1; 0; 0]) (leaf_node 1 [200; 0; 0]) tree_roomy)
    as (l' & r' & s' & Hrun & Hl & _ & _ & _ & Hkeys & _).
  - discriminate.
  - discriminate.
  - discriminate.
  - reflexivity.
  - reflexivity.
  - concrete.
  - concrete.
  - reflexivity.
  - concrete.
  - exists l', s'. split; [exact Hrun|]. split; [exact Hl|exact Hkeys].
Defined.

Lemma C8_one_item_each_way :
  (exists s',
     RebalanceChildToLeft (KT := Key64) 10 1 1 tree_roomy = Some (tt, s') /\
     asserts_ok s' = true) /\
  (exists s',
     RebalanceChildToRight (KT := Key64) 10 0 1 tree_roomy = Some (tt, s') /\
     asserts_ok s' = true).
Proof.
  destruct (C8_rebalance_between_siblings_frame (KT := Key64) Key64_size 10 0 1 20 30
              parent10 (leaf_node 1 [1; 0; 0]) (leaf_node 1 [200; 0; 0]) tree_roomy)
    as (HL & HR).
  - discriminate.
  - discriminate.
  - discriminate.
  - discriminate.
  - discriminate.
  - discriminate.
  - reflexivity.
  - reflexivity.
  - reflexivity.
  - concrete.
  - reflexivity.
  - concrete.
  - reflexivity.
  - reflexivity.
  - concrete.
  - concrete.
  - reflexivity.
  - split.
    + destruct HL as (s' & Hrun & Hok & _); [concrete|concrete|].
      exists s'. split; [exact Hrun|exact Hok].
    + destruct HR as (s' & Hrun & Hok & _); [concrete|concrete|].
      exists s'. split; [exact Hrun|exact Hok].
Defined.



Lemma C4_insert_after_the_move :
  exists res s' s'',
    RebalanceChild (KT := Key64) 10 1 3 tree_full_right = Some (res, s') /\
    InsertItem (KT := Key64) (fst res) (snd res) 500 s' = Some (tt, s'') /\
    asserts_ok s'' = asserts_ok s'.
Proof.
  destruct (RebalanceChild (KT := Key64) 10 1 3 tree_full_right)
    as [[res s']|] eqn:Hrun; [|vm_compute in Hrun; discriminate].
  assert (Hres : fst res <> nullptr).
  { pose proof Hrun as Hv. vm_compute in Hv. injection Hv as <- _. discriminate. }
  destruct (C4_RebalanceChild_keeps_insert_slot (KT := Key64) Key64_size
              10 1 3 30 20 0 parent10 (leaf_node 3 [200; 300; 400])
              (leaf_node 2 [1; 2; 0]) (leaf_node 0 []) (heap tree_full_right))
    with (ok := true) (x := 500 : KeyT (KeyType := Key64)) (res := res) (s' := s')
    as (s'' & Hins & Hok & _).
  - discriminate.
  - reflexivity.
  - concrete.
  - reflexivity.
  - concrete.
  - concrete.
  - discriminate.
  - reflexivity.
  - concrete.
  - intros _. concrete.
  - intros Hlt. vm_compute in Hlt. discriminate.
  - intros a Ha. vm_compute in Ha. injection Ha as <-. reflexivity.
  - intros b Hb. cbn in Hb. destruct Hb as [Hlt _]. vm_compute in Hlt. discriminate.
  - exact Hrun.
  - exact Hres.
  - exists res, s', s''. split; [reflexivity|]. split; [exact Hins|exact Hok].
Defined.


(** C7 on an inner node with one key and the children 20 and 30:
    [ShiftLeft(0, false)] removes the key, but the child left in the
    node is the one of slot 0, not the one of slot 1: the child removed
    is the one at slot 1. *)
Theorem C7_ShiftLeft_last_key_keeps_child :
  live_children parent10 = [20; 30] /\
  exists n',
    ShiftLeft (KT := Key64) 10 0 false (tree_of [(10, parent10)]) =
      Some (tt, tree_of [(10, n')]) /\
    num_items_ n' = 0 /\ live_keys n' = [] /\
    live_children n' = [20] /\
    live_children n' <> delete (Z.to_nat 0) (live_children parent10).
Proof.
  split; [reflexivity|].
  exists (inner_node 0 [100; 0; 0] [20; 30; 0; 0]).
  split; [reflexivity|]. split; [reflexivity|]. split; [reflexivity|].
  split; [reflexivity|]. discriminate.
Qed.

(** C10 on the tree whose last child is empty and whose left sibling is
    full: the preconditions of [MergeOrRebalanceChild] hold and no merge
    is possible, the transfer size is 1, and the call moves one item
    from the left sibling; on the way the assertion of
    [RebalanceChildToRight] that its destination holds an item fails. *)
Theorem C10_empty_child_fails_destination_assert :
  let nn := leaf_node 0 [0; 0; 0] in
  let ln := leaf_node 3 [1; 2; 3] in
  num_items_ nn < node_min nn /\
  node_min ln <= num_items_ ln <= node_max ln /\
  node_max ln < num_items_ ln + 1 + num_items_ nn /\
  (num_items_ ln - num_items_ nn) / 2 = 1 /\
  asserts_ok tree_empty_right = true /\
  exists s',
    MergeOrRebalanceChild (KT := Key64) 10 1 tree_empty_right = Some (nullptr, s') /\
    asserts_ok s' = false /\
    child_keys s' 20 = [1; 2] /\ child_keys s' 30 = [100].
Proof.
  cbv zeta. split; [reflexivity|]. split; [concrete|]. split; [reflexivity|].
  split; [reflexivity|]. split; [reflexivity|].
  eexists. split; [vm_compute; reflexivity|].
  split; [reflexivity|]. split; reflexivity.
Qed.
(** ** The slots lie inside the node's block *)

Section Layout.

Lemma kMaxLeafKeys_fits s : 1 <= s < 65536 ->
  kMaxLeafKeys s = 248 / s /\ 0 <= kMaxLeafKeys s /\ s * kMaxLeafKeys s <= 248.
Proof.
  intros Hs. unfold kMaxLeafKeys, kBPNodeSize, kKeyOffset, sizeof_uint64.
  rewrite (u16_small 256), (u16_small 8) by lia.
  replace (256 - 8) with 248 by lia.
  assert (0 <= 248 / s) by (apply Z.div_pos; lia).
  assert (248 / s <= 248) by (apply Z.div_le_upper_bound; nia).
  rewrite u16_small by lia.
  split; [reflexivity|]. split; [assumption|]. apply Z.mul_div_le. lia.
Qed.

Lemma kMaxInnerKeys_fits s : 1 <= s < 65536 ->
  kMaxInnerKeys s = 240 / (s + 8) /\ 0 <= kMaxInnerKeys s /\
  (s + 8) * kMaxInnerKeys s <= 240.
Proof.
  intros Hs. unfold kMaxInnerKeys, kBPNodeSize, kKeyOffset, sizeof_uint64, sizeof_ptr.
  rewrite (u16_small 256), (u16_small 8) by lia.
  replace (256 - 8 - 8) with 240 by lia.
  assert (0 <= 240 / (s + 8)) by (apply Z.div_pos; lia).
  assert (240 / (s + 8) <= 240) by (apply Z.div_le_upper_bound; nia).
  rewrite u16_small by lia.
  split; [reflexivity|]. split; [assumption|]. apply Z.mul_div_le. lia.
Qed.

(** X1: For every key size, the key slots of a leaf and the key and child
    slots of an inner node lie inside the block of [kBPNodeSize] bytes,
    after the 8 bytes of the header; key slots do not overlap one
    another, the child slots start where the inner key slots end, and an
    inner node never holds more keys than a leaf.  For a key size that
    is a multiple of 8 the child slots are 8-byte aligned. *)
Theorem slots_inside_block (s : Z) :
  1 <= s < 65536 ->
  (forall i, 0 <= i < kMaxLeafKeys s ->
     kKeyOffset <= KeyPtr s i /\ KeyPtr s i + s <= kBPNodeSize) /\
  (forall i j, 0 <= i -> i < j -> j < kMaxLeafKeys s ->
     KeyPtr s i + s <= KeyPtr s j) /\
  (forall i, 0 <= i < kMaxInnerKeys s -> KeyPtr s i + s <= InnerKeysEnd s) /\
  (forall i, 0 <= i <= kMaxInnerKeys s ->
     InnerKeysEnd s <= Children_at s i /\
     Children_at s i + sizeof_ptr <= kBPNodeSize) /\
  kMaxInnerKeys s <= kMaxLeafKeys s /\
  (s mod 8 = 0 -> InnerKeysEnd s mod 8 = 0).
Proof.
  intros Hs.
  destruct (kMaxLeafKeys_fits s Hs) as (EL & HL0 & HL).
  destruct (kMaxInnerKeys_fits s Hs) as (EI & HI0 & HI).
  assert (Hoff : kKeyOffset = 8) by reflexivity.
  assert (Hsz : kBPNodeSize = 256) by reflexivity.
  assert (Hp : sizeof_ptr = 8) by reflexivity.
  assert (Hend : InnerKeysEnd s = 8 + s * kMaxInnerKeys s).
  { unfold InnerKeysEnd. rewrite Hoff, to_int_small by nia. reflexivity. }
  assert (Hkey : forall i, 0 <= i < kMaxLeafKeys s -> KeyPtr s i = 8 + s * i).
  { intros i Hi. unfold KeyPtr. rewrite Hoff, u32_small by nia. reflexivity. }
  assert (Hle : kMaxInnerKeys s <= kMaxLeafKeys s).
  { rewrite EL, EI. apply Z.div_le_lower_bound; [lia|].
    assert (240 / (s + 8) = kMaxInnerKeys s) by (symmetry; exact EI).
    rewrite H. nia. }
  split; [|split; [|split; [|split; [|split]]]].
  - intros i Hi. rewrite (Hkey i Hi), Hoff, Hsz. nia.
  - intros i j Hi Hij Hj. rewrite (Hkey i), (Hkey j) by lia. nia.
  - intros i Hi. rewrite (Hkey i) by lia. rewrite Hend. nia.
  - intros i Hi. unfold Children_at. rewrite Hend, Hp, Hsz. nia.
  - exact Hle.
  - intros Hmod. rewrite Hend.
    apply Z.mod_divide in Hmod; [|lia]. destruct Hmod as [q Hq].
    generalize (kMaxInnerKeys s). intros k. rewrite Hq.
    replace (8 + q * 8 * k) with ((1 + q * k) * 8) by lia.
    apply Z.mod_mul. lia.
Qed.

Lemma slots_inside_block_16 :
  KeyPtr 16 14 + 16 <= kBPNodeSize /\
  Children_at 16 10 + sizeof_ptr <= kBPNodeSize.
Proof.
  destruct (slots_inside_block 16) as (HL & _ & _ & HC & _); [lia|].
  split.
  - apply (HL 14). vm_compute. split; [discriminate|reflexivity].
  - apply (HC 10). vm_compute. split; discriminate.
Defined.

End Layout.
(** ** [BPTreePath] *)

Section PathProperties.

Import BPTreePath.

Context {KT : KeyType}.
Implicit Types (path : BPTreePath.t) (H : gmap Z BPTreeNode) (ok : bool).

Lemma Push_run path n p H ok :
  lenZ (record_ path) = kMaxDepth -> 0 <= depth_ path < kMaxDepth ->
  Push path n p (mkState H ok) =
  Some (mkPath (upd (record_ path) (depth_ path) (mkRecord n p)) (depth_ path + 1),
        mkState H ok).
Proof.
  intros Hlen Hd. unfold kMaxDepth in *. unfold Push.
  rewrite (bind_run _ _ _ _ _ (assert_run _ _ _)).
  destruct (Z.ltb_spec (depth_ path) kMaxDepth); [|unfold kMaxDepth in *; lia].
  rewrite andb_true_r. unfold bind, lift, ret.
  rewrite slot_set_Some by lia. rewrite u32_small by lia. reflexivity.
Qed.

Lemma Last_run path r H ok :
  0 < depth_ path < 4294967296 ->
  slot_get (record_ path) (depth_ path - 1) = Some r ->
  Last path (mkState H ok) = Some ((node r, pos r), mkState H ok).
Proof.
  intros Hd Hr. unfold Last.
  rewrite (bind_run _ _ _ _ _ (assert_run _ _ _)).
  destruct (Z.ltb_spec 0 (depth_ path)); [|lia].
  rewrite andb_true_r. unfold bind, lift, ret.
  rewrite u32_small by lia. rewrite Hr. reflexivity.
Qed.

(** X2: A record pushed on a path that is not full is what [Last] returns
    next, it is the entry [Node] and [Position] return at the old
    depth, the entries below it are as before, and [Pop] takes it off
    again: the depth and every entry are then as before the push.  No
    assertion fails. *)
Theorem Push_then_Last_then_Pop path n p s :
  lenZ (record_ path) = kMaxDepth -> 0 <= depth_ path < kMaxDepth ->
  exists path' path'',
    Push path n p s = Some (path', s) /\
    Depth path' = Depth path + 1 /\
    Last path' s = Some ((n, p), s) /\
    Node path' (Depth path) s = Some (n, s) /\
    Position path' (Depth path) s = Some (p, s) /\
    Pop path' s = Some (path'', s) /\
    Depth path'' = Depth path /\
    (forall i, 0 <= i < Depth path ->
       Node path' i s = Node path i s /\ Position path' i s = Position path i s /\
       Node path'' i s = Node path i s /\ Position path'' i s = Position path i s).
Proof.
  intros Hlen Hd. destruct s as [H ok]. unfold Depth.
  pose proof Hd as Hd'. unfold kMaxDepth in Hd', Hlen.
  exists (mkPath (upd (record_ path) (depth_ path) (mkRecord n p)) (depth_ path + 1)),
         (mkPath (upd (record_ path) (depth_ path) (mkRecord n p)) (depth_ path)).
  split; [now apply Push_run|]. split; [reflexivity|].
  assert (Hget : slot_get (upd (record_ path) (depth_ path) (mkRecord n p))
                   (depth_ path) = Some (mkRecord n p)).
  { rewrite slot_get_upd by lia. now rewrite Z.eqb_refl. }
  split.
  { apply (Last_run _ (mkRecord n p)); cbn [depth_ record_]; [lia|].
    now replace (depth_ path + 1 - 1) with (depth_ path) by lia. }
  split.
  { unfold Node. cbn [depth_ record_].
    rewrite (bind_run _ _ _ _ _ (assert_run _ _ _)).
    destruct (Z.ltb_spec (depth_ path) (depth_ path + 1)); [|lia].
    rewrite andb_true_r. unfold bind, lift, ret. now rewrite Hget. }
  split.
  { unfold Position. cbn [depth_ record_].
    rewrite (bind_run _ _ _ _ _ (assert_run _ _ _)).
    destruct (Z.ltb_spec (depth_ path) (depth_ path + 1)); [|lia].
    rewrite andb_true_r. unfold bind, lift, ret. now rewrite Hget. }
  split.
  { unfold Pop. cbn [depth_ record_].
    rewrite (bind_run _ _ _ _ _ (assert_run _ _ _)).
    destruct (Z.ltb_spec 0 (depth_ path + 1)); [|lia].
    rewrite andb_true_r. unfold ret. rewrite u32_small by lia.
    now replace (depth_ path + 1 - 1) with (depth_ path) by lia. }
  split; [reflexivity|].
  intros i Hi.
  assert (Hget' : slot_get (upd (record_ path) (depth_ path) (mkRecord n p)) i =
                  slot_get (record_ path) i).
  { rewrite slot_get_upd by lia. destruct (Z.eqb_spec i (depth_ path)); [lia|reflexivity]. }
  unfold Node, Position, bind, assert, lift, ret. cbn [depth_ record_ heap asserts_ok].
  rewrite Hget'.
  destruct (Z.ltb_spec i (depth_ path)); [|lia].
  destruct (Z.ltb_spec i (depth_ path + 1)); [|lia].
  repeat split; reflexivity.
Qed.

(** X3: [Push] on a full path and [Last] on an empty one access [record_]
    outside the array; [Pop] on an empty path fails its assertion and
    wraps the depth around. *)
Theorem path_misuse path n p s :
  lenZ (record_ path) = kMaxDepth ->
  (depth_ path = kMaxDepth -> Push path n p s = None) /\
  (depth_ path = 0 ->
   Last path s = None /\
   Pop path s = Some (mkPath (record_ path) 4294967295,
                      mkState (heap s) false)).
Proof.
  intros Hlen. unfold kMaxDepth in *. split.
  - intros Hd. unfold Push, bind, assert, lift, slot_set.
    rewrite Hd, Hlen. reflexivity.
  - intros Hd. split.
    + unfold Last, bind, assert, lift. rewrite Hd.
      rewrite slot_get_None; [reflexivity|]. right. rewrite Hlen. vm_compute. discriminate.
    + unfold Pop, bind, assert, ret. rewrite Hd. cbn [heap asserts_ok].
      rewrite andb_false_r. reflexivity.
Qed.

Lemma blitZ_push (rs : list Record_) d r l :
  0 <= d -> d + 1 + lenZ l <= lenZ rs ->
  blitZ (upd rs d r) (d + 1) l = blitZ rs d (r :: l).
Proof. intros. arr_ext. Qed.

Lemma blitZ_one (rs : list Record_) d r :
  0 <= d < lenZ rs -> upd rs d r = blitZ rs d [r].
Proof. intros. arr_ext. Qed.

Lemma right_spine_nonempty H last l : right_spine H last l -> 1 <= lenZ l.
Proof.
  intros Hs. destruct Hs; rewrite lenZ_cons; [rewrite lenZ_nil; lia|].
  match goal with |- 1 <= 1 + lenZ ?x => pose proof (lenZ_nonneg x) end. lia.
Qed.

Lemma DigRight_loop_spine H ok last l :
  right_spine H last l ->
  forall path fuel,
    lenZ (record_ path) = kMaxDepth -> 0 <= depth_ path ->
    depth_ path + lenZ l <= kMaxDepth -> lenZ l <= Z.of_nat fuel ->
    DigRight_loop fuel path last (mkState H ok) =
    Some (mkPath (blitZ (record_ path) (depth_ path) l) (depth_ path + lenZ l),
          mkState H ok).
Proof.
  induction 1 as [last n child cn Hl El Hc Hcn Ec Hleaf
                 |last n child cn l Hl El Hc Hcn Ec Hleaf Hs IH];
    intros path fuel Hlen Hd Hfit Hfuel.
  - rewrite lenZ_cons, lenZ_nil in *.
    destruct fuel as [|fuel]; [simpl in Hfuel; lia|]. cbn [DigRight_loop].
    mstep. mstep. mstep.
    rewrite (bind_run _ _ _ _ _ (Push_run path child (num_items_ n) H ok Hlen ltac:(lia))).
    cbv zeta. mstep. rewrite Hleaf. cbn [negb]. unfold ret.
    rewrite <- blitZ_one by (unfold kMaxDepth in *; lia).
    now replace (depth_ path + (1 + 0)) with (depth_ path + 1) by lia.
  - pose proof (right_spine_nonempty _ _ _ Hs) as Hl1.
    rewrite lenZ_cons in *.
    destruct fuel as [|fuel]; [simpl in Hfuel; lia|]. cbn [DigRight_loop].
    mstep. mstep. mstep.
    rewrite (bind_run _ _ _ _ _ (Push_run path child (num_items_ n) H ok Hlen ltac:(lia))).
    cbv zeta. mstep. rewrite Hleaf. cbn [negb].
    rewrite IH; cbn [record_ depth_]; try lia.
    + rewrite blitZ_push by (unfold kMaxDepth in *; lia).
      now replace (depth_ path + 1 + lenZ l) with (depth_ path + (1 + lenZ l)) by lia.
    + rewrite lenZ_upd. exact Hlen.
Qed.

Lemma DigRight_loop_overflow H ok last l :
  right_spine H last l ->
  forall path fuel,
    lenZ (record_ path) = kMaxDepth -> 0 <= depth_ path <= kMaxDepth ->
    kMaxDepth < depth_ path + lenZ l ->
    DigRight_loop fuel path last (mkState H ok) = None.
Proof.
  induction 1 as [last n child cn Hl El Hc Hcn Ec Hleaf
                 |last n child cn l Hl El Hc Hcn Ec Hleaf Hs IH];
    intros path fuel Hlen Hd Hover.
  - rewrite lenZ_cons, lenZ_nil in *.
    destruct fuel as [|fuel]; [reflexivity|]. cbn [DigRight_loop].
    mstep. mstep. mstep.
    assert (Hfull : depth_ path = kMaxDepth) by lia.
    unfold bind at 1. unfold Push, bind, assert, lift, slot_set.
    rewrite Hfull, Hlen. reflexivity.
  - rewrite lenZ_cons in *.
    destruct fuel as [|fuel]; [reflexivity|]. cbn [DigRight_loop].
    mstep. mstep. mstep.
    destruct (Z.eq_dec (depth_ path) kMaxDepth) as [Hfull|Hnot].
    + unfold bind at 1. unfold Push, bind, assert, lift, slot_set.
      rewrite Hfull, Hlen. reflexivity.
    + rewrite (bind_run _ _ _ _ _ (Push_run path child (num_items_ n) H ok Hlen ltac:(lia))).
      cbv zeta. mstep. rewrite Hleaf. cbn [negb].
      apply IH; cbn [record_ depth_]; try lia.
      rewrite lenZ_upd. exact Hlen.
Qed.

(** X4: [DigRight] on a path that ends at an inner node extends it along
    the last child of every node down to a leaf, with one record per
    level holding the child and its position, the count of its parent.
    If the records fit in the array, they are appended, the depth grows
    by their number and no assertion fails; if they do not fit, the
    call writes past the end of the array. *)
Theorem DigRight_follows_last_children path last lp ln l H ok :
  lenZ (record_ path) = kMaxDepth -> 0 < depth_ path <= kMaxDepth ->
  slot_get (record_ path) (depth_ path - 1) = Some (mkRecord last lp) ->
  last <> nullptr -> H !! last = Some ln -> leaf_ ln = false ->
  right_spine H last l ->
  (depth_ path + lenZ l <= kMaxDepth ->
   DigRight path (mkState H ok) =
   Some (mkPath (blitZ (record_ path) (depth_ path) l) (depth_ path + lenZ l),
         mkState H ok)) /\
  (kMaxDepth < depth_ path + lenZ l -> DigRight path (mkState H ok) = None).
Proof.
  intros Hlen Hd Hlast Hl El Hinner Hs.
  pose proof (right_spine_nonempty _ _ _ Hs) as Hl1.
  assert (Hd' : 0 < depth_ path < 4294967296) by (unfold kMaxDepth in *; lia).
  pose proof (Last_run path _ H ok Hd' Hlast) as HL. cbn [node pos] in HL.
  assert (Hpre : DigRight path (mkState H ok) =
                 DigRight_loop (Z.to_nat (kMaxDepth + 1)) path last (mkState H ok)).
  { unfold DigRight.
    erewrite bind_run.
    2:{ eapply assertM_run. destruct (Z.ltb_spec 0 (depth_ path)); [|lia].
        rewrite (bind_run _ _ _ _ _ HL). cbn [fst]. mstep. apply ret_run. }
    cbv beta. rewrite Hinner. cbn [negb]. rewrite andb_true_r.
    rewrite (bind_run _ _ _ _ _ HL). reflexivity. }
  rewrite Hpre. split.
  - intros Hfit. apply DigRight_loop_spine; try assumption; lia.
  - intros Hover. apply (DigRight_loop_overflow H ok last l Hs); try assumption; lia.
Qed.

End PathProperties.
(** ** Increasing sequences of keys *)

Section Sequences.

Context {KT : KeyType}.
Variable cmp_op : KeyT -> KeyT -> Z.

Lemma keys_increasing_seq (n : BPTreeNode) :
  0 <= num_items_ n <= lenZ (key_slots n) ->
  (keys_increasing cmp_op n <-> seq_increasing cmp_op (live_keys n)).
Proof.
  intros Hn. unfold keys_increasing, seq_increasing, live_keys. split.
  - intros Hinc i j a b Hi Hij Ha Hb.
    rewrite slot_get_takeZ in Ha, Hb.
    destruct (Z.ltb_spec j (num_items_ n)); [|discriminate].
    destruct (Z.ltb_spec i (num_items_ n)); [|discriminate].
    apply (Hinc i j a b); assumption.
  - intros Hinc i j a b Hi Hij Hj Ha Hb.
    apply (Hinc i j a b Hi Hij); rewrite slot_get_takeZ.
    + destruct (Z.ltb_spec i (num_items_ n)); [exact Ha|lia].
    + destruct (Z.ltb_spec j (num_items_ n)); [exact Hb|lia].
Qed.

Lemma slot_get_insert_at o x (w : list KeyT) j :
  0 <= o <= lenZ w ->
  slot_get (insert_at o x w) j =
  if j <? o then slot_get w j else if j =? o then Some x else slot_get w (j - 1).
Proof.
  intros Ho. unfold insert_at.
  destruct (Z.ltb_spec j o); [get_solve|].
  destruct (Z.eqb_spec j o); get_solve.
Qed.

Lemma lenZ_insert_at o x (w : list KeyT) :
  0 <= o <= lenZ w -> lenZ (insert_at o x w) = lenZ w + 1.
Proof. intros Ho. unfold insert_at. len_lia. Qed.

(** The parts of an increasing sequence around one of its keys. *)
Lemma seq_increasing_split (u v : list KeyT) sep :
  seq_increasing cmp_op (u ++ [sep] ++ v) ->
  seq_increasing cmp_op u /\ seq_increasing cmp_op v /\
  (forall i a, slot_get u i = Some a -> cmp_op a sep < 0) /\
  (forall j b, slot_get v j = Some b -> cmp_op sep b < 0).
Proof.
  intros Hinc. unfold seq_increasing in *.
  pose proof (lenZ_nonneg u) as Hu.
  split; [|split; [|split]].
  - intros i j a b Hi Hij Ha Hb.
    pose proof (slot_get_lt _ _ _ Ha). pose proof (slot_get_lt _ _ _ Hb).
    apply (Hinc i j a b Hi Hij); rewrite slot_get_app.
    + destruct (Z.ltb_spec i (lenZ u)); [exact Ha|lia].
    + destruct (Z.ltb_spec j (lenZ u)); [exact Hb|lia].
  - intros i j a b Hi Hij Ha Hb.
    apply (Hinc (lenZ u + 1 + i) (lenZ u + 1 + j) a b); try lia.
    + rewrite <- Ha. get_solve.
    + rewrite <- Hb. get_solve.
  - intros i a Ha. pose proof (slot_get_lt _ _ _ Ha).
    apply (Hinc i (lenZ u) a sep); try lia.
    + rewrite <- Ha. get_solve.
    + get_solve.
  - intros j b Hb. pose proof (slot_get_lt _ _ _ Hb).
    apply (Hinc (lenZ u) (lenZ u + 1 + j) sep b); try lia.
    + get_solve.
    + rewrite <- Hb. get_solve.
Qed.

Hypothesis Hcmp : three_way_order cmp_op.

Lemma cmp_trans a b c : cmp_op a b < 0 -> cmp_op b c < 0 -> cmp_op a c < 0.
Proof. destruct Hcmp as (_ & Htrans & _). apply Htrans. Qed.


(** Inserting a key between its neighbours keeps a sequence
    increasing. *)
Lemma seq_increasing_insert o x (w : list KeyT) :
  0 <= o <= lenZ w ->
  seq_increasing cmp_op w ->
  (forall a, slot_get w (o - 1) = Some a -> cmp_op a x < 0) ->
  (forall b, slot_get w o = Some b -> cmp_op x b < 0) ->
  seq_increasing cmp_op (insert_at o x w).
Proof.
  intros Ho Hinc Hpred Hsucc i j a b Hi Hij Ha Hb.
  rewrite slot_get_insert_at in Ha, Hb by assumption.
  destruct (Z.ltb_spec i o) as [Hio|Hio].
  - destruct (Z.ltb_spec j o) as [Hjo|Hjo]; [now apply (Hinc i j)|].
    assert (Hax : cmp_op a x < 0).
    { destruct (Z.eq_dec i (o - 1)) as [->|Hne]; [now apply Hpred|].
      destruct (slot_get_is_Some w (o - 1)) as [c Hc]; [lia|].
      apply (cmp_trans a c x); [apply (Hinc i (o - 1)); auto; lia|now apply Hpred]. }
    destruct (Z.eqb_spec j o) as [Hjeq|Hjne]; [now injection Hb as <-|].
    pose proof (slot_get_lt _ _ _ Hb).
    destruct (Z.eq_dec (j - 1) o) as [Heq|Hne].
    + apply (cmp_trans a x b); [exact Hax|]. apply Hsucc. now rewrite <- Heq.
    + apply (Hinc i (j - 1)); auto; lia.
  - destruct (Z.ltb_spec j o); [lia|].
    destruct (Z.eqb_spec j o); [lia|].
    pose proof (slot_get_lt _ _ _ Hb).
    destruct (Z.eqb_spec i o) as [Hieq|Hine].
    + injection Ha as <-.
      destruct (Z.eq_dec (j - 1) o) as [Heq|Hne].
      * apply Hsucc. now rewrite <- Heq.
      * destruct (slot_get_is_Some w o) as [c Hc]; [lia|].
        apply (cmp_trans x c b); [now apply Hsucc|].
        apply (Hinc o (j - 1)); auto; lia.
    + apply (Hinc (i - 1) (j - 1)); auto; lia.
Qed.

(** Two increasing sequences around a key between them. *)
Lemma seq_increasing_join (u v : list KeyT) sep :
  seq_increasing cmp_op u -> seq_increasing cmp_op v ->
  (forall i a, slot_get u i = Some a -> cmp_op a sep < 0) ->
  (forall j b, slot_get v j = Some b -> cmp_op sep b < 0) ->
  seq_increasing cmp_op (u ++ [sep] ++ v).
Proof.
  intros Hu Hv Hus Hsv i j a b Hi Hij Ha Hb.
  change ([sep] ++ v) with (sep :: v) in Ha, Hb.
  rewrite slot_get_app in Ha, Hb.
  pose proof (lenZ_nonneg u) as Hlen.
  destruct (Z.ltb_spec i (lenZ u)) as [Hiu|Hiu].
  - destruct (Z.ltb_spec j (lenZ u)) as [Hju|Hju]; [now apply (Hu i j)|].
    rewrite slot_get_cons in Hb.
    destruct (Z.eqb_spec (j - lenZ u) 0).
    + injection Hb as <-. now apply (Hus i).
    + apply (cmp_trans a sep b); [now apply (Hus i)|].
      now apply (Hsv (j - lenZ u - 1)).
  - destruct (Z.ltb_spec j (lenZ u)); [lia|].
    rewrite slot_get_cons in Ha, Hb.
    destruct (Z.eqb_spec (j - lenZ u) 0); [lia|].
    destruct (Z.eqb_spec (i - lenZ u) 0).
    + injection Ha as <-. now apply (Hsv (j - lenZ u - 1)).
    + apply (Hv (i - lenZ u - 1) (j - lenZ u - 1)); auto; lia.
Qed.

End Sequences.
(** ** Inserting into a node *)

Section InsertRuns.

Context {KT : KeyType}.
Hypothesis Hsize : 2 <= kKeySize.
Implicit Types (H : gmap Z BPTreeNode) (ok : bool) (n : BPTreeNode).

Lemma InsertItem_run this idx x n H ok :
  this <> nullptr -> H !! this = Some n -> node_ok n ->
  num_items_ n < node_max n -> 0 <= idx <= num_items_ n ->
  (forall a, slot_get (live_keys n) (idx - 1) = Some a -> key_lt a x = true) ->
  (forall b, slot_get (live_keys n) idx = Some b -> key_lt x b = true) ->
  InsertItem this idx x (mkState H ok) =
  Some (tt, mkState (<[this := inserted n idx x]> H) ok).
Proof.
  intros Hp E Hok Hroom Hidx Hpred Hsucc.
  pose proof (ShiftRight_run Hsize this idx n H ok Hp E Hok Hroom Hidx) as Hshift.
  pose proof (node_ok_count Hsize n Hok) as Hcnt.
  destruct Hok as (Hc & Hk & Hch).
  pose proof (node_max_bound Hsize n) as Hmax.
  unfold live_keys in Hpred, Hsucc.
  unfold InsertItem. mstep. mstep.
  destruct (Z.leb_spec idx (num_items_ n)); [|lia]. rewrite andb_true_r.
  rewrite ?bind_assoc_run.
  erewrite bind_run with (a := tt) (s' := mkState H ok).
  2:{ destruct (Z.eqb_spec idx 0) as [->|Hnz].
      - erewrite assertM_run by apply ret_run. now rewrite andb_true_r.
      - destruct (slot_get_is_Some (key_slots n) (idx - 1)) as [a Ha]; [lia|].
        erewrite assertM_run.
        2:{ wrap_simpl. erewrite bind_run by (eapply Key_run; eauto).
            apply ret_run. }
        rewrite Hpred; [now rewrite andb_true_r|].
        get_solve. }
  erewrite bind_run with (a := tt) (s' := mkState H ok).
  2:{ destruct (Z.eqb_spec idx (num_items_ n)) as [->|Hnz].
      - erewrite assertM_run by apply ret_run. now rewrite andb_true_r.
      - destruct (slot_get_is_Some (key_slots n) idx) as [b Hb]; [lia|].
        erewrite assertM_run.
        2:{ erewrite bind_run by (eapply Key_run; eauto). apply ret_run. }
        rewrite Hsucc; [now rewrite andb_true_r|].
        get_solve. }
  rewrite (bind_run _ _ _ _ _ Hshift).
  erewrite SetKey_run by
    (first [assumption | apply lookup_insert_eq
           | cbn [num_items_ leaf_ key_slots child_slots];
             destruct (0 <? num_items_ n - idx); len_lia]).
  rewrite insert_insert_eq. reflexivity.
Qed.

Lemma inserted_keys n idx x :
  node_ok n -> num_items_ n < node_max n -> 0 <= idx <= num_items_ n ->
  live_keys (inserted n idx x) = insert_at idx x (live_keys n).
Proof.
  intros (Hc & Hk & Hch) Hroom Hidx.
  unfold live_keys, inserted, insert_at.
  cbn [num_items_ leaf_ key_slots child_slots].
  destruct (Z.ltb_spec 0 (num_items_ n - idx)); arr_ext.
Qed.

Lemma inserted_ok n idx x :
  node_ok n -> num_items_ n < node_max n -> 0 <= idx <= num_items_ n ->
  node_ok (inserted n idx x).
Proof.
  intros (Hc & Hk & Hch) Hroom Hidx.
  unfold node_ok, node_max, inserted in *.
  cbn [num_items_ leaf_ key_slots child_slots].
  split; [lia|]. split.
  - destruct (Z.ltb_spec 0 (num_items_ n - idx)); len_lia.
  - intros El. specialize (Hch El). rewrite El in *. cbn [negb].
    destruct (Z.ltb_spec 0 (num_items_ n - idx)); cbn [andb]; len_lia.
Qed.

End InsertRuns.
(** ** Inserting, searching and erasing *)

Section InsertProperties.

Context {KT : KeyType}.
Hypothesis Hsize : 2 <= kKeySize.
Implicit Types (H : gmap Z BPTreeNode) (ok : bool) (n : BPTreeNode).

Lemma LeafInsert_run this idx x n H ok :
  this <> nullptr -> H !! this = Some n -> node_ok n -> leaf_ n = true ->
  num_items_ n < node_max n -> 0 <= idx <= num_items_ n ->
  (forall a, slot_get (live_keys n) (idx - 1) = Some a -> key_lt a x = true) ->
  (forall b, slot_get (live_keys n) idx = Some b -> key_lt x b = true) ->
  LeafInsert this idx x (mkState H ok) =
  Some (tt, mkState (<[this := inserted n idx x]> H) ok).
Proof.
  intros Hp E Hok Hleaf Hroom Hidx Hpred Hsucc.
  unfold LeafInsert. massert. rewrite Hleaf.
  destruct (Z.ltb_spec (num_items_ n) (node_max n)); [|lia].
  cbn [andb]. rewrite andb_true_r.
  now apply InsertItem_run.
Qed.

Lemma assertM_total (c : M bool) H ok :
  exists b, assertM c (mkState H ok) = Some (tt, mkState H b).
Proof.
  unfold assertM, assert. cbn [heap asserts_ok].
  destruct (c (mkState H ok)) as [[b s']|]; eauto.
Qed.

(** X8: A full node has no room for another key: [InsertItem], and so
    [LeafInsert] and [InnerInsert], then write past the last key slot of
    the node. *)
Theorem insert_into_full_node this idx x c n s :
  this <> nullptr -> heap s !! this = Some n -> node_ok n ->
  num_items_ n = node_max n -> 0 <= idx <= num_items_ n ->
  InsertItem this idx x s = None /\
  LeafInsert this idx x s = None /\
  InnerInsert this idx x c s = None.
Proof.
  intros Hp E Hok Hfull Hidx. destruct s as [H ok]. cbn [heap] in E.
  pose proof (node_ok_count Hsize n Hok) as Hcnt.
  destruct Hok as (Hc & Hk & Hch).
  assert (Hins : forall ok', InsertItem this idx x (mkState H ok') = None).
  { intros ok'. unfold InsertItem. mstep. mstep.
    rewrite ?bind_assoc_run.
    match goal with
    | |- bind (assertM ?c) _ ?s = _ =>
        destruct (assertM_total c H (ok' && (idx <=? num_items_ n))) as [b1 Hb1];
        rewrite (bind_run _ _ _ _ _ Hb1)
    end.
    match goal with
    | |- bind (assertM ?c) _ ?s = _ =>
        destruct (assertM_total c H b1) as [b2 Hb2];
        rewrite (bind_run _ _ _ _ _ Hb2)
    end.
    unfold ShiftRight. mstep. wrap_simpl.
    destruct (Z.ltb_spec 0 (num_items_ n - idx)) as [Hsh|Hsh].
    - rewrite ?bind_assoc_run. unfold bind at 1.
      unfold memmove.
      rewrite (bind_run _ _ _ _ _ (deref_run _ _ _ _ Hp E)).
      cbn [slots_of keys_region]. unfold bind at 1, lift at 1.
      rewrite slice_Some by lia.
      rewrite (bind_run _ _ _ _ _ (deref_run _ _ _ _ Hp E)).
      cbn [slots_of keys_region]. unfold bind at 1, lift at 1.
      unfold blit.
      assert (Hlen : lenZ (sliceZ (key_slots n) idx (num_items_ n - idx)) =
                     num_items_ n - idx) by (apply lenZ_sliceZ; lia).
      rewrite Hlen.
      destruct (Z.leb_spec 0 (idx + 1)); [|lia].
      destruct (Z.leb_spec (idx + 1 + (num_items_ n - idx)) (lenZ (key_slots n)));
        [lia|]. reflexivity.
    - mstep. erewrite bind_run by (eapply set_num_items_run; side).
      unfold SetKey, store_slot.
      erewrite bind_run by (eapply deref_run; [assumption|apply lookup_insert_eq]).
      cbn [slots_of keys_region key_slots]. unfold bind at 1, lift at 1.
      unfold slot_set.
      destruct (Z.ltb_spec idx (lenZ (key_slots n))); [lia|].
      rewrite andb_false_r. reflexivity. }
  split; [apply Hins|]. split.
  - unfold LeafInsert.
    match goal with
    | |- bind (assertM ?c) _ ?s = _ =>
        destruct (assertM_total c H ok) as [b Hb];
        rewrite (bind_run _ _ _ _ _ Hb)
    end.
    apply Hins.
  - unfold InnerInsert. unfold bind. now rewrite Hins.
Qed.

Lemma slice_Some_len {A} (l : list A) i m :
  0 <= i -> 0 <= m -> i + m <= lenZ l -> slice l i m = Some (sliceZ l i m).
Proof. intros. now apply slice_Some. Qed.

Lemma inserted_children n idx x c :
  node_ok n -> leaf_ n = false -> num_items_ n < node_max n ->
  0 <= idx <= num_items_ n ->
  takeZ (num_items_ n + 2) (upd (child_slots (inserted n idx x)) (idx + 1) c) =
  insert_child_at (idx + 1) c (live_children n).
Proof.
  intros (Hc & Hk & Hch) Hleaf Hroom Hidx. specialize (Hch Hleaf).
  unfold live_children, inserted, insert_child_at.
  cbn [num_items_ leaf_ key_slots child_slots]. rewrite Hleaf. cbn [negb].
  destruct (Z.ltb_spec 0 (num_items_ n - idx)); cbn [andb]; arr_ext.
Qed.

Lemma InnerInsert_run this idx x c n H ok :
  this <> nullptr -> H !! this = Some n -> node_ok n -> leaf_ n = false ->
  num_items_ n < node_max n -> 0 <= idx <= num_items_ n ->
  (forall a, slot_get (live_keys n) (idx - 1) = Some a -> key_lt a x = true) ->
  (forall b, slot_get (live_keys n) idx = Some b -> key_lt x b = true) ->
  InnerInsert this idx x c (mkState H ok) =
  Some (tt, mkState (<[this := inserted_child n idx x c]> H) ok).
Proof.
  intros Hp E Hok Hleaf Hroom Hidx Hpred Hsucc.
  pose proof (node_ok_count Hsize n Hok) as Hcnt.
  pose proof (inserted_ok n idx x Hok Hroom Hidx) as (_ & _ & Hch').
  specialize (Hch' Hleaf).
  assert (Hmx : node_max (inserted n idx x) = node_max n)
    by (apply node_max_same_kind; reflexivity).
  unfold InnerInsert.
  rewrite (bind_run _ _ _ _ _
             (InsertItem_run Hsize this idx x n H ok Hp E Hok Hroom Hidx Hpred Hsucc)).
  wrap_simpl.
  erewrite SetChild_run; [|assumption|apply lookup_insert_eq|lia].
  rewrite insert_insert_eq. reflexivity.
Qed.

Lemma inserted_child_ok n idx x c :
  node_ok n -> leaf_ n = false -> num_items_ n < node_max n ->
  0 <= idx <= num_items_ n -> node_ok (inserted_child n idx x c).
Proof.
  intros Hok Hleaf Hroom Hidx.
  pose proof (inserted_ok n idx x Hok Hroom Hidx) as (Hc' & Hk' & Hch').
  assert (Hl' : leaf_ (inserted n idx x) = false) by exact Hleaf.
  specialize (Hch' Hl').
  unfold node_ok, node_max, inserted_child in *.
  cbn [num_items_ leaf_ key_slots child_slots]. rewrite Hl' in *.
  rewrite Hleaf. cbn [num_items_] in Hc'.
  split; [exact Hc'|]. split; [exact Hk'|]. intros _. rewrite lenZ_upd. exact Hch'.
Qed.

Lemma inserted_child_keys n idx x c :
  node_ok n -> num_items_ n < node_max n -> 0 <= idx <= num_items_ n ->
  live_keys (inserted_child n idx x c) = insert_at idx x (live_keys n).
Proof.
  intros Hok Hroom Hidx. rewrite <- (inserted_keys n idx x Hok Hroom Hidx).
  reflexivity.
Qed.

Lemma inserted_child_children n idx x c :
  node_ok n -> leaf_ n = false -> num_items_ n < node_max n ->
  0 <= idx <= num_items_ n ->
  live_children (inserted_child n idx x c) =
  insert_child_at (idx + 1) c (live_children n).
Proof.
  intros Hok Hleaf Hroom Hidx.
  unfold live_children at 1. unfold inserted_child. cbn [num_items_ child_slots].
  replace (num_items_ n + 1 + 1) with (num_items_ n + 2) by lia.
  now apply inserted_children.
Qed.

(** X9: [InnerInsert(idx, x, child)] on an inner node with room, for a key
    that respects the order at slot [idx]: the key is inserted at
    position [idx] of the keys and the child at position [idx + 1] of
    the children, all other keys and children keeping their order; the
    node stays well-formed and no assertion fails. *)
Theorem InnerInsert_inserts_key_and_child this idx x c n s :
  this <> nullptr -> heap s !! this = Some n -> node_ok n -> leaf_ n = false ->
  num_items_ n < node_max n -> 0 <= idx <= num_items_ n ->
  (forall a, slot_get (live_keys n) (idx - 1) = Some a -> key_lt a x = true) ->
  (forall b, slot_get (live_keys n) idx = Some b -> key_lt x b = true) ->
  exists n',
    InnerInsert this idx x c s =
      Some (tt, mkState (<[this := n']> (heap s)) (asserts_ok s)) /\
    num_items_ n' = num_items_ n + 1 /\ leaf_ n' = false /\ node_ok n' /\
    live_keys n' = insert_at idx x (live_keys n) /\
    live_children n' = insert_child_at (idx + 1) c (live_children n).
Proof.
  intros Hp E Hok Hleaf Hroom Hidx Hpred Hsucc. destruct s as [H ok].
  cbn [heap asserts_ok] in *.
  exists (inserted_child n idx x c).
  split; [now apply InnerInsert_run|].
  split; [reflexivity|]. split; [exact Hleaf|].
  split; [now apply inserted_child_ok|].
  split; [now apply inserted_child_keys|].
  now apply inserted_child_children.
Qed.

End InsertProperties.
(** ** Searching in any node, and after an insert *)

Section SearchAnyNode.

Context {KT : KeyType}.
Variable cmp_op : KeyT -> KeyT -> Z.



Hypothesis Hcmp : three_way_order cmp_op.


Hypothesis Hlt : lt_agrees cmp_op.
Hypothesis Hsize : 2 <= kKeySize.

Lemma inserted_increasing n idx x :
  node_ok n -> num_items_ n < node_max n -> 0 <= idx <= num_items_ n ->
  keys_increasing cmp_op n ->
  (forall a, slot_get (live_keys n) (idx - 1) = Some a -> cmp_op a x < 0) ->
  (forall b, slot_get (live_keys n) idx = Some b -> cmp_op x b < 0) ->
  keys_increasing cmp_op (inserted n idx x).
Proof.
  intros Hok Hroom Hidx Hinc Hpred Hsucc.
  pose proof (inserted_ok n idx x Hok Hroom Hidx) as Hok'.
  apply keys_increasing_seq; [destruct Hok' as (? & ? & ?); lia|].
  rewrite (inserted_keys n idx x Hok Hroom Hidx).
  pose proof (lenZ_live_keys_ok n Hok) as Hlen.
  apply seq_increasing_insert; auto; [lia|].
  apply keys_increasing_seq; [destruct Hok as (? & ? & ?); lia|exact Hinc].
Qed.

(** X6: [LeafInsert(idx, x)] into a leaf with room and increasing keys, for
    a key that lies between the keys next to slot [idx]: no assertion
    fails, the keys are the old ones with [x] inserted at position
    [idx], they are still increasing and the leaf is well-formed. *)
Theorem LeafInsert_keeps_order this idx x n s :
  this <> nullptr -> heap s !! this = Some n -> node_ok n -> leaf_ n = true ->
  num_items_ n < node_max n -> 0 <= idx <= num_items_ n ->
  keys_increasing cmp_op n ->
  (forall a, slot_get (live_keys n) (idx - 1) = Some a -> cmp_op a x < 0) ->
  (forall b, slot_get (live_keys n) idx = Some b -> cmp_op x b < 0) ->
  exists n',
    LeafInsert this idx x s =
      Some (tt, mkState (<[this := n']> (heap s)) (asserts_ok s)) /\
    num_items_ n' = num_items_ n + 1 /\ leaf_ n' = true /\ node_ok n' /\
    live_keys n' = insert_at idx x (live_keys n) /\
    keys_increasing cmp_op n'.
Proof.
  intros Hp E Hok Hleaf Hroom Hidx Hinc Hpred Hsucc. destruct s as [H ok].
  cbn [heap asserts_ok] in *.
  exists (inserted n idx x).
  split.
  { apply LeafInsert_run; auto.
    - intros a Ha. apply Hlt. now apply Hpred.
    - intros b Hb. apply Hlt. now apply Hsucc. }
  split; [reflexivity|]. split; [exact Hleaf|].
  split; [now apply inserted_ok|].
  split; [now apply inserted_keys|].
  now apply inserted_increasing.
Qed.


End SearchAnyNode.
(** ** Insert and erase undo one another *)

Section InsertErase.

Context {KT : KeyType}.
Hypothesis Hsize : 2 <= kKeySize.
Implicit Types (H : gmap Z BPTreeNode) (ok : bool) (n : BPTreeNode).

Lemma delete_insert_at o x (w : list KeyT) :
  0 <= o <= lenZ w -> delete (Z.to_nat o) (insert_at o x w) = w.
Proof.
  intros Ho. pose proof (lenZ_insert_at o x w Ho) as Hlen.
  apply slot_ext.
  - rewrite lenZ_delete by lia. lia.
  - intros j Hj. rewrite slot_get_delete by lia.
    rewrite !slot_get_insert_at by lia.
    destruct (Z.ltb_spec j o); [reflexivity|].
    destruct (Z.ltb_spec (j + 1) o); [lia|].
    destruct (Z.eqb_spec (j + 1) o); [lia|].
    f_equal. lia.
Qed.

Lemma delete_insert_child_at o c (w : list Z) :
  0 <= o <= lenZ w -> delete (Z.to_nat o) (insert_child_at o c w) = w.
Proof. intros Ho. unfold insert_child_at. arr_ext. Qed.

(** X10: [LeafInsert(idx, x)] followed by [ShiftLeft(idx)] gives back the
    leaf: the same count and the same keys.  No assertion fails. *)
Theorem LeafInsert_then_ShiftLeft this idx x n s :
  this <> nullptr -> heap s !! this = Some n -> node_ok n -> leaf_ n = true ->
  num_items_ n < node_max n -> 0 <= idx <= num_items_ n ->
  (forall a, slot_get (live_keys n) (idx - 1) = Some a -> key_lt a x = true) ->
  (forall b, slot_get (live_keys n) idx = Some b -> key_lt x b = true) ->
  exists s' n'',
    LeafInsert this idx x s = Some (tt, s') /\
    ShiftLeft this idx false s' =
      Some (tt, mkState (<[this := n'']> (heap s)) (asserts_ok s)) /\
    num_items_ n'' = num_items_ n /\ leaf_ n'' = true /\
    live_keys n'' = live_keys n.
Proof.
  intros Hp E Hok Hleaf Hroom Hidx Hpred Hsucc. destruct s as [H ok].
  cbn [heap asserts_ok] in *.
  pose proof (inserted_ok n idx x Hok Hroom Hidx) as Hok'.
  pose proof (inserted_keys n idx x Hok Hroom Hidx) as Hkeys.
  pose proof (lenZ_live_keys_ok n Hok) as Hlen.
  destruct (ShiftLeft_no_step Hsize this idx (inserted n idx x)
              (<[this := inserted n idx x]> H) ok)
    as (n'' & Hrun & Hnum & Hl & Hk & _); auto.
  { apply lookup_insert_eq. }
  { cbn [inserted num_items_]. lia. }
  rewrite insert_insert_eq in Hrun.
  eexists. exists n''.
  split; [exact (LeafInsert_run Hsize this idx x n H ok Hp E Hok Hleaf Hroom Hidx
                   Hpred Hsucc)|].
  split; [exact Hrun|]. split; [cbn [inserted num_items_] in Hnum; lia|].
  split; [rewrite Hl; exact Hleaf|].
  rewrite Hk, Hkeys. apply delete_insert_at. lia.
Qed.

(** X11: [InnerInsert(idx, x, child)] followed by [ShiftLeft(idx, true)]
    gives back the inner node: the same count, keys and children.  No
    assertion fails. *)
Theorem InnerInsert_then_ShiftLeft this idx x c n s :
  this <> nullptr -> heap s !! this = Some n -> node_ok n -> leaf_ n = false ->
  num_items_ n < node_max n -> 0 <= idx <= num_items_ n ->
  (forall a, slot_get (live_keys n) (idx - 1) = Some a -> key_lt a x = true) ->
  (forall b, slot_get (live_keys n) idx = Some b -> key_lt x b = true) ->
  exists s' n'',
    InnerInsert this idx x c s = Some (tt, s') /\
    ShiftLeft this idx true s' =
      Some (tt, mkState (<[this := n'']> (heap s)) (asserts_ok s)) /\
    num_items_ n'' = num_items_ n /\ leaf_ n'' = false /\
    live_keys n'' = live_keys n /\ live_children n'' = live_children n.
Proof.
  intros Hp E Hok Hleaf Hroom Hidx Hpred Hsucc.
  destruct s as [H ok]. cbn [heap asserts_ok] in *.
  set (n' := inserted_child n idx x c).
  pose proof (InnerInsert_run Hsize this idx x c n H ok Hp E Hok Hleaf Hroom Hidx
                Hpred Hsucc) as Hins.
  fold n' in Hins.
  assert (Hnum' : num_items_ n' = num_items_ n + 1) by reflexivity.
  assert (Hleaf' : leaf_ n' = false) by exact Hleaf.
  pose proof (inserted_child_ok n idx x c Hok Hleaf Hroom Hidx) as Hok'.
  pose proof (inserted_child_keys n idx x c Hok Hroom Hidx) as Hkeys.
  pose proof (inserted_child_children n idx x c Hok Hleaf Hroom Hidx) as Hch.
  fold n' in Hok', Hkeys, Hch.
  pose proof (lenZ_live_keys_ok n Hok) as Hlen.
  assert (Hlenc : lenZ (live_children n) = num_items_ n + 1).
  { destruct Hok as (? & ? & Hc). specialize (Hc Hleaf).
    apply lenZ_live_children. lia. }
  destruct (ShiftLeft_step_right Hsize this idx n' (<[this := n']> H) ok)
    as (n'' & Hrun & Hnum & Hl & _ & _ & Hk & Hc); auto.
  { apply lookup_insert_eq. }
  { lia. }
  rewrite insert_insert_eq in Hrun.
  eexists. exists n''. split; [exact Hins|].
  split; [exact Hrun|]. split; [lia|]. split; [congruence|].
  split.
  - rewrite Hk, Hkeys. apply delete_insert_at. lia.
  - rewrite (Hc Hleaf'), Hch. apply delete_insert_child_at. lia.
Qed.

(** X12: [LeafEraseRight] on a leaf that holds a key does exactly what
    [ShiftLeft] at the last index does: the last key is dropped.  On an
    empty leaf its assertion fails and the 7-bit count wraps around to
    127. *)
Theorem LeafEraseRight_drops_last_key this n s :
  this <> nullptr -> heap s !! this = Some n -> node_ok n -> leaf_ n = true ->
  (1 <= num_items_ n ->
   LeafEraseRight this s = ShiftLeft this (num_items_ n - 1) false s /\
   exists n',
     LeafEraseRight this s =
       Some (tt, mkState (<[this := n']> (heap s)) (asserts_ok s)) /\
     num_items_ n' = num_items_ n - 1 /\
     live_keys n' = takeZ (num_items_ n - 1) (live_keys n)) /\
  (num_items_ n = 0 ->
   exists n',
     LeafEraseRight this s = Some (tt, mkState (<[this := n']> (heap s)) false) /\
     num_items_ n' = 127).
Proof.
  intros Hp E Hok Hleaf. destruct s as [H ok]. cbn [heap asserts_ok] in *.
  pose proof (node_ok_count Hsize n Hok) as Hcnt.
  assert (Herase : LeafEraseRight this (mkState H ok) =
                   Some (tt, mkState (<[this := mkNode (u7 (num_items_ n - 1)) (leaf_ n)
                                         (key_slots n) (child_slots n)]> H)
                               (ok && (leaf_ n && (0 <? num_items_ n))))).
  { unfold LeafEraseRight. mstep. mstep. mstep.
    erewrite set_num_items_run by side. reflexivity. }
  split.
  - intros Hone.
    pose proof (ShiftLeft_run Hsize this (num_items_ n - 1) false n H ok Hp E Hok
                  ltac:(lia)) as Hshift.
    cbv zeta in Hshift.
    replace (num_items_ n - (num_items_ n - 1) - 1) with 0 in Hshift by lia.
    cbn [Z.ltb Z.compare andb] in Hshift.
    rewrite Herase, Hleaf.
    destruct (Z.ltb_spec 0 (num_items_ n)); [|lia].
    cbn [andb]. rewrite andb_true_r, u7_small by lia.
    split; [rewrite Hshift, Hleaf; reflexivity|].
    eexists. split; [reflexivity|]. cbn [num_items_]. split; [reflexivity|].
    destruct Hok as (? & ? & ?).
    unfold live_keys. cbn [num_items_ key_slots]. arr_ext.
  - intros Hzero. rewrite Herase, Hzero, Hleaf. cbn [andb Z.ltb Z.compare].
    rewrite andb_false_r.
    eexists. split; [reflexivity|]. reflexivity.
Qed.

End InsertErase.
(** ** [Split] and [MergeFromRight] undo one another *)

Section SplitRoundTrip.

Context {KT : KeyType}.
Hypothesis Hsize : 2 <= kKeySize.
Implicit Types (H : gmap Z BPTreeNode) (ok : bool) (n : BPTreeNode).

(** [Split] with the sizes of the slot arrays of the new node. *)
Lemma Split_spec_len this right n r0 H ok :
  this <> nullptr -> right <> nullptr -> this <> right ->
  H !! this = Some n -> H !! right = Some r0 ->
  node_ok n -> 1 <= num_items_ n ->
  num_items_ n - num_items_ n / 2 - 1 <= lenZ (key_slots r0) ->
  (leaf_ n = false -> num_items_ n - num_items_ n / 2 <= lenZ (child_slots r0)) ->
  exists median n' r',
    Split this right (mkState H ok) =
      Some (median, mkState (<[this := n']> (<[right := r']> H)) ok) /\
    slot_get (key_slots n) (num_items_ n / 2) = Some median /\
    num_items_ n' = num_items_ n / 2 /\
    num_items_ r' = num_items_ n - num_items_ n / 2 - 1 /\
    leaf_ n' = leaf_ n /\ leaf_ r' = leaf_ n /\
    key_slots n' = key_slots n /\ child_slots n' = child_slots n /\
    live_keys r' =
      sliceZ (key_slots n) (num_items_ n / 2 + 1)
        (num_items_ n - num_items_ n / 2 - 1) /\
    (leaf_ n = false ->
     live_children r' =
       sliceZ (child_slots n) (num_items_ n / 2 + 1)
         (num_items_ n - num_items_ n / 2)) /\
    lenZ (key_slots r') = lenZ (key_slots r0) /\
    lenZ (child_slots r') = lenZ (child_slots r0).
Proof.
  intros Hp Hq Hne En Er Hok Hone Hcapk Hcapc.
  pose proof (node_ok_count Hsize n Hok) as Hcnt.
  destruct Hok as (Hc & Hk & Hch).
  set (cnt := num_items_ n) in *. set (mid := cnt / 2) in *.
  assert (Hmid : 0 <= mid /\ mid + 1 <= cnt).
  { unfold mid. split; [apply Z.div_pos; lia|].
    assert (cnt / 2 < cnt) by (apply Z.div_lt_upper_bound; lia). lia. }
  destruct (slot_get_is_Some (key_slots n) mid) as [median Hmed]; [lia|].
  set (rn := cnt - mid - 1) in *.
  set (RK := blitZ (key_slots r0) 0 (sliceZ (key_slots n) (mid + 1) rn)).
  set (RC := if leaf_ n then child_slots r0
             else blitZ (child_slots r0) 0 (sliceZ (child_slots n) (mid + 1) (rn + 1))).
  exists median, (mkNode mid (leaf_ n) (key_slots n) (child_slots n)),
         (mkNode rn (leaf_ n) RK RC).
  split.
  - unfold Split. mstep. fold cnt mid. wrap_simpl.
    mstep. mstep. mstep. mstep. fold cnt. simpl. wrap_simpl.
    replace (cnt - (mid + 1)) with rn by (unfold rn; lia).
    mstep. mstep. simpl. wrap_simpl. mstep. simpl. mstep. simpl.
    rewrite !insert_insert_eq.
    destruct (leaf_ n) eqn:Eleaf; simpl.
    + mstep.
      erewrite bind_run by (eapply set_num_items_run; side).
      cbv beta. simpl. wrap_simpl. rewrite ?Eleaf.
      subst RC. reflexivity.
    + specialize (Hch eq_refl). specialize (Hcapc eq_refl).
      pose (S := fun m => mkState (<[right := mkNode rn false RK
                 (blitZ (child_slots r0) 0 (sliceZ (child_slots n) (mid + 1) m))]> H) ok).
      mloop_up S.
      * lia.
      * intros m Hm. unfold S. wrap_simpl.
        erewrite copy_child_run by side. simpl.
        rewrite insert_insert_eq. node_eq.
      * unfold S. node_eq.
      * unfold S. rewrite Z.sub_0_r.
        erewrite bind_run by (eapply set_num_items_run; side).
        cbv beta. simpl. wrap_simpl. rewrite ?Eleaf. subst RC. reflexivity.
  - simpl. split; [exact Hmed|]. repeat (split; [reflexivity|]).
    split.
    { unfold live_keys; simpl. unfold RK. fold cnt mid rn. arr_ext. }
    split.
    { intros Eleaf. specialize (Hch Eleaf). specialize (Hcapc Eleaf).
      unfold live_children; simpl. unfold RC. rewrite Eleaf.
      fold cnt mid rn. replace (cnt - mid) with (rn + 1) by (unfold rn; lia).
      arr_ext. }
    split.
    { unfold RK. len_lia. }
    unfold RC. destruct (leaf_ n) eqn:Eleaf; [reflexivity|].
    specialize (Hch eq_refl). specialize (Hcapc eq_refl). len_lia.
Qed.

(** X14: [Split] followed by [MergeFromRight] with the median and the new
    right node gives back the node: the same count, keys and children;
    the right node is left empty and no assertion fails. *)
Theorem Split_then_MergeFromRight this right n r0 s :
  this <> nullptr -> right <> nullptr -> this <> right ->
  heap s !! this = Some n -> heap s !! right = Some r0 ->
  node_ok n -> 1 <= num_items_ n ->
  lenZ (key_slots r0) = node_max n ->
  (leaf_ n = false -> lenZ (child_slots r0) = node_max n + 1) ->
  exists median s1 s2 n2 r2,
    Split this right s = Some (median, s1) /\
    MergeFromRight this median right s1 = Some (tt, s2) /\
    asserts_ok s2 = asserts_ok s /\
    heap s2 !! this = Some n2 /\ heap s2 !! right = Some r2 /\
    (forall q, q <> this -> q <> right -> heap s2 !! q = heap s !! q) /\
    num_items_ n2 = num_items_ n /\ leaf_ n2 = leaf_ n /\
    live_keys n2 = live_keys n /\
    (leaf_ n = false -> live_children n2 = live_children n) /\
    num_items_ r2 = 0.
Proof.
  intros Hp Hq Hne En Er Hok Hone Hrk Hrc. destruct s as [H ok].
  cbn [heap asserts_ok] in *.
  pose proof (node_ok_count Hsize n Hok) as Hcnt.
  pose proof Hok as (Hc & Hk & Hch).
  assert (Hmid : 0 <= num_items_ n / 2 /\ num_items_ n / 2 + 1 <= num_items_ n).
  { split; [apply Z.div_pos; lia|].
    assert (num_items_ n / 2 < num_items_ n) by (apply Z.div_lt_upper_bound; lia).
    lia. }
  destruct (Split_spec_len this right n r0 H ok)
    as (median & n' & r' & Hsplit & Hmed & Hn' & Hr' & Hln & Hlr & Hkn & Hcn
        & Hkr & Hcr & Hlenk & Hlenc); auto; try lia.
  { intros El. specialize (Hrc El). lia. }
  assert (Hmxn : node_max n' = node_max n) by (now apply node_max_same_kind).
  assert (Hmxr : node_max r' = node_max n) by (now apply node_max_same_kind).
  assert (Hokn' : node_ok n').
  { unfold node_ok. rewrite Hmxn, Hn', Hkn, Hcn, Hln. repeat split; auto; lia. }
  assert (Hokr' : node_ok r').
  { unfold node_ok. rewrite Hmxr, Hr', Hlenk, Hlenc, Hlr. repeat split; auto; lia. }
  destruct (MergeFromRight_spec Hsize this right median n' r'
              (<[this := n']> (<[right := r']> H)) ok)
    as (l2 & r2 & Hmerge & Hn2 & Hl2 & _ & _ & Hk2 & Hc2 & Hr2 & _);
    auto; try congruence; try lia.
  { apply lookup_insert_eq. }
  { rewrite lookup_insert_ne by congruence. apply lookup_insert_eq. }
  exists median. eexists. eexists. exists l2, r2.
  split; [exact Hsplit|]. split; [exact Hmerge|]. cbn [heap asserts_ok].
  split; [reflexivity|].
  split; [rewrite lookup_insert_ne by congruence; apply lookup_insert_eq|].
  split; [apply lookup_insert_eq|].
  split; [intros q Hq1 Hq2; now rewrite !lookup_insert_ne by congruence|].
  split; [lia|]. split; [congruence|].
  split; [|split].
  - rewrite Hk2, Hkr. unfold live_keys. rewrite Hn', Hkn. arr_ext.
  - intros El. rewrite Hc2 by congruence. rewrite (Hcr El).
    specialize (Hch El).
    unfold live_children. rewrite Hn', Hcn. arr_ext.
  - exact Hr2.
Qed.

(** X15: [Split] of a full node leaves this node with exactly the minimum
    number of keys; the new right node gets the minimum when the
    capacity is odd and one key less than the minimum when it is even. *)
Theorem Split_full_node_counts this right n r0 s :
  this <> nullptr -> right <> nullptr -> this <> right ->
  heap s !! this = Some n -> heap s !! right = Some r0 ->
  node_ok n -> 1 <= num_items_ n -> num_items_ n = node_max n ->
  lenZ (key_slots r0) = node_max n ->
  (leaf_ n = false -> lenZ (child_slots r0) = node_max n + 1) ->
  exists median s' n' r',
    Split this right s = Some (median, s') /\
    heap s' !! this = Some n' /\ heap s' !! right = Some r' /\
    num_items_ n' = node_min n /\
    num_items_ r' = node_max n - node_min n - 1 /\
    (node_max n mod 2 = 1 -> num_items_ r' = node_min n) /\
    (node_max n mod 2 = 0 -> num_items_ r' = node_min n - 1).
Proof.
  intros Hp Hq Hne En Er Hok Hone Hfull Hrk Hrc. destruct s as [H ok].
  cbn [heap] in *.
  pose proof (node_min_eq Hsize n) as Hmin.
  pose proof Hok as (Hc & Hk & Hch).
  assert (Hmid : 0 <= num_items_ n / 2 /\ num_items_ n / 2 + 1 <= num_items_ n).
  { split; [apply Z.div_pos; lia|].
    assert (num_items_ n / 2 < num_items_ n) by (apply Z.div_lt_upper_bound; lia).
    lia. }
  destruct (Split_spec Hsize this right n r0 H ok)
    as (median & n' & r' & Hsplit & _ & Hn' & Hr' & _); auto; try lia.
  { intros El. specialize (Hrc El). lia. }
  exists median. eexists. exists n', r'.
  split; [exact Hsplit|]. cbn [heap].
  split; [apply lookup_insert_eq|].
  split; [rewrite lookup_insert_ne by congruence; apply lookup_insert_eq|].
  rewrite Hmin, <- Hfull.
  split; [exact Hn'|]. split; [lia|].
  pose proof (Z.div_mod (num_items_ n) 2 ltac:(lia)) as Hdm.
  split; intros Hpar; lia.
Qed.

End SplitRoundTrip.
(** ** Rebalancing: round trip and key order *)

Section RebalanceProperties.

Context {KT : KeyType}.
Hypothesis Hsize : 2 <= kKeySize.

Lemma app_sep_inj (u v u' v' : list KeyT) a a' :
  lenZ u = lenZ u' -> u ++ [a] ++ v = u' ++ [a'] ++ v' ->
  u = u' /\ a = a' /\ v = v'.
Proof.
  intros Hlen Heq. unfold lenZ in Hlen.
  apply app_inj_1 in Heq; [|lia]. destruct Heq as (-> & Heq).
  injection Heq as -> ->. auto.
Qed.

Lemma app_len_inj (u v u' v' : list Z) :
  lenZ u = lenZ u' -> u ++ v = u' ++ v' -> u = u' /\ v = v'.
Proof. intros Hlen Heq. unfold lenZ in Hlen. apply app_inj_1 in Heq; [auto|lia]. Qed.

(** X16: Moving [k] items to the left sibling and [k] items back to the
    right one gives back the parent and the keys and children of both
    siblings, provided the right sibling is not emptied in between.  No
    assertion fails. *)
Theorem RebalanceChildToLeft_then_ToRight this i k lc rc p ln rn s :
  this <> nullptr -> lc <> nullptr -> rc <> nullptr ->
  this <> lc -> this <> rc -> lc <> rc ->
  heap s !! this = Some p -> heap s !! lc = Some ln -> heap s !! rc = Some rn ->
  node_ok p -> leaf_ p = false -> 0 <= i < num_items_ p ->
  slot_get (child_slots p) i = Some lc ->
  slot_get (child_slots p) (i + 1) = Some rc ->
  node_ok ln -> node_ok rn -> leaf_ ln = leaf_ rn ->
  1 <= k < num_items_ rn -> k <= node_max ln - num_items_ ln ->
  exists s1 s2 l2 r2,
    RebalanceChildToLeft this (i + 1) k s = Some (tt, s1) /\
    RebalanceChildToRight this i k s1 = Some (tt, s2) /\
    asserts_ok s2 = asserts_ok s /\
    heap s2 !! this = Some p /\
    heap s2 !! lc = Some l2 /\ heap s2 !! rc = Some r2 /\
    (forall q, q <> lc -> q <> rc -> heap s2 !! q = heap s !! q) /\
    num_items_ l2 = num_items_ ln /\ num_items_ r2 = num_items_ rn /\
    live_keys l2 = live_keys ln /\ live_keys r2 = live_keys rn /\
    (leaf_ ln = false ->
     live_children l2 = live_children ln /\ live_children r2 = live_children rn).
Proof.
  intros Hp Hl Hr Htl Htr Hlr Ep El Er Hokp Hinner Hi Hcl Hcr Hokl Hokr Hkind
    Hk Hroom.
  destruct s as [H ok]. cbn [heap asserts_ok] in *.
  destruct (rebalanced_to_left Hsize this i k lc rc p ln rn H ok)
    as (H1 & Hrun1 & Hreb1); auto; try lia.
  pose proof Hreb1 as (p1 & l1 & r1 & sep & sep1 & Ep1 & El1 & Er1 & Hfr1 & Hnp1
                       & Hlp1 & Hcp1 & Hkp1 & Hsep & Hsep1 & Hseq1 & _ & Hch1
                       & Hnl1 & Hnr1 & Hll1 & Hlr1 & Hokl1 & Hokr1 & Hokp1).
  cbn [heap] in Ep1, El1, Er1, Hfr1.
  pose proof (node_max_same_kind l1 ln Hll1) as Hmxl.
  pose proof (node_max_same_kind r1 rn Hlr1) as Hmxr.
  assert (Hrn : 0 <= num_items_ rn <= node_max rn) by (destruct Hokr; lia).
  assert (Hln : 0 <= num_items_ ln <= node_max ln) by (destruct Hokl; lia).
  destruct (rebalanced_to_right Hsize this i k lc rc p1 l1 r1 H1 ok)
    as (H2 & Hrun2 & Hreb2); auto; try lia; try congruence.
  destruct (Z.ltb_spec 0 (num_items_ r1)); [|lia].
  rewrite andb_true_r in Hrun2, Hreb2.
  destruct Hreb2 as (p2 & l2 & r2 & sep1' & sep2 & Ep2 & El2 & Er2 & Hfr2 & Hnp2
                     & Hlp2 & Hcp2 & Hkp2 & Hsep1' & Hsep2 & Hseq2 & _ & Hch2
                     & Hnl2 & Hnr2 & Hll2 & Hlr2 & Hokl2 & Hokr2 & Hokp2).
  cbn [heap] in Ep2, El2, Er2, Hfr2.
  pose proof (lenZ_live_keys_ok ln Hokl) as Lln.
  pose proof (lenZ_live_keys_ok l2 Hokl2) as Ll2.
  assert (Hcnt : num_items_ l2 = num_items_ ln) by lia.
  destruct (app_sep_inj (live_keys l2) (live_keys r2) (live_keys ln) (live_keys rn)
              sep2 sep) as (Hkl & Hs & Hkr); [lia|congruence|].
  assert (Hp2 : p2 = p).
  { destruct p2 as [c2 f2 ks2 cs2], p as [c0 f0 ks0 cs0].
    cbn [num_items_ leaf_ key_slots child_slots] in *.
    assert (ks2 = ks0).
    { destruct Hokp2 as (_ & Hk2 & _), Hokp as (_ & Hk0 & _).
      cbn [key_slots] in Hk2, Hk0.
      assert (Hmx : node_max (mkNode c2 f2 ks2 cs2) = node_max (mkNode c0 f0 ks0 cs0)).
      { apply node_max_same_kind. cbn [leaf_]. congruence. }
      apply slot_ext; [lia|]. intros j Hj.
      destruct (Z.eq_dec j i) as [->|Hne]; [congruence|].
      rewrite Hkp2, Hkp1 by assumption. reflexivity. }
    f_equal; congruence. }
  exists (mkState H1 ok), (mkState H2 ok), l2, r2.
  split; [exact Hrun1|]. split; [exact Hrun2|]. cbn [heap asserts_ok].
  split; [reflexivity|]. split; [congruence|].
  split; [exact El2|]. split; [exact Er2|].
  split.
  { intros q Hq1 Hq2. destruct (Z.eq_dec q this) as [->|Hqt]; [congruence|].
    rewrite Hfr2, Hfr1 by assumption. reflexivity. }
  split; [exact Hcnt|]. split; [lia|]. split; [exact Hkl|]. split; [exact Hkr|].
  intros Eleaf.
  assert (Eleaf1 : leaf_ l1 = false) by congruence.
  specialize (Hch1 Eleaf). specialize (Hch2 Eleaf1).
  apply app_len_inj; [|congruence].
  destruct Hokl as (? & ? & Hc0), Hokl2 as (? & ? & Hc2).
  rewrite !lenZ_live_children; try lia.
  - specialize (Hc0 Eleaf). lia.
  - assert (leaf_ l2 = false) by congruence. specialize (Hc2 ltac:(assumption)). lia.
Qed.

(** What a move between siblings keeps of the order of the keys. *)
Lemma rebalanced_order (cmp_op : KeyT -> KeyT -> Z) s s' this p i lc ln rc rn dl dr :
  rebalanced s s' this p i lc ln rc rn dl dr ->
  (forall sep, slot_get (key_slots p) i = Some sep ->
     seq_increasing cmp_op (live_keys ln ++ [sep] ++ live_keys rn)) ->
  exists p' ln' rn' sep',
    heap s' !! this = Some p' /\ heap s' !! lc = Some ln' /\
    heap s' !! rc = Some rn' /\
    slot_get (key_slots p') i = Some sep' /\
    keys_increasing cmp_op ln' /\ keys_increasing cmp_op rn' /\
    (forall j a, slot_get (live_keys ln') j = Some a -> cmp_op a sep' < 0) /\
    (forall j b, slot_get (live_keys rn') j = Some b -> cmp_op sep' b < 0).
Proof.
  intros (p' & ln' & rn' & sep & sep' & Ep' & El' & Er' & _ & _ & _ & _ & _ & Hsep
          & Hsep' & Hseq & _ & _ & _ & _ & _ & _ & Hokl' & Hokr' & _) Hinc.
  specialize (Hinc sep Hsep). rewrite <- Hseq in Hinc.
  apply seq_increasing_split in Hinc. destruct Hinc as (Hl & Hr & Hls & Hsr).
  exists p', ln', rn', sep'. repeat (split; [assumption|]).
  split; [|split; [|split; assumption]].
  - apply keys_increasing_seq; [destruct Hokl' as (? & ? & ?); lia|exact Hl].
  - apply keys_increasing_seq; [destruct Hokr' as (? & ? & ?); lia|exact Hr].
Qed.

(** X17: If the keys of the left sibling, the separator and the keys of the
    right sibling are increasing in this order, they are so after
    [RebalanceChildToLeft] and after [RebalanceChildToRight]: both
    siblings have increasing keys, the new separator lies above every
    key of the left sibling and below every key of the right one. *)
Theorem rebalance_keeps_key_order (cmp_op : KeyT -> KeyT -> Z)
    this i k lc rc p ln rn sep s :
  this <> nullptr -> lc <> nullptr -> rc <> nullptr ->
  this <> lc -> this <> rc -> lc <> rc ->
  heap s !! this = Some p -> heap s !! lc = Some ln -> heap s !! rc = Some rn ->
  node_ok p -> leaf_ p = false -> 0 <= i < num_items_ p ->
  slot_get (child_slots p) i = Some lc ->
  slot_get (child_slots p) (i + 1) = Some rc ->
  node_ok ln -> node_ok rn -> leaf_ ln = leaf_ rn ->
  slot_get (key_slots p) i = Some sep ->
  seq_increasing cmp_op (live_keys ln ++ [sep] ++ live_keys rn) ->
  (1 <= k <= num_items_ rn -> k <= node_max ln - num_items_ ln ->
   exists s' p' ln' rn' sep',
     RebalanceChildToLeft this (i + 1) k s = Some (tt, s') /\
     heap s' !! this = Some p' /\ heap s' !! lc = Some ln' /\
     heap s' !! rc = Some rn' /\
     slot_get (key_slots p') i = Some sep' /\
     keys_increasing cmp_op ln' /\ keys_increasing cmp_op rn' /\
     (forall j a, slot_get (live_keys ln') j = Some a -> cmp_op a sep' < 0) /\
     (forall j b, slot_get (live_keys rn') j = Some b -> cmp_op sep' b < 0)) /\
  (1 <= k <= num_items_ ln -> k <= node_max rn - num_items_ rn ->
   exists s' p' ln' rn' sep',
     RebalanceChildToRight this i k s = Some (tt, s') /\
     heap s' !! this = Some p' /\ heap s' !! lc = Some ln' /\
     heap s' !! rc = Some rn' /\
     slot_get (key_slots p') i = Some sep' /\
     keys_increasing cmp_op ln' /\ keys_increasing cmp_op rn' /\
     (forall j a, slot_get (live_keys ln') j = Some a -> cmp_op a sep' < 0) /\
     (forall j b, slot_get (live_keys rn') j = Some b -> cmp_op sep' b < 0)).
Proof.
  intros Hp Hl Hr Htl Htr Hlr Ep El Er Hokp Hinner Hi Hcl Hcr Hokl Hokr Hkind
    Hsep Hinc.
  destruct s as [H ok]. cbn [heap] in *.
  assert (Hinc' : forall sep0, slot_get (key_slots p) i = Some sep0 ->
            seq_increasing cmp_op (live_keys ln ++ [sep0] ++ live_keys rn)).
  { intros sep0 Hs0. assert (sep0 = sep) by congruence. now subst. }
  split; intros Hk Hroom.
  - destruct (rebalanced_to_left Hsize this i k lc rc p ln rn H ok)
      as (H' & Hrun & Hreb); auto.
    destruct (rebalanced_order cmp_op _ _ _ _ _ _ _ _ _ _ _ Hreb Hinc')
      as (p' & ln' & rn' & sep' & Hres).
    exists (mkState H' ok), p', ln', rn', sep'. split; [exact Hrun|exact Hres].
  - destruct (rebalanced_to_right Hsize this i k lc rc p ln rn H ok)
      as (H' & Hrun & Hreb); auto.
    destruct (rebalanced_order cmp_op _ _ _ _ _ _ _ _ _ _ _ Hreb Hinc')
      as (p' & ln' & rn' & sep' & Hres).
    eexists. exists p', ln', rn', sep'. split; [exact Hrun|exact Hres].
Qed.

(** X18: [MergeFromRight] with a separator that lies between the keys of the
    two nodes keeps the keys increasing. *)
Theorem MergeFromRight_keeps_key_order (cmp_op : KeyT -> KeyT -> Z)
    this right sep_key l r s :
  three_way_order cmp_op ->
  this <> nullptr -> right <> nullptr -> this <> right ->
  heap s !! this = Some l -> heap s !! right = Some r ->
  node_ok l -> node_ok r -> leaf_ l = leaf_ r ->
  num_items_ l + 1 + num_items_ r <= node_max l ->
  keys_increasing cmp_op l -> keys_increasing cmp_op r ->
  (forall j a, slot_get (live_keys l) j = Some a -> cmp_op a sep_key < 0) ->
  (forall j b, slot_get (live_keys r) j = Some b -> cmp_op sep_key b < 0) ->
  exists l' s',
    MergeFromRight this sep_key right s = Some (tt, s') /\
    heap s' !! this = Some l' /\
    node_ok l' /\ keys_increasing cmp_op l'.
Proof.
  intros Hcmp Hp Hq Hne El Er Hokl Hokr Hkind Hfit Hil Hir Hls Hsr.
  destruct s as [H ok]; simpl in El, Er.
  destruct (MergeFromRight_spec Hsize this right sep_key l r H ok Hp Hq Hne El Er
              Hokl Hokr Hkind Hfit)
    as (l' & r' & Hrun & Hnl & Hll & Hlk & Hlc & Hkeys & _).
  assert (Hok' : node_ok l').
  { pose proof (node_max_same_kind l' l Hll) as Hmx.
    destruct Hokl as (Hc & Hk & Hch), Hokr as (Hcr & _ & _).
    unfold node_ok. rewrite Hmx, Hnl, Hlk, Hlc, Hll. repeat split; auto; lia. }
  exists l'. eexists. split; [exact Hrun|]. cbn [heap].
  split; [rewrite lookup_insert_ne by congruence; apply lookup_insert_eq|].
  split; [exact Hok'|].
  apply keys_increasing_seq; [destruct Hok' as (? & ? & ?); lia|].
  rewrite Hkeys. apply seq_increasing_join; auto.
  - apply keys_increasing_seq; [destruct Hokl as (? & ? & ?); lia|exact Hil].
  - apply keys_increasing_seq; [destruct Hokr as (? & ? & ?); lia|exact Hir].
Qed.

End RebalanceProperties.
(** ** [MergeOrRebalanceChild] restores the minimum *)

Section RebalanceOccupancy.

Context {KT : KeyType}.
Hypothesis Hsize : 2 <= kKeySize.

Lemma half_gap (mx n r : Z) :
  0 <= n -> n < mx / 2 -> mx < n + 1 + r -> r <= mx ->
  mx / 2 <= n + (r - n) / 2 <= mx /\ mx / 2 <= r - (r - n) / 2 <= mx.
Proof.
  intros Hn Hlt Hno Hr.
  pose proof (Z.div_mod mx 2 ltac:(lia)) as Hm.
  pose proof (Z.mod_pos_bound mx 2 ltac:(lia)) as Hmb.
  pose proof (Z.div_mod (r - n) 2 ltac:(lia)) as Hd.
  pose proof (Z.mod_pos_bound (r - n) 2 ltac:(lia)) as Hdb.
  lia.
Qed.

Variables (this : Z) (pos : Z) (node left right : Z).
Variables (p nn ln rn : BPTreeNode) (H : gmap Z BPTreeNode).

Hypothesis Hthis : this <> nullptr.
Hypothesis Ep : H !! this = Some p.
Hypothesis Hokp : node_ok p.
Hypothesis Hinner : leaf_ p = false.
Hypothesis Hnp : 1 <= num_items_ p.
Hypothesis Hpos : 0 <= pos <= num_items_ p.
Hypothesis Hnode : child_at H p pos node nn.
Hypothesis Htn : this <> node.
Hypothesis Hdef : num_items_ nn < node_min nn.
Hypothesis Hleft :
  0 < pos -> child_at H p (pos - 1) left ln /\ leaf_ ln = leaf_ nn /\
             left <> this /\ left <> node.
Hypothesis Hright :
  pos < num_items_ p -> child_at H p (pos + 1) right rn /\ leaf_ rn = leaf_ nn /\
                        right <> this /\ right <> node.

(** X19: Whenever [MergeOrRebalanceChild] returns null, it has moved items
    into the deficient child from its right sibling if there is one,
    else from its left sibling, and afterwards both the child and that
    sibling hold at least the minimum and at most the maximum number of
    keys of their kind. *)
Theorem MergeOrRebalanceChild_restores_minimum ok :
  exists res s',
    MergeOrRebalanceChild this pos (mkState H ok) = Some (res, s') /\
    (res = nullptr ->
     exists nn',
       heap s' !! node = Some nn' /\
       node_min nn <= num_items_ nn' <= node_max nn /\
       (pos < num_items_ p ->
        exists rn', heap s' !! right = Some rn' /\
                    num_items_ nn' + num_items_ rn' =
                      num_items_ nn + num_items_ rn /\
                    node_min nn <= num_items_ rn' <= node_max nn) /\
       (pos = num_items_ p ->
        exists ln', heap s' !! left = Some ln' /\
                    num_items_ ln' + num_items_ nn' =
                      num_items_ ln + num_items_ nn /\
                    node_min nn <= num_items_ ln' <= node_max nn)).
Proof.
  pose proof Hnode as (Hcn & Hnnz & En & Hokn).
  pose proof (node_min_eq Hsize nn) as Hmin.
  assert (Hn0 : 0 <= num_items_ nn) by (destruct Hokn; lia).
  assert (HdecL : (0 < pos /\ num_items_ ln + 1 + num_items_ nn <= node_max ln) \/
                  (0 < pos -> node_max ln < num_items_ ln + 1 + num_items_ nn)).
  { destruct (Z.lt_ge_cases 0 pos); [|right; lia].
    destruct (Z.le_gt_cases (num_items_ ln + 1 + num_items_ nn) (node_max ln));
      [left; lia|right; lia]. }
  destruct HdecL as [[Hp0 Hfit]|HnoL].
  { destruct (MergeOrRebalanceChild_merge_left Hsize this pos node left p nn ln H
                Hthis Ep Hokp Hinner Hnp Hpos Hnode Htn Hdef Hleft ok Hp0 Hfit)
      as (H' & Hrun & _).
    exists node. eexists. split; [exact Hrun|]. intros Hnull. contradiction. }
  rewrite (MergeOrRebalanceChild_skip_left Hsize this pos node left p nn ln H
             Hthis Ep Hokp Hnp Hpos Hnode Hdef Hleft ok HnoL).
  set (lft := if 0 <? pos then left else nullptr).
  destruct (Z.lt_ge_cases pos (num_items_ p)) as [Hp1|Hp1].
  - destruct (Hright Hp1) as ((Hcr & Hrnz & Er & Hokr) & Hkind & Hrt & Hrn).
    pose proof (node_max_same_kind rn nn Hkind) as Hmx.
    assert (Hrmax : 0 <= num_items_ rn <= node_max rn) by (destruct Hokr; lia).
    destruct (Z.le_gt_cases (num_items_ nn + 1 + num_items_ rn) (node_max rn))
      as [Hfit|Hno].
    { destruct (MergeOrRebalanceChild_merge_right Hsize this pos node right p nn rn H
                  Hthis Ep Hokp Hinner Hpos Hnode Htn Hright ok lft Hp1 Hfit)
        as (H' & Hrun & _).
      exists right. eexists. split; [exact Hrun|]. intros Hnull. contradiction. }
    destruct (MergeOrRebalanceChild_from_right Hsize this pos node right p nn rn H
                Hthis Ep Hokp Hinner Hpos Hnode Htn Hdef Hright ok lft Hp1 Hno)
      as (H' & Hrun & Hreb).
    destruct Hreb as (p' & nn' & rn' & sep & sep' & _ & En' & Er' & _ & _ & _ & _ & _
                      & _ & _ & _ & _ & _ & Hcn' & Hcr' & _).
    cbn [heap] in En', Er'.
    destruct (half_gap (node_max nn) (num_items_ nn) (num_items_ rn))
      as (Hg1 & Hg2); [lia|lia|lia|lia|].
    exists nullptr. eexists. split; [exact Hrun|]. intros _. cbn [heap].
    exists nn'. split; [exact En'|]. split; [lia|].
    split; [|intros; lia].
    intros _. exists rn'. split; [exact Er'|]. split; lia.
  - assert (Hlast : pos = num_items_ p) by lia.
    assert (Hp0 : 0 < pos) by lia.
    destruct (Hleft Hp0) as ((Hcl & Hlnz & El & Hokl) & Hkind & Hlt & Hln).
    pose proof (node_max_same_kind ln nn Hkind) as Hmx.
    assert (Hlmax : 0 <= num_items_ ln <= node_max ln) by (destruct Hokl; lia).
    destruct (MergeOrRebalanceChild_from_left Hsize this pos node left p nn ln H
                Hthis Ep Hokp Hinner Hnp Hpos Hnode Htn Hdef Hleft ok Hlast (HnoL Hp0))
      as (H' & Hrun & Hreb).
    destruct Hreb as (p' & ln' & nn' & sep & sep' & _ & El' & En' & _ & _ & _ & _ & _
                      & _ & _ & _ & _ & _ & Hcl' & Hcn' & _).
    cbn [heap] in En', El'.
    destruct (half_gap (node_max nn) (num_items_ nn) (num_items_ ln))
      as (Hg1 & Hg2); [lia|lia|lia|lia|].
    subst lft. destruct (Z.ltb_spec 0 pos); [|lia].
    exists nullptr. eexists. split; [exact Hrun|]. intros _. cbn [heap].
    exists nn'. split; [exact En'|]. split; [lia|].
    split; [intros; lia|].
    intros _. exists ln'. split; [exact El'|]. split; lia.
Qed.

End RebalanceOccupancy.
(** ** A node with a single key *)

Section SingleKey.

Context {KT : KeyType}.
Variable cmp_op : KeyT -> KeyT -> Z.
Hypothesis Hcmp : three_way_order cmp_op.


End SingleKey.
(** ** The further properties on the sample trees *)

Import BPTreePath.

Lemma cmp_sub_agrees : lt_agrees (KT := Key64) cmp_sub.
Proof. intros a b. unfold cmp_sub. cbn. rewrite Z.ltb_lt. lia. Qed.

(** A hypothesis on the key of a slot of a sample node. *)
Ltac slot_case :=
  let a := fresh "a" in let Ha := fresh "Ha" in
  intros a Ha; vm_compute in Ha;
  first [ discriminate Ha
        | injection Ha as <-; first [ reflexivity | unfold cmp_sub; lia ] ].

Ltac no_pair :=
  let i := fresh "i" in let j := fresh "j" in
  intros i j ? ? ? ? Hj; intros; exfalso; cbn in Hj; lia.

Lemma Push_on_empty_path :
  exists path',
    Push (KT := Key64) path_empty 10 0 tree_roomy = Some (path', tree_roomy) /\
    Last path' tree_roomy = Some ((10, 0), tree_roomy).
Proof.
  destruct (Push_then_Last_then_Pop (KT := Key64) path_empty 10 0 tree_roomy)
    as (path' & path'' & Hpush & _ & Hlast & _).
  - reflexivity.
  - concrete.
  - exists path'. split; [exact Hpush|exact Hlast].
Defined.

Lemma Last_on_empty_path :
  Last (KT := Key64) path_empty tree_roomy = None.
Proof.
  destruct (path_misuse (KT := Key64) path_empty 10 0 tree_roomy) as (_ & Hempty).
  - reflexivity.
  - apply Hempty. reflexivity.
Defined.

Lemma DigRight_below_parent :
  exists path',
    DigRight (KT := Key64) path_at_parent tree_roomy = Some (path', tree_roomy) /\
    depth_ path' = 2 /\ slot_get (record_ path') 1 = Some (mkRecord 30 1).
Proof.
  destruct (DigRight_follows_last_children (KT := Key64) path_at_parent 10 0 parent10
              [mkRecord 30 1] (heap tree_roomy) true) as (Hfit & _).
  - reflexivity.
  - concrete.
  - reflexivity.
  - discriminate.
  - reflexivity.
  - reflexivity.
  - apply (spine_leaf (KT := Key64) (heap tree_roomy) 10 parent10 30
             (leaf_node 1 [200; 0; 0])); try reflexivity; discriminate.
  - eexists. split; [apply Hfit; concrete|]. split; reflexivity.
Defined.


Lemma LeafInsert_in_sample_leaf :
  exists n',
    LeafInsert (KT := Key64) 20 1 5 tree_roomy =
      Some (tt, mkState (<[20 := n']> (heap tree_roomy)) true) /\
    live_keys n' = [1; 5].
Proof.
  destruct (LeafInsert_keeps_order (KT := Key64) cmp_sub cmp_sub_three_way
              cmp_sub_agrees Key64_size 20 1 5 (leaf_node 1 [1; 0; 0]) tree_roomy)
    as (n' & Hrun & _ & _ & _ & Hkeys & _).
  - discriminate.
  - reflexivity.
  - concrete.
  - reflexivity.
  - concrete.
  - concrete.
  - no_pair.
  - slot_case.
  - slot_case.
  - exists n'. split; [exact Hrun|exact Hkeys].
Defined.


Lemma LeafInsert_in_full_leaf :
  LeafInsert (KT := Key64) 30 1 250 tree_full_right = None.
Proof.
  destruct (insert_into_full_node (KT := Key64) Key64_size 30 1 250 0
              (leaf_node 3 [200; 300; 400]) tree_full_right) as (_ & Hleaf & _).
  - discriminate.
  - reflexivity.
  - concrete.
  - reflexivity.
  - concrete.
  - exact Hleaf.
Defined.

Lemma InnerInsert_in_sample_parent :
  exists n',
    InnerInsert (KT := Key64) 10 1 500 40 tree_roomy =
      Some (tt, mkState (<[10 := n']> (heap tree_roomy)) true) /\
    live_keys n' = [100; 500] /\ live_children n' = [20; 30; 40].
Proof.
  destruct (InnerInsert_inserts_key_and_child (KT := Key64) Key64_size 10 1 500 40
              parent10 tree_roomy)
    as (n' & Hrun & _ & _ & _ & Hkeys & Hch).
  - discriminate.
  - reflexivity.
  - concrete.
  - reflexivity.
  - concrete.
  - concrete.
  - slot_case.
  - slot_case.
  - exists n'. split; [exact Hrun|]. split; [exact Hkeys|exact Hch].
Defined.

Lemma LeafInsert_undone :
  exists s' n'',
    LeafInsert (KT := Key64) 20 1 5 tree_roomy = Some (tt, s') /\
    ShiftLeft 20 1 false s' =
      Some (tt, mkState (<[20 := n'']> (heap tree_roomy)) true) /\
    live_keys n'' = [1].
Proof.
  destruct (LeafInsert_then_ShiftLeft (KT := Key64) Key64_size 20 1 5
              (leaf_node 1 [1; 0; 0]) tree_roomy)
    as (s' & n'' & Hins & Hshift & _ & _ & Hkeys).
  - discriminate.
  - reflexivity.
  - concrete.
  - reflexivity.
  - concrete.
  - concrete.
  - slot_case.
  - slot_case.
  - exists s', n''. split; [exact Hins|]. split; [exact Hshift|exact Hkeys].
Defined.

Lemma InnerInsert_undone :
  exists s' n'',
    InnerInsert (KT := Key64) 10 1 500 40 tree_roomy = Some (tt, s') /\
    ShiftLeft 10 1 true s' =
      Some (tt, mkState (<[10 := n'']> (heap tree_roomy)) true) /\
    live_keys n'' = [100] /\ live_children n'' = [20; 30].
Proof.
  destruct (InnerInsert_then_ShiftLeft (KT := Key64) Key64_size 10 1 500 40
              parent10 tree_roomy)
    as (s' & n'' & Hins & Hshift & _ & _ & Hkeys & Hch).
  - discriminate.
  - reflexivity.
  - concrete.
  - reflexivity.
  - concrete.
  - concrete.
  - slot_case.
  - slot_case.
  - exists s', n''. split; [exact Hins|]. split; [exact Hshift|].
    split; [exact Hkeys|exact Hch].
Defined.

Lemma LeafEraseRight_on_full_leaf :
  LeafEraseRight (KT := Key64) 30 tree_full_right =
  ShiftLeft 30 2 false tree_full_right.
Proof.
  destruct (LeafEraseRight_drops_last_key (KT := Key64) Key64_size 30
              (leaf_node 3 [200; 300; 400]) tree_full_right) as (Hsome & _).
  - discriminate.
  - reflexivity.
  - concrete.
  - reflexivity.
  - destruct Hsome as (Heq & _); [concrete|]. exact Heq.
Defined.

Lemma Split_undone :
  exists median s1 s2 n2,
    Split (KT := Key64) 30 40 tree_to_split = Some (median, s1) /\
    MergeFromRight 30 median 40 s1 = Some (tt, s2) /\
    heap s2 !! 30 = Some n2 /\ live_keys n2 = [200; 300; 400].
Proof.
  destruct (Split_then_MergeFromRight (KT := Key64) Key64_size 30 40
              (leaf_node 3 [200; 300; 400]) (leaf_node 0 [0; 0; 0]) tree_to_split)
    as (median & s1 & s2 & n2 & r2 & Hsplit & Hmerge & _ & Hn2 & _ & _ & _ & _
        & Hkeys & _).
  - discriminate.
  - discriminate.
  - discriminate.
  - reflexivity.
  - reflexivity.
  - concrete.
  - concrete.
  - reflexivity.
  - intros Hleaf. discriminate Hleaf.
  - exists median, s1, s2, n2. split; [exact Hsplit|]. split; [exact Hmerge|].
    split; [exact Hn2|exact Hkeys].
Defined.

Lemma Split_of_sample_leaf_counts :
  exists median s' n' r',
    Split (KT := Key64) 30 40 tree_to_split = Some (median, s') /\
    heap s' !! 30 = Some n' /\ heap s' !! 40 = Some r' /\
    num_items_ n' = 1 /\ num_items_ r' = 1.
Proof.
  destruct (Split_full_node_counts (KT := Key64) Key64_size 30 40
              (leaf_node 3 [200; 300; 400]) (leaf_node 0 [0; 0; 0]) tree_to_split)
    as (median & s' & n' & r' & Hsplit & Hn & Hr & Hcn & Hcr & _).
  - discriminate.
  - discriminate.
  - discriminate.
  - reflexivity.
  - reflexivity.
  - concrete.
  - concrete.
  - reflexivity.
  - reflexivity.
  - intros Hleaf. discriminate Hleaf.
  - exists median, s', n', r'. split; [exact Hsplit|]. split; [exact Hn|].
    split; [exact Hr|]. split; [exact Hcn|exact Hcr].
Defined.

Lemma rebalance_undone :
  exists s1 s2 l2 r2,
    RebalanceChildToLeft (KT := Key64) 10 1 1 tree_full_right = Some (tt, s1) /\
    RebalanceChildToRight 10 0 1 s1 = Some (tt, s2) /\
    heap s2 !! 20 = Some l2 /\ heap s2 !! 30 = Some r2 /\
    live_keys l2 = [1; 2] /\ live_keys r2 = [200; 300; 400].
Proof.
  destruct (RebalanceChildToLeft_then_ToRight (KT := Key64) Key64_size 10 0 1 20 30
              parent10 (leaf_node 2 [1; 2; 0]) (leaf_node 3 [200; 300; 400])
              tree_full_right)
    as (s1 & s2 & l2 & r2 & Hl & Hr & _ & _ & El & Er & _ & _ & _ & Hkl & Hkr & _).
  - discriminate.
  - discriminate.
  - discriminate.
  - discriminate.
  - discriminate.
  - discriminate.
  - reflexivity.
  - reflexivity.
  - reflexivity.
  - concrete.
  - reflexivity.
  - concrete.
  - reflexivity.
  - reflexivity.
  - concrete.
  - concrete.
  - reflexivity.
  - concrete.
  - concrete.
  - exists s1, s2, l2, r2. split; [exact Hl|]. split; [exact Hr|].
    split; [exact El|]. split; [exact Er|]. split; [exact Hkl|exact Hkr].
Defined.

Lemma sample_roomy_increasing :
  seq_increasing (KT := Key64) cmp_sub
    (live_keys (leaf_node 1 [1; 0; 0]) ++ [100] ++ live_keys (leaf_node 1 [200; 0; 0])).
Proof.
  intros i j a b Hi Hij Ha Hb.
  pose proof (slot_get_lt _ _ _ Hb) as Hj. vm_compute in Hj.
  destruct Hj as [_ Hj].
  assert (Hjs : j = 1 \/ j = 2).
  { destruct (Z.eq_dec j 1); [now left|right].
    destruct (Z.eq_dec j 2); [assumption|].
    exfalso. destruct j as [|j|j]; try lia; try discriminate.
    destruct j as [j|j|]; try lia; try discriminate;
      destruct j; try lia; discriminate. }
  destruct Hjs as [-> | ->].
  - assert (i = 0) as -> by lia.
    vm_compute in Ha, Hb. injection Ha as <-. injection Hb as <-. reflexivity.
  - assert (i = 0 \/ i = 1) as [-> | ->] by lia;
      vm_compute in Ha, Hb; injection Ha as <-; injection Hb as <-; reflexivity.
Qed.

Lemma rebalance_order_on_sample :
  exists s' ln' rn' sep',
    RebalanceChildToLeft (KT := Key64) 10 1 1 tree_roomy = Some (tt, s') /\
    heap s' !! 20 = Some ln' /\ heap s' !! 30 = Some rn' /\
    keys_increasing (KT := Key64) cmp_sub ln' /\
    keys_increasing (KT := Key64) cmp_sub rn' /\
    (forall j a, slot_get (live_keys ln') j = Some a -> cmp_sub a sep' < 0).
Proof.
  destruct (rebalance_keeps_key_order (KT := Key64) Key64_size cmp_sub 10 0 1 20 30
              parent10 (leaf_node 1 [1; 0; 0]) (leaf_node 1 [200; 0; 0]) 100
              tree_roomy) as (Hleft & _).
  - discriminate.
  - discriminate.
  - discriminate.
  - discriminate.
  - discriminate.
  - discriminate.
  - reflexivity.
  - reflexivity.
  - reflexivity.
  - concrete.
  - reflexivity.
  - concrete.
  - reflexivity.
  - reflexivity.
  - concrete.
  - concrete.
  - reflexivity.
  - reflexivity.
  - exact sample_roomy_increasing.
  - destruct Hleft as (s' & p' & ln' & rn' & sep' & Hrun & _ & El & Er & _ & Hil & Hir
                       & Hls & _); [concrete|concrete|].
    exists s', ln', rn', sep'. split; [exact Hrun|]. split; [exact El|].
    split; [exact Er|]. split; [exact Hil|]. split; [exact Hir|exact Hls].
Defined.

Lemma merge_order_on_sample :
  exists l' s',
    MergeFromRight (KT := Key64) 20 100 30 tree_roomy = Some (tt, s') /\
    heap s' !! 20 = Some l' /\ keys_increasing (KT := Key64) cmp_sub l'.
Proof.
  destruct (MergeFromRight_keeps_key_order (KT := Key64) Key64_size cmp_sub 20 30 100
              (leaf_node 1 [1; 0; 0]) (leaf_node 1 [200; 0; 0]) tree_roomy)
    as (l' & s' & Hrun & El & _ & Hinc).
  - exact cmp_sub_three_way.
  - discriminate.
  - discriminate.
  - discriminate.
  - reflexivity.
  - reflexivity.
  - concrete.
  - concrete.
  - reflexivity.
  - concrete.
  - no_pair.
  - no_pair.
  - intros j a Ha. pose proof (live_keys_get_Some _ _ _ Ha) as [Hj _].
    cbn in Hj. assert (j = 0) as -> by lia.
    vm_compute in Ha. injection Ha as <-. reflexivity.
  - intros j b Hb. pose proof (live_keys_get_Some _ _ _ Hb) as [Hj _].
    cbn in Hj. assert (j = 0) as -> by lia.
    vm_compute in Hb. injection Hb as <-. reflexivity.
  - exists l', s'. split; [exact Hrun|]. split; [exact El|exact Hinc].
Defined.

Lemma minimum_restored_on_sample :
  exists res s',
    MergeOrRebalanceChild (KT := Key64) 10 0 tree_empty_left = Some (res, s') /\
    (res = nullptr ->
     exists nn', heap s' !! 20 = Some nn' /\ 1 <= num_items_ nn' <= 3).
Proof.
  destruct (MergeOrRebalanceChild_restores_minimum (KT := Key64) Key64_size
              10 0 20 0 30 parent10 (leaf_node 0 [0; 0; 0]) (leaf_node 0 [])
              (leaf_node 3 [200; 300; 400]) (heap tree_empty_left))
    with (ok := true)
    as (res & s' & Hrun & Hnull).
  - discriminate.
  - reflexivity.
  - concrete.
  - reflexivity.
  - concrete.
  - concrete.
  - concrete.
  - discriminate.
  - concrete.
  - intros Hlt. vm_compute in Hlt. discriminate.
  - intros _. concrete.
  - exists res, s'. split; [exact Hrun|].
    intros Hres. destruct (Hnull Hres) as (nn' & En & Hb & _).
    exists nn'. split; [exact En|]. exact Hb.
Defined.

(** ** The keys below a parent, read in order *)

Section InOrder.

Context {KT : KeyType}.
Implicit Types (s : state) (cs : list Z) (ks : list KeyT).

Lemma in_here {A} (x : A) l : x ∈ x :: l.
Proof. apply elem_of_cons. now left. Qed.

Lemma in_further {A} (x y : A) l : x ∈ l -> x ∈ y :: l.
Proof. intros. apply elem_of_cons. now right. Qed.

Lemma delete_second {A} (l1 l2 : list A) x y :
  delete (length l1 + 1)%nat (l1 ++ x :: y :: l2) = l1 ++ x :: l2.
Proof.
  replace (l1 ++ x :: y :: l2) with ((l1 ++ [x]) ++ y :: l2)
    by (now rewrite <- app_assoc).
  replace (length l1 + 1)%nat with (length (l1 ++ [x]))
    by (rewrite length_app; reflexivity).
  rewrite delete_middle. now rewrite <- app_assoc.
Qed.

Lemma interleave_ext s s' cs ks :
  (forall c, c ∈ cs -> child_keys s' c = child_keys s c) ->
  interleave s' cs ks = interleave s cs ks.
Proof.
  revert ks. induction cs as [|c cs IH]; intros ks Hsame; [reflexivity|].
  cbn [interleave]. rewrite (Hsame c) by apply in_here.
  destruct ks as [|k ks]; [reflexivity|].
  rewrite IH; [reflexivity|]. intros c' Hc'. apply Hsame. now apply in_further.
Qed.

Lemma interleave_app s cs1 ks1 cs ks :
  length cs1 = length ks1 ->
  interleave s (cs1 ++ cs) (ks1 ++ ks) = interleave s cs1 ks1 ++ interleave s cs ks.
Proof.
  revert ks1. induction cs1 as [|c cs1 IH]; intros [|k ks1] Hlen;
    try discriminate; [reflexivity|].
  cbn [interleave app]. rewrite IH by (simpl in Hlen; lia).
  now rewrite <- !app_assoc.
Qed.

Lemma slot_get_split {A} (l : list A) i x :
  slot_get l i = Some x ->
  l = takeZ i l ++ x :: drop (Z.to_nat i + 1) l /\ lenZ (takeZ i l) = i.
Proof.
  intros Hx. pose proof (slot_get_lt _ _ _ Hx) as Hi.
  unfold slot_get in Hx. destruct (Z.leb_spec 0 i); [|lia].
  split.
  - unfold takeZ. replace (Z.to_nat i + 1)%nat with (S (Z.to_nat i)) by lia.
    symmetry. now apply take_drop_middle.
  - apply lenZ_takeZ. lia.
Qed.

(** A list of slots around two neighbours. *)
Lemma slot_get_split2 {A} (l : list A) i x y :
  slot_get l i = Some x -> slot_get l (i + 1) = Some y ->
  l = takeZ i l ++ x :: y :: drop (Z.to_nat i + 2) l.
Proof.
  intros Hx Hy. pose proof (slot_get_lt _ _ _ Hx) as Hi.
  destruct (slot_get_split l i x Hx) as (Hl & _).
  rewrite Hl at 1. f_equal. f_equal.
  unfold slot_get in Hy. destruct (Z.leb_spec 0 (i + 1)); [|lia].
  replace (Z.to_nat (i + 1)) with (Z.to_nat i + 1)%nat in Hy by lia.
  rewrite <- (take_drop_middle l _ y Hy) at 1.
  rewrite drop_app_length'; [|rewrite length_take; apply lookup_lt_Some in Hy; lia].
  f_equal. f_equal. lia.
Qed.

Lemma child_keys_frame s s' c :
  heap s' !! c = heap s !! c -> child_keys s' c = child_keys s c.
Proof. unfold child_keys. now intros ->. Qed.

Variables (s s' : state) (this : Z) (p : BPTreeNode) (i : Z).
Variables (lc rc : Z) (ln rn : BPTreeNode).

Hypothesis Ep : heap s !! this = Some p.
Hypothesis El : heap s !! lc = Some ln.
Hypothesis Er : heap s !! rc = Some rn.
Hypothesis Hokp : node_ok p.
Hypothesis Hinner : leaf_ p = false.
Hypothesis Hi : 0 <= i < num_items_ p.
Hypothesis Hcl : slot_get (child_slots p) i = Some lc.
Hypothesis Hcr : slot_get (child_slots p) (i + 1) = Some rc.
Hypothesis Hdup : NoDup (live_children p).
Hypothesis Hself : this ∉ live_children p.

Lemma parent_views :
  exists cs1 cs2 ks1 ks2 sep,
    live_children p = cs1 ++ lc :: rc :: cs2 /\
    live_keys p = ks1 ++ sep :: ks2 /\
    slot_get (key_slots p) i = Some sep /\
    lenZ cs1 = i /\ lenZ ks1 = i /\
    (forall c, c ∈ cs1 ++ cs2 -> c <> this /\ c <> lc /\ c <> rc).
Proof.
  pose proof Hokp as (Hc & Hk & Hch). specialize (Hch Hinner).
  destruct (slot_get_is_Some (key_slots p) i) as [sep Hsep]; [lia|].
  assert (Hcl' : slot_get (live_children p) i = Some lc)
    by (rewrite live_children_get by lia; exact Hcl).
  assert (Hcr' : slot_get (live_children p) (i + 1) = Some rc)
    by (rewrite live_children_get by lia; exact Hcr).
  assert (Hsep' : slot_get (live_keys p) i = Some sep)
    by (rewrite live_keys_get by lia; exact Hsep).
  pose proof (slot_get_split2 _ _ _ _ Hcl' Hcr') as Hcs.
  destruct (slot_get_split _ _ _ Hsep') as (Hks & Hlk).
  exists (takeZ i (live_children p)), (drop (Z.to_nat i + 2) (live_children p)),
         (takeZ i (live_keys p)), (drop (Z.to_nat i + 1) (live_keys p)), sep.
  split; [exact Hcs|]. split; [exact Hks|]. split; [exact Hsep|].
  split.
  { apply lenZ_takeZ. rewrite lenZ_live_children by lia. lia. }
  split; [exact Hlk|].
  intros c Hc0. rewrite Hcs in Hdup, Hself.
  apply NoDup_app in Hdup. destruct Hdup as (_ & Hdis & Hd2).
  apply NoDup_cons in Hd2. destruct Hd2 as (Hl2 & Hd3).
  apply NoDup_cons in Hd3. destruct Hd3 as (Hr3 & _).
  apply elem_of_app in Hc0.
  split; [|split].
  - intros ->. apply Hself. apply elem_of_app.
    destruct Hc0 as [?|?]; [now left|right].
    now apply in_further, in_further.
  - intros ->. destruct Hc0 as [Hin|Hin].
    + apply (Hdis lc Hin). apply in_here.
    + apply Hl2. now apply in_further.
  - intros ->. destruct Hc0 as [Hin|Hin].
    + apply (Hdis rc Hin). apply in_further, in_here.
    + now apply Hr3.
Qed.

Lemma inorder_around :
  forall cs1 cs2 ks1 ks2 sep,
    live_children p = cs1 ++ lc :: rc :: cs2 ->
    live_keys p = ks1 ++ sep :: ks2 ->
    lenZ cs1 = lenZ ks1 ->
    inorder s this =
    interleave s cs1 ks1 ++
    (live_keys ln ++ [sep] ++ live_keys rn) ++
    match ks2 with [] => [] | k :: ks' => k :: interleave s cs2 ks' end.
Proof.
  intros cs1 cs2 ks1 ks2 sep Hcs Hks Hlen.
  unfold inorder. rewrite Ep, Hcs, Hks.
  rewrite interleave_app by (unfold lenZ in Hlen; lia).
  f_equal. cbn [interleave]. unfold child_keys at 1 2. rewrite El, Er.
  now rewrite <- !app_assoc.
Qed.

(** A move between two neighbouring children leaves the keys below
    the parent, read in order, as they were. *)
Lemma rebalanced_inorder dl dr :
  rebalanced s s' this p i lc ln rc rn dl dr ->
  inorder s' this = inorder s this.
Proof.
  intros (p' & ln' & rn' & sep0 & sep' & Ep' & El' & Er' & Hfr & Hnp & Hlp & Hcp
          & Hkp & Hsep0 & Hsep' & Hseq & _ & _ & _ & _ & _ & _ & _ & _ & Hokp').
  destruct parent_views as (cs1 & cs2 & ks1 & ks2 & sep & Hcs & Hks & Hsep & Hl1
                            & Hl2 & Hother).
  assert (sep0 = sep) by congruence. subst sep0.
  rewrite (inorder_around cs1 cs2 ks1 ks2 sep Hcs Hks ltac:(lia)).
  assert (Hcs' : live_children p' = cs1 ++ lc :: rc :: cs2).
  { unfold live_children in *. now rewrite Hnp, Hcp. }
  assert (Hks' : live_keys p' = ks1 ++ sep' :: ks2).
  { pose proof Hokp as (Hc & Hk & _). pose proof Hokp' as (Hc' & Hk' & _).
    assert (Hlen : lenZ (live_keys p) = num_items_ p) by (apply lenZ_live_keys; lia).
    assert (Hlen' : lenZ (live_keys p') = num_items_ p') by (apply lenZ_live_keys; lia).
    rewrite Hks in Hlen.
    apply slot_ext.
    - rewrite Hlen', !lenZ_app, !lenZ_cons in *. lia.
    - intros j Hj. rewrite Hlen' in Hj.
      rewrite live_keys_get by lia.
      destruct (Z.eq_dec j i) as [->|Hne].
      + rewrite Hsep'. rewrite slot_get_app.
        destruct (Z.ltb_spec i (lenZ ks1)); [lia|].
        rewrite slot_get_cons. replace (i - lenZ ks1) with 0 by lia. reflexivity.
      + rewrite (Hkp j Hne). rewrite <- live_keys_get by lia. rewrite Hks.
        rewrite !slot_get_app.
        destruct (Z.ltb_spec j (lenZ ks1)); [reflexivity|].
        rewrite !slot_get_cons.
        destruct (Z.eqb_spec (j - lenZ ks1) 0); [lia|reflexivity]. }
  unfold inorder. rewrite Ep', Hcs', Hks'.
  rewrite interleave_app by (unfold lenZ in *; lia).
  assert (Hsame : forall c, c ∈ cs1 ++ cs2 -> child_keys s' c = child_keys s c).
  { intros c Hc. destruct (Hother c Hc) as (? & ? & ?).
    apply child_keys_frame. now apply Hfr. }
  rewrite (interleave_ext s s' cs1 ks1)
    by (intros c Hc; apply Hsame, elem_of_app; now left).
  f_equal. cbn [interleave]. unfold child_keys at 1 2. rewrite El', Er'.
  rewrite <- Hseq. rewrite <- !app_assoc. cbn [app]. do 3 f_equal.
  destruct ks2 as [|k ks2]; [reflexivity|]. f_equal.
  apply interleave_ext. intros c Hc. apply Hsame, elem_of_app. now right.
Qed.

(** A merge of two neighbouring children leaves them as they were,
    too. *)
Lemma merged_inorder :
  merged s s' this p i lc ln rc rn -> inorder s' this = inorder s this.
Proof.
  intros (p' & ln' & rn' & sep0 & Ep' & El' & Er' & Hfr & Hsep0 & Hnp & Hlp & Hkp
          & Hcp & Hkl & _ & _).
  destruct parent_views as (cs1 & cs2 & ks1 & ks2 & sep & Hcs & Hks & Hsep & Hl1
                            & Hl2 & Hother).
  assert (sep0 = sep) by congruence. subst sep0.
  rewrite (inorder_around cs1 cs2 ks1 ks2 sep Hcs Hks ltac:(lia)).
  assert (Hcs' : live_children p' = cs1 ++ lc :: cs2).
  { rewrite Hcp, Hcs.
    replace (Z.to_nat (i + 1)) with (length cs1 + 1)%nat by (unfold lenZ in Hl1; lia).
    apply delete_second. }
  assert (Hks' : live_keys p' = ks1 ++ ks2).
  { rewrite Hkp, Hks.
    replace (Z.to_nat i) with (length ks1) by (unfold lenZ in Hl2; lia).
    apply delete_middle. }
  unfold inorder. rewrite Ep', Hcs', Hks'.
  rewrite interleave_app by (unfold lenZ in *; lia).
  assert (Hsame : forall c, c ∈ cs1 ++ cs2 -> child_keys s' c = child_keys s c).
  { intros c Hc. destruct (Hother c Hc) as (? & ? & ?).
    apply child_keys_frame. now apply Hfr. }
  rewrite (interleave_ext s s' cs1 ks1)
    by (intros c Hc; apply Hsame, elem_of_app; now left).
  f_equal. cbn [interleave]. unfold child_keys at 1. rewrite El', Hkl.
  rewrite <- !app_assoc. cbn [app]. do 3 f_equal.
  destruct ks2 as [|k ks2]; [reflexivity|]. f_equal.
  apply interleave_ext. intros c Hc. apply Hsame, elem_of_app. now right.
Qed.

End InOrder.
(** ** Rebalancing and merging keep the keys below the parent *)

Section InOrderKept.

Context {KT : KeyType}.
Hypothesis Hsize : 2 <= kKeySize.

(** X20: [RebalanceChildToLeft] and [RebalanceChildToRight] on a parent
    whose children are distinct nodes leave the keys below the parent,
    read in order, as they were. *)
Theorem rebalance_keeps_inorder this i k lc rc p ln rn s :
  this <> nullptr -> lc <> nullptr -> rc <> nullptr ->
  this <> lc -> this <> rc -> lc <> rc ->
  heap s !! this = Some p -> heap s !! lc = Some ln -> heap s !! rc = Some rn ->
  node_ok p -> leaf_ p = false -> 0 <= i < num_items_ p ->
  slot_get (child_slots p) i = Some lc ->
  slot_get (child_slots p) (i + 1) = Some rc ->
  node_ok ln -> node_ok rn -> leaf_ ln = leaf_ rn ->
  NoDup (live_children p) -> this ∉ live_children p ->
  (1 <= k <= num_items_ rn -> k <= node_max ln - num_items_ ln ->
   exists s',
     RebalanceChildToLeft this (i + 1) k s = Some (tt, s') /\
     inorder s' this = inorder s this) /\
  (1 <= k <= num_items_ ln -> k <= node_max rn - num_items_ rn ->
   exists s',
     RebalanceChildToRight this i k s = Some (tt, s') /\
     inorder s' this = inorder s this).
Proof.
  intros Hp Hl Hr Htl Htr Hlr Ep El Er Hokp Hinner Hi Hcl Hcr Hokl Hokr Hkind
    Hdup Hself.
  destruct s as [H ok]. cbn [heap] in *.
  split; intros Hk Hroom.
  - destruct (rebalanced_to_left Hsize this i k lc rc p ln rn H ok)
      as (H' & Hrun & Hreb); auto.
    eexists. split; [exact Hrun|].
    apply (rebalanced_inorder _ _ this p i lc rc ln rn) with (dl := k) (dr := - k);
      assumption.
  - destruct (rebalanced_to_right Hsize this i k lc rc p ln rn H ok)
      as (H' & Hrun & Hreb); auto.
    eexists. split; [exact Hrun|].
    apply (rebalanced_inorder _ _ this p i lc rc ln rn) with (dl := - k) (dr := k);
      assumption.
Qed.

Variables (this : Z) (pos : Z) (node left right : Z).
Variables (p nn ln rn : BPTreeNode) (H : gmap Z BPTreeNode).

Hypothesis Hthis : this <> nullptr.
Hypothesis Ep : H !! this = Some p.
Hypothesis Hokp : node_ok p.
Hypothesis Hinner : leaf_ p = false.
Hypothesis Hpos : 0 <= pos <= num_items_ p.
Hypothesis Hnode : child_at H p pos node nn.
Hypothesis Htn : this <> node.
Hypothesis Hleft :
  0 < pos -> child_at H p (pos - 1) left ln /\ leaf_ ln = leaf_ nn /\
             left <> this /\ left <> node.
Hypothesis Hright :
  pos < num_items_ p -> child_at H p (pos + 1) right rn /\ leaf_ rn = leaf_ nn /\
                        right <> this /\ right <> node.
Hypothesis Hdup : NoDup (live_children p).
Hypothesis Hself : this ∉ live_children p.

Lemma inorder_left_pair ok s' dl dr :
  0 < pos ->
  rebalanced (mkState H ok) s' this p (pos - 1) left ln node nn dl dr ->
  inorder s' this = inorder (mkState H ok) this.
Proof.
  intros Hp0 Hreb.
  destruct (Hleft Hp0) as ((Hcl & Hlnz & El & Hokl) & Hkind & Hlt & Hln).
  destruct Hnode as (Hcn & Hnnz & En & Hokn).
  apply (rebalanced_inorder _ _ this p (pos - 1) left node ln nn) with (dl := dl) (dr := dr);
    auto; try lia.
  now replace (pos - 1 + 1) with pos by lia.
Qed.

Lemma inorder_right_pair ok s' dl dr :
  pos < num_items_ p ->
  rebalanced (mkState H ok) s' this p pos node nn right rn dl dr ->
  inorder s' this = inorder (mkState H ok) this.
Proof.
  intros Hp1 Hreb.
  destruct (Hright Hp1) as ((Hcr & Hrnz & Er & Hokr) & Hkind & Hrt & Hrn).
  destruct Hnode as (Hcn & Hnnz & En & Hokn).
  apply (rebalanced_inorder _ _ this p pos node right nn rn) with (dl := dl) (dr := dr);
    auto; lia.
Qed.

(** X21: [MergeOrRebalanceChild] on a parent whose children are distinct
    nodes leaves the keys below the parent, read in order, as they
    were, whether it merges or rebalances: no key is lost, added or
    moved out of place. *)
Theorem MergeOrRebalanceChild_keeps_inorder ok :
  1 <= num_items_ p -> num_items_ nn < node_min nn ->
  exists res s',
    MergeOrRebalanceChild this pos (mkState H ok) = Some (res, s') /\
    inorder s' this = inorder (mkState H ok) this.
Proof.
  intros Hnp Hdef.
  pose proof Hnode as (Hcn & Hnnz & En & Hokn).
  assert (HdecL : (0 < pos /\ num_items_ ln + 1 + num_items_ nn <= node_max ln) \/
                  (0 < pos -> node_max ln < num_items_ ln + 1 + num_items_ nn)).
  { destruct (Z.lt_ge_cases 0 pos); [|right; lia].
    destruct (Z.le_gt_cases (num_items_ ln + 1 + num_items_ nn) (node_max ln));
      [left; lia|right; lia]. }
  destruct HdecL as [[Hp0 Hfit]|HnoL].
  { destruct (MergeOrRebalanceChild_merge_left Hsize this pos node left p nn ln H
                Hthis Ep Hokp Hinner Hnp Hpos Hnode Htn Hdef Hleft ok Hp0 Hfit)
      as (H' & Hrun & Hm).
    destruct (Hleft Hp0) as ((Hcl & Hlnz & El & Hokl) & Hkind & Hlt & Hln).
    exists node. eexists. split; [exact Hrun|].
    apply (merged_inorder _ _ this p (pos - 1) left node ln nn); auto; try lia.
    now replace (pos - 1 + 1) with pos by lia. }
  rewrite (MergeOrRebalanceChild_skip_left Hsize this pos node left p nn ln H
             Hthis Ep Hokp Hnp Hpos Hnode Hdef Hleft ok HnoL).
  set (lft := if 0 <? pos then left else nullptr).
  destruct (Z.lt_ge_cases pos (num_items_ p)) as [Hp1|Hp1].
  - destruct (Hright Hp1) as ((Hcr & Hrnz & Er & Hokr) & Hkind & Hrt & Hrn).
    destruct (Z.le_gt_cases (num_items_ nn + 1 + num_items_ rn) (node_max rn))
      as [Hfit|Hno].
    { destruct (MergeOrRebalanceChild_merge_right Hsize this pos node right p nn rn H
                  Hthis Ep Hokp Hinner Hpos Hnode Htn Hright ok lft Hp1 Hfit)
        as (H' & Hrun & Hm).
      exists right. eexists. split; [exact Hrun|].
      apply (merged_inorder _ _ this p pos node right nn rn); auto; lia. }
    destruct (MergeOrRebalanceChild_from_right Hsize this pos node right p nn rn H
                Hthis Ep Hokp Hinner Hpos Hnode Htn Hdef Hright ok lft Hp1 Hno)
      as (H' & Hrun & Hreb).
    exists nullptr. eexists. split; [exact Hrun|].
    exact (inorder_right_pair ok _ _ _ Hp1 Hreb).
  - assert (Hlast : pos = num_items_ p) by lia.
    assert (Hp0 : 0 < pos) by lia.
    destruct (MergeOrRebalanceChild_from_left Hsize this pos node left p nn ln H
                Hthis Ep Hokp Hinner Hnp Hpos Hnode Htn Hdef Hleft ok Hlast (HnoL Hp0))
      as (H' & Hrun & Hreb).
    subst lft. destruct (Z.ltb_spec 0 pos); [|lia].
    exists nullptr. eexists. split; [exact Hrun|].
    exact (inorder_left_pair ok _ _ _ Hp0 Hreb).
Qed.

(** X22: [RebalanceChild] on a parent whose children are distinct nodes
    leaves the keys below the parent, read in order, as they were,
    whether it moves items or fails. *)
Theorem RebalanceChild_keeps_inorder insert_pos ok :
  num_items_ nn = node_max nn -> 0 <= insert_pos <= num_items_ nn ->
  exists res s',
    RebalanceChild this pos insert_pos (mkState H ok) = Some (res, s') /\
    inorder s' this = inorder (mkState H ok) this.
Proof.
  intros Hfull Hip.
  set (kL := rebalance_to_move (insert_pos =? num_items_ nn)
               (node_max ln - num_items_ ln)).
  set (kR := rebalance_to_move (insert_pos =? 0) (node_max rn - num_items_ rn)).
  assert (Hdec : (0 < pos /\ kL <> 0) \/ (0 < pos -> kL = 0)).
  { destruct (Z.lt_ge_cases 0 pos); [|right; intros; lia].
    destruct (Z.eq_dec kL 0); [right; auto|left; auto]. }
  destruct Hdec as [[Hp0 HkL0]|Hskip].
  { destruct (RebalanceChild_left Hsize this pos insert_pos node left p nn ln rn H
                Hthis Ep Hokp Hinner Hpos Hnode Htn Hfull Hip Hleft ok Hp0 HkL0)
      as (H' & ok' & Hrun & Hreb & _).
    eexists. eexists. split; [exact Hrun|].
    exact (inorder_left_pair ok _ _ _ Hp0 Hreb). }
  rewrite (RebalanceChild_skip_left Hsize this pos insert_pos node left p nn ln rn H
             Hthis Ep Hokp Hpos Hnode Hip Hleft ok Hskip).
  assert (Hdec : (pos < num_items_ p /\ kR <> 0) \/ (pos < num_items_ p -> kR = 0)).
  { destruct (Z.lt_ge_cases pos (num_items_ p)); [|right; intros; lia].
    destruct (Z.eq_dec kR 0); [right; auto|left; auto]. }
  destruct Hdec as [[Hp1 HkR0]|Hnone].
  - destruct (RebalanceChild_right_move Hsize this pos insert_pos node right p nn ln
                rn H Hthis Ep Hokp Hinner Hpos Hnode Htn Hfull Hip Hright ok Hp1 HkR0)
      as (H' & ok' & Hrun & Hreb & _).
    eexists. eexists. split; [exact Hrun|].
    exact (inorder_right_pair ok _ _ _ Hp1 Hreb).
  - rewrite (RebalanceChild_right_none Hsize this pos insert_pos node right p nn ln
               rn H Hthis Ep Hokp Hpos Hnode Hip Hright ok Hnone).
    eexists. eexists. split; reflexivity.
Qed.

End InOrderKept.

Lemma parent10_children_distinct :
  NoDup (live_children parent10) /\ 10 ∉ live_children parent10.
Proof.
  split.
  - apply (bool_decide_unpack _). vm_compute. exact I.
  - apply (bool_decide_unpack _). vm_compute. exact I.
Qed.

Lemma rebalance_inorder_on_sample :
  exists s',
    RebalanceChildToLeft (KT := Key64) 10 1 1 tree_full_right = Some (tt, s') /\
    inorder s' 10 = [1; 2; 100; 200; 300; 400].
Proof.
  destruct (rebalance_keeps_inorder (KT := Key64) Key64_size 10 0 1 20 30
              parent10 (leaf_node 2 [1; 2; 0]) (leaf_node 3 [200; 300; 400])
              tree_full_right) as (Hleft & _).
  - discriminate.
  - discriminate.
  - discriminate.
  - discriminate.
  - discriminate.
  - discriminate.
  - reflexivity.
  - reflexivity.
  - reflexivity.
  - concrete.
  - reflexivity.
  - concrete.
  - reflexivity.
  - reflexivity.
  - concrete.
  - concrete.
  - reflexivity.
  - apply parent10_children_distinct.
  - apply parent10_children_distinct.
  - destruct Hleft as (s' & Hrun & Hin); [concrete|concrete|].
    exists s'. split; [exact Hrun|]. rewrite Hin. reflexivity.
Defined.

Lemma merge_inorder_on_sample :
  exists res s',
    MergeOrRebalanceChild (KT := Key64) 10 0 tree_empty_left = Some (res, s') /\
    inorder s' 10 = [100; 200; 300; 400].
Proof.
  destruct (MergeOrRebalanceChild_keeps_inorder (KT := Key64) Key64_size
              10 0 20 0 30 parent10 (leaf_node 0 [0; 0; 0]) (leaf_node 0 [])
              (leaf_node 3 [200; 300; 400]) (heap tree_empty_left))
    with (ok := true)
    as (res & s' & Hrun & Hin).
  - discriminate.
  - reflexivity.
  - concrete.
  - reflexivity.
  - concrete.
  - concrete.
  - discriminate.
  - intros Hlt. vm_compute in Hlt. discriminate.
  - intros _. concrete.
  - apply parent10_children_distinct.
  - apply parent10_children_distinct.
  - concrete.
  - concrete.
  - exists res, s'. split; [exact Hrun|]. rewrite Hin. reflexivity.
Defined.

Lemma RebalanceChild_inorder_on_sample :
  exists res s',
    RebalanceChild (KT := Key64) 10 1 3 tree_full_right = Some (res, s') /\
    inorder s' 10 = [1; 2; 100; 200; 300; 400].
Proof.
  destruct (RebalanceChild_keeps_inorder (KT := Key64) Key64_size
              10 1 30 20 0 parent10 (leaf_node 3 [200; 300; 400])
              (leaf_node 2 [1; 2; 0]) (leaf_node 0 []) (heap tree_full_right))
    with (insert_pos := 3) (ok := true)
    as (res & s' & Hrun & Hin).
  - discriminate.
  - reflexivity.
  - concrete.
  - reflexivity.
  - concrete.
  - concrete.
  - discriminate.
  - intros _. concrete.
  - intros Hlt. vm_compute in Hlt. discriminate.
  - apply parent10_children_distinct.
  - apply parent10_children_distinct.
  - reflexivity.
  - concrete.
  - exists res, s'. split; [exact Hrun|]. rewrite Hin. reflexivity.
Defined.
(** ** Inserting after a rebalance, seen from the parent *)

Section InOrderInsert.

Context {KT : KeyType}.
Implicit Types (s : state) (cs : list Z) (ks : list KeyT).

Lemma insert_at_middle o x (pre w post : list KeyT) :
  0 <= o <= lenZ w ->
  pre ++ insert_at o x w ++ post = insert_at (lenZ pre + o) x (pre ++ w ++ post).
Proof.
  intros Ho. pose proof (lenZ_nonneg pre). pose proof (lenZ_nonneg post).
  apply slot_ext.
  - rewrite lenZ_insert_at by (rewrite !lenZ_app; lia).
    rewrite !lenZ_app, lenZ_insert_at by lia. lia.
  - intros j Hj.
    rewrite slot_get_insert_at by (rewrite !lenZ_app; lia).
    rewrite !slot_get_app, lenZ_insert_at by lia.
    rewrite slot_get_insert_at by lia.
    destruct (Z.ltb_spec j (lenZ pre)).
    + destruct (Z.ltb_spec j (lenZ pre + o)); [reflexivity|lia].
    + destruct (Z.ltb_spec (j - lenZ pre) (lenZ w + 1)).
      * destruct (Z.ltb_spec (j - lenZ pre) o).
        -- destruct (Z.ltb_spec j (lenZ pre + o)); [|lia].
           destruct (Z.ltb_spec (j - lenZ pre) (lenZ w)); [reflexivity|lia].
        -- destruct (Z.ltb_spec j (lenZ pre + o)); [lia|].
           destruct (Z.eqb_spec (j - lenZ pre) o).
           ++ destruct (Z.eqb_spec j (lenZ pre + o)); [reflexivity|lia].
           ++ destruct (Z.eqb_spec j (lenZ pre + o)); [lia|].
              destruct (Z.ltb_spec (j - 1) (lenZ pre)); [lia|].
              destruct (Z.ltb_spec (j - 1 - lenZ pre) (lenZ w)); [|lia].
              f_equal. lia.
      * destruct (Z.ltb_spec j (lenZ pre + o)); [lia|].
        destruct (Z.eqb_spec j (lenZ pre + o)); [lia|].
        destruct (Z.ltb_spec (j - 1) (lenZ pre)); [lia|].
        destruct (Z.ltb_spec (j - 1 - lenZ pre) (lenZ w)); [lia|].
        f_equal. lia.
Qed.

Variables (s s'' : state) (this : Z) (p p'' : BPTreeNode) (i : Z).
Variables (lc rc : Z) (ln rn : BPTreeNode).

Hypothesis Ep : heap s !! this = Some p.
Hypothesis El : heap s !! lc = Some ln.
Hypothesis Er : heap s !! rc = Some rn.
Hypothesis Hokp : node_ok p.
Hypothesis Hinner : leaf_ p = false.
Hypothesis Hi : 0 <= i < num_items_ p.
Hypothesis Hcl : slot_get (child_slots p) i = Some lc.
Hypothesis Hcr : slot_get (child_slots p) (i + 1) = Some rc.
Hypothesis Hdup : NoDup (live_children p).
Hypothesis Hself : this ∉ live_children p.

Hypothesis Ep'' : heap s'' !! this = Some p''.
Hypothesis Hnp : num_items_ p'' = num_items_ p.
Hypothesis Hcp : child_slots p'' = child_slots p.
Hypothesis Hkp :
  forall j, j <> i -> slot_get (key_slots p'') j = slot_get (key_slots p) j.
Hypothesis Hokp'' : node_ok p''.
Hypothesis Hfr :
  forall q, q <> this -> q <> lc -> q <> rc -> heap s'' !! q = heap s !! q.

(** The keys below the parent when only two neighbouring children and
    their separator have changed. *)
Lemma inorder_siblings :
  exists pre post,
    inorder s this = pre ++ sibling_keys s this i ++ post /\
    inorder s'' this = pre ++ sibling_keys s'' this i ++ post.
Proof.
  destruct (parent_views this p i lc rc Hokp Hinner Hi Hcl Hcr Hdup Hself)
    as (cs1 & cs2 & ks1 & ks2 & sep & Hcs & Hks & Hsep & Hl1 & Hl2 & Hother).
  pose proof Hokp as (Hc & Hk & _). pose proof Hokp'' as (Hc'' & Hk'' & _).
  destruct (slot_get_is_Some (key_slots p'') i) as [sep'' Hsep'']; [lia|].
  assert (Hcs'' : live_children p'' = cs1 ++ lc :: rc :: cs2).
  { unfold live_children in *. now rewrite Hnp, Hcp. }
  assert (Hks'' : live_keys p'' = ks1 ++ sep'' :: ks2).
  { assert (Hlen : lenZ (live_keys p) = num_items_ p) by (apply lenZ_live_keys; lia).
    assert (Hlen'' : lenZ (live_keys p'') = num_items_ p'')
      by (apply lenZ_live_keys; lia).
    rewrite Hks in Hlen.
    apply slot_ext.
    - rewrite Hlen'', !lenZ_app, !lenZ_cons in *. lia.
    - intros j Hj. rewrite Hlen'' in Hj.
      rewrite live_keys_get by lia.
      destruct (Z.eq_dec j i) as [->|Hne].
      + rewrite Hsep''. rewrite slot_get_app.
        destruct (Z.ltb_spec i (lenZ ks1)); [lia|].
        rewrite slot_get_cons. replace (i - lenZ ks1) with 0 by lia. reflexivity.
      + rewrite (Hkp j Hne). rewrite <- live_keys_get by lia. rewrite Hks.
        rewrite !slot_get_app.
        destruct (Z.ltb_spec j (lenZ ks1)); [reflexivity|].
        rewrite !slot_get_cons.
        destruct (Z.eqb_spec (j - lenZ ks1) 0); [lia|reflexivity]. }
  assert (Hsame : forall c, c ∈ cs1 ++ cs2 -> child_keys s'' c = child_keys s c).
  { intros c Hc0. destruct (Hother c Hc0) as (? & ? & ?).
    apply child_keys_frame. now apply Hfr. }
  exists (interleave s cs1 ks1),
         (match ks2 with [] => [] | k :: ks' => k :: interleave s cs2 ks' end).
  split.
  - unfold inorder, sibling_keys. rewrite Ep, Hcl, Hsep, Hcr, Hcs, Hks.
    rewrite interleave_app by (unfold lenZ in *; lia).
    f_equal. cbn [interleave]. now rewrite <- !app_assoc.
  - unfold inorder, sibling_keys. rewrite Ep'', Hcp, Hcl, Hsep'', Hcr, Hcs'', Hks''.
    rewrite interleave_app by (unfold lenZ in *; lia).
    rewrite (interleave_ext s s'' cs1 ks1)
      by (intros c Hc0; apply Hsame, elem_of_app; now left).
    f_equal. cbn [interleave]. rewrite <- !app_assoc. cbn [app]. do 3 f_equal.
    destruct ks2 as [|k ks2]; [reflexivity|]. f_equal.
    apply interleave_ext. intros c Hc0. apply Hsame, elem_of_app. now right.
Qed.

Lemma inorder_insert o x :
  0 <= o <= lenZ (sibling_keys s this i) ->
  sibling_keys s'' this i = insert_at o x (sibling_keys s this i) ->
  exists o',
    0 <= o' <= lenZ (inorder s this) /\
    inorder s'' this = insert_at o' x (inorder s this).
Proof.
  intros Ho Hins. destruct inorder_siblings as (pre & post & H1 & H2).
  exists (lenZ pre + o). rewrite H1, H2, Hins.
  pose proof (lenZ_nonneg pre). pose proof (lenZ_nonneg post).
  split; [rewrite !lenZ_app; lia|]. now apply insert_at_middle.
Qed.

End InOrderInsert.
(** ** [RebalanceChild] and the pending insert, seen from the parent *)

Section InsertAfterRebalanceInOrder.

Context {KT : KeyType}.
Hypothesis Hsize : 2 <= kKeySize.

(** A move between two neighbouring children followed by a change of
    one of them that inserts a key into their sequence. *)
Lemma after_move_inorder this p i lc rc ln rn dl dr H H' ok ok' s'' t o x :
  H !! this = Some p -> H !! lc = Some ln -> H !! rc = Some rn ->
  node_ok p -> leaf_ p = false -> 0 <= i < num_items_ p ->
  slot_get (child_slots p) i = Some lc ->
  slot_get (child_slots p) (i + 1) = Some rc ->
  NoDup (live_children p) -> this ∉ live_children p ->
  this <> lc -> this <> rc ->
  rebalanced (mkState H ok) (mkState H' ok') this p i lc ln rc rn dl dr ->
  t = lc \/ t = rc ->
  (forall q, q <> t -> heap s'' !! q = H' !! q) ->
  0 <= o <= lenZ (sibling_keys (mkState H ok) this i) ->
  sibling_keys s'' this i = insert_at o x (sibling_keys (mkState H ok) this i) ->
  exists o',
    0 <= o' <= lenZ (inorder (mkState H ok) this) /\
    inorder s'' this = insert_at o' x (inorder (mkState H ok) this).
Proof.
  intros Ep El Er Hokp Hinner Hi Hcl Hcr Hdup Hself Htl Htr Hreb Ht Hfr Ho Hseq.
  destruct Hreb as (p' & ln' & rn' & sep & sep' & Ep' & _ & _ & Hfr' & Hnp & _ & Hcp
                    & Hkp & _ & _ & _ & _ & _ & _ & _ & _ & _ & _ & _ & Hokp').
  cbn [heap] in Ep', Hfr'.
  apply (inorder_insert (mkState H ok) s'' this p p' i lc rc) with (o := o); auto.
  - rewrite Hfr by (destruct Ht; congruence). exact Ep'.
  - intros q Hq1 Hq2 Hq3. rewrite Hfr by (destruct Ht; congruence).
    now apply Hfr'.
Qed.

Lemma to_move_lt far free :
  far = false -> rebalance_to_move far free <> 0 ->
  rebalance_to_move far free < free.
Proof.
  intros -> Hk. destruct (to_move_half _ Hk) as (_ & -> & ?). lia.
Qed.

Variables (this : Z) (pos insert_pos : Z) (node left right : Z).
Variables (p nn ln rn : BPTreeNode) (H : gmap Z BPTreeNode).

Hypothesis Hthis : this <> nullptr.
Hypothesis Ep : H !! this = Some p.
Hypothesis Hokp : node_ok p.
Hypothesis Hinner : leaf_ p = false.
Hypothesis Hpos : 0 <= pos <= num_items_ p.
Hypothesis Hnode : child_at H p pos node nn.
Hypothesis Htn : this <> node.
Hypothesis Hfull : num_items_ nn = node_max nn.
Hypothesis Hip : 0 <= insert_pos <= num_items_ nn.
Hypothesis Hleft :
  0 < pos -> child_at H p (pos - 1) left ln /\ leaf_ ln = leaf_ nn /\
             left <> this /\ left <> node.
Hypothesis Hright :
  pos < num_items_ p -> child_at H p (pos + 1) right rn /\ leaf_ rn = leaf_ nn /\
                        right <> this /\ right <> node.
Hypothesis Hdup : NoDup (live_children p).
Hypothesis Hself : this ∉ live_children p.

(** X23: When [RebalanceChild] succeeds, [InsertItem] of the pending key at
    the node and position it returns fails no assertion, and the keys
    below the parent, read in order, are then the old ones with the
    pending key inserted at one place: nothing else is added, lost or
    reordered.  The pending key is one that respects the order at its
    original slot. *)
Theorem RebalanceChild_then_InsertItem_inorder ok x res s' :
  (forall a,
     (if insert_pos =? 0
      then 0 < pos /\ slot_get (key_slots p) (pos - 1) = Some a
      else slot_get (key_slots nn) (insert_pos - 1) = Some a) ->
     key_lt a x = true) ->
  (forall b,
     (if insert_pos =? num_items_ nn
      then pos < num_items_ p /\ slot_get (key_slots p) pos = Some b
      else slot_get (key_slots nn) insert_pos = Some b) ->
     key_lt x b = true) ->
  RebalanceChild this pos insert_pos (mkState H ok) = Some (res, s') ->
  fst res <> nullptr ->
  exists s'' o,
    InsertItem (fst res) (snd res) x s' = Some (tt, s'') /\
    asserts_ok s'' = asserts_ok s' /\
    0 <= o <= lenZ (inorder (mkState H ok) this) /\
    inorder s'' this = insert_at o x (inorder (mkState H ok) this).
Proof.
  intros Hpred Hsucc Hrun Hres.
  set (kL := rebalance_to_move (insert_pos =? num_items_ nn)
               (node_max ln - num_items_ ln)) in *.
  set (kR := rebalance_to_move (insert_pos =? 0) (node_max rn - num_items_ rn)) in *.
  pose proof Hnode as (Hcn & Hnnz & En & Hokn).
  pose proof (node_ok_count Hsize nn Hokn) as Hcntn.
  pose proof (node_ok_count Hsize p Hokp) as Hcntp.
  pose proof (lenZ_live_keys_ok nn Hokn) as Lnn.
  assert (Knn : lenZ (key_slots nn) = node_max nn) by (destruct Hokn as (? & ? & ?); auto).
  assert (Hkeysp : lenZ (key_slots p) = node_max p) by (destruct Hokp as (? & ? & ?); auto).
  assert (Hcapp : num_items_ p <= node_max p) by (destruct Hokp as (? & ? & ?); lia).
  assert (Hdec : (0 < pos /\ kL <> 0) \/ (0 < pos -> kL = 0)).
  { destruct (Z.lt_ge_cases 0 pos); [|right; intros; lia].
    destruct (Z.eq_dec kL 0); [right; auto|left; auto]. }
  destruct Hdec as [[Hp0 HkL0]|Hskip].
  - (* moved to the left sibling *)
    destruct (RebalanceChild_left Hsize this pos insert_pos node left p nn ln rn H
                Hthis Ep Hokp Hinner Hpos Hnode Htn Hfull Hip Hleft ok Hp0 HkL0)
      as (H' & ok' & Hrun' & Hreb & _).
    fold kL in Hrun', Hreb.
    rewrite Hrun' in Hrun. injection Hrun as <- <-.
    destruct (Hleft Hp0) as ((Hcl & Hlnz & El & Hokl) & Hkind & Hlt & Hln).
    pose proof (node_ok_count Hsize ln Hokl) as Hcntl.
    pose proof (lenZ_live_keys_ok ln Hokl) as Lln.
    assert (Kln : lenZ (key_slots ln) = node_max ln) by (destruct Hokl as (? & ? & ?); auto).
    pose proof (node_max_same_kind ln nn Hkind) as Hmx.
    assert (Hfree : 0 <= node_max ln - num_items_ ln) by (destruct Hokl; lia).
    pose proof (to_move_bounds (insert_pos =? num_items_ nn) _ Hfree) as HkLb.
    fold kL in HkLb.
    destruct (slot_get_is_Some (key_slots p) (pos - 1)) as [sep Hsep]; [lia|].
    assert (HW : sibling_keys (mkState H ok) this (pos - 1) =
                 live_keys ln ++ [sep] ++ live_keys nn).
    { apply (sibling_keys_eq H ok this p (pos - 1) left ln node nn sep); auto.
      now replace (pos - 1 + 1) with pos by lia. }
    assert (Hcn' : slot_get (child_slots p) (pos - 1 + 1) = Some node)
      by (now replace (pos - 1 + 1) with pos by lia).
    assert (HlenW : lenZ (sibling_keys (mkState H ok) this (pos - 1)) =
                    num_items_ ln + 1 + num_items_ nn).
    { rewrite HW, !lenZ_app, lenZ_cons, lenZ_nil. lia. }
    assert (Hlift : forall s'' t o,
              (t = left \/ t = node) ->
              (forall q, q <> t -> heap s'' !! q = H' !! q) ->
              0 <= o <= num_items_ ln + 1 + num_items_ nn ->
              sibling_keys s'' this (pos - 1) =
                insert_at o x (sibling_keys (mkState H ok) this (pos - 1)) ->
              exists o',
                0 <= o' <= lenZ (inorder (mkState H ok) this) /\
                inorder s'' this = insert_at o' x (inorder (mkState H ok) this)).
    { intros s'' t o Ht Hfr Ho Hseq.
      apply (after_move_inorder this p (pos - 1) left node ln nn kL (- kL) H H' ok ok'
               s'' t o x); auto; try lia; congruence. }
    destruct (Z.ltb_spec insert_pos kL) as [Hlt'|Hge]; cbn [fst snd] in *.
    + assert (Hne : insert_pos <> num_items_ nn) by lia.
      assert (HkLlt : kL < node_max ln - num_items_ ln).
      { apply (to_move_lt (insert_pos =? num_items_ nn));
          [now apply Z.eqb_neq|exact HkL0]. }
      destruct (insert_left_after Hsize this left node p ln nn (pos - 1) kL (- kL)
                  H H' ok ok' x) with (idx := num_items_ ln + insert_pos + 1)
        as (s'' & Hins & Hok'' & Hfr & Hseq); auto; try lia; try congruence.
      { intros a _ Ha. rewrite HW in Ha. apply Hpred.
        destruct (Z.eqb_spec insert_pos 0) as [->|Hnz].
        - split; [assumption|]. rewrite <- Ha, Hsep. get_solve.
        - rewrite <- Ha. unfold live_keys. get_solve. }
      { intros b Hb. rewrite HW in Hb. apply Hsucc.
        destruct (Z.eqb_spec insert_pos (num_items_ nn)); [lia|].
        rewrite <- Hb. unfold live_keys. get_solve. }
      destruct (Hlift s'' left (num_items_ ln + insert_pos + 1)) as (o' & Ho' & Hin);
        auto; try lia.
      exists s'', o'. split; [exact Hins|]. split; [exact Hok''|].
      split; [exact Ho'|exact Hin].
    + destruct (insert_right_after Hsize this left node p ln nn (pos - 1) kL (- kL)
                  H H' ok ok' x) with (idx := insert_pos - kL)
        as (s'' & Hins & Hok'' & Hfr & Hseq); auto; try lia; try congruence.
      { intros a Hnz Ha. rewrite HW in Ha. apply Hpred.
        destruct (Z.eqb_spec insert_pos 0) as [|Hnz']; [lia|].
        rewrite <- Ha. unfold live_keys. get_solve. }
      { intros b Hb. rewrite HW in Hb. apply Hsucc.
        pose proof (slot_get_lt _ _ _ Hb) as Hrange.
        destruct (Z.eqb_spec insert_pos (num_items_ nn)) as [Heq|Hneq].
        - exfalso. revert Hrange. len_facts. lia.
        - rewrite <- Hb. unfold live_keys. get_solve. }
      destruct (Hlift s'' node (num_items_ ln + kL + 1 + (insert_pos - kL)))
        as (o' & Ho' & Hin); auto; try lia.
      exists s'', o'. split; [exact Hins|]. split; [exact Hok''|].
      split; [exact Ho'|exact Hin].
  - (* the left sibling took nothing *)
    rewrite (RebalanceChild_skip_left Hsize this pos insert_pos node left p nn ln rn H
               Hthis Ep Hokp Hpos Hnode Hip Hleft ok Hskip) in Hrun.
    assert (Hdec : (pos < num_items_ p /\ kR <> 0) \/ (pos < num_items_ p -> kR = 0)).
    { destruct (Z.lt_ge_cases pos (num_items_ p)); [|right; intros; lia].
      destruct (Z.eq_dec kR 0); [right; auto|left; auto]. }
    destruct Hdec as [[Hp1 HkR0]|Hnone].
    2:{ rewrite (RebalanceChild_right_none Hsize this pos insert_pos node right p nn
                   ln rn H Hthis Ep Hokp Hpos Hnode Hip Hright ok Hnone) in Hrun.
        injection Hrun as <- <-. cbn [fst] in Hres. contradiction. }
    destruct (RebalanceChild_right_move Hsize this pos insert_pos node right p nn ln
                rn H Hthis Ep Hokp Hinner Hpos Hnode Htn Hfull Hip Hright ok Hp1 HkR0)
      as (H' & ok' & Hrun' & Hreb & _).
    fold kR in Hrun', Hreb.
    rewrite Hrun' in Hrun. injection Hrun as <- <-.
    destruct (Hright Hp1) as ((Hcr & Hrnz & Er & Hokr) & Hkind & Hrt & Hrn).
    pose proof (node_ok_count Hsize rn Hokr) as Hcntr.
    pose proof (lenZ_live_keys_ok rn Hokr) as Lrn.
    assert (Krn : lenZ (key_slots rn) = node_max rn) by (destruct Hokr as (? & ? & ?); auto).
    pose proof (node_max_same_kind rn nn Hkind) as Hmx.
    assert (Hfree : 0 <= node_max rn - num_items_ rn) by (destruct Hokr; lia).
    pose proof (to_move_bounds (insert_pos =? 0) _ Hfree) as HkRb.
    fold kR in HkRb.
    destruct (slot_get_is_Some (key_slots p) pos) as [sep Hsep]; [lia|].
    assert (HW : sibling_keys (mkState H ok) this pos =
                 live_keys nn ++ [sep] ++ live_keys rn).
    { apply (sibling_keys_eq H ok this p pos node nn right rn sep); auto. }
    assert (HlenW : lenZ (sibling_keys (mkState H ok) this pos) =
                    num_items_ nn + 1 + num_items_ rn).
    { rewrite HW, !lenZ_app, lenZ_cons, lenZ_nil. lia. }
    assert (Hlift : forall s'' t o,
              (t = node \/ t = right) ->
              (forall q, q <> t -> heap s'' !! q = H' !! q) ->
              0 <= o <= num_items_ nn + 1 + num_items_ rn ->
              sibling_keys s'' this pos =
                insert_at o x (sibling_keys (mkState H ok) this pos) ->
              exists o',
                0 <= o' <= lenZ (inorder (mkState H ok) this) /\
                inorder s'' this = insert_at o' x (inorder (mkState H ok) this)).
    { intros s'' t o Ht Hfr Ho Hseq.
      apply (after_move_inorder this p pos node right nn rn (- kR) kR H H' ok ok'
               s'' t o x); auto; try lia; congruence. }
    destruct (Z.ltb_spec (num_items_ nn - kR) insert_pos) as [Hgt|Hle];
      cbn [fst snd] in *.
    + assert (Hne : insert_pos <> 0) by lia.
      assert (HkRlt : kR < node_max rn - num_items_ rn).
      { apply (to_move_lt (insert_pos =? 0));
          [now apply Z.eqb_neq|exact HkR0]. }
      destruct (insert_right_after Hsize this node right p nn rn pos (- kR) kR
                  H H' ok ok' x)
        with (idx := insert_pos - (num_items_ nn - kR + 1))
        as (s'' & Hins & Hok'' & Hfr & Hseq); auto; try lia; try congruence.
      { intros a Hnz Ha. rewrite HW in Ha. apply Hpred.
        destruct (Z.eqb_spec insert_pos 0) as [|Hnz']; [lia|].
        rewrite <- Ha. unfold live_keys. get_solve. }
      { intros b Hb. rewrite HW in Hb. apply Hsucc.
        destruct (Z.eqb_spec insert_pos (num_items_ nn)) as [Heq|Hneq].
        - split; [assumption|]. rewrite <- Hb, Hsep. get_solve.
        - rewrite <- Hb. unfold live_keys. get_solve. }
      destruct (Hlift s'' right
                  (num_items_ nn + - kR + 1 + (insert_pos - (num_items_ nn - kR + 1))))
        as (o' & Ho' & Hin); auto; try lia.
      exists s'', o'. split; [exact Hins|]. split; [exact Hok''|].
      split; [exact Ho'|exact Hin].
    + destruct (insert_left_after Hsize this node right p nn rn pos (- kR) kR
                  H H' ok ok' x) with (idx := insert_pos)
        as (s'' & Hins & Hok'' & Hfr & Hseq); auto; try lia; try congruence.
      { intros a Hnz Ha. rewrite HW in Ha. apply Hpred.
        destruct (Z.eqb_spec insert_pos 0) as [|Hnz']; [lia|].
        rewrite <- Ha. unfold live_keys. get_solve. }
      { intros b Hb. rewrite HW in Hb. apply Hsucc.
        destruct (Z.eqb_spec insert_pos (num_items_ nn)) as [Heq|Hneq]; [lia|].
        rewrite <- Hb. unfold live_keys. get_solve. }
      destruct (Hlift s'' node insert_pos) as (o' & Ho' & Hin); auto; try lia.
      exists s'', o'. split; [exact Hins|]. split; [exact Hok''|].
      split; [exact Ho'|exact Hin].
Qed.

End InsertAfterRebalanceInOrder.

Lemma insert_after_rebalance_on_sample :
  exists res s' s'',
    RebalanceChild (KT := Key64) 10 1 3 tree_full_right = Some (res, s') /\
    InsertItem (KT := Key64) (fst res) (snd res) 500 s' = Some (tt, s'') /\
    exists o, inorder s'' 10 = insert_at (KT := Key64) o 500 (inorder tree_full_right 10).
Proof.
  destruct (RebalanceChild (KT := Key64) 10 1 3 tree_full_right)
    as [[res s']|] eqn:Hrun; [|vm_compute in Hrun; discriminate].
  assert (Hres : fst res <> nullptr).
  { pose proof Hrun as Hv. vm_compute in Hv. injection Hv as <- _. discriminate. }
  destruct (RebalanceChild_then_InsertItem_inorder (KT := Key64) Key64_size
              10 1 3 30 20 0 parent10 (leaf_node 3 [200; 300; 400])
              (leaf_node 2 [1; 2; 0]) (leaf_node 0 []) (heap tree_full_right))
    with (ok := true) (x := 500 : KeyT (KeyType := Key64)) (res := res) (s' := s')
    as (s'' & o & Hins & _ & _ & Hin).
  - discriminate.
  - reflexivity.
  - concrete.
  - reflexivity.
  - concrete.
  - concrete.
  - discriminate.
  - reflexivity.
  - concrete.
  - intros _. concrete.
  - intros Hlt. vm_compute in Hlt. discriminate.
  - apply parent10_children_distinct.
  - apply parent10_children_distinct.
  - intros a Ha. vm_compute in Ha. injection Ha as <-. reflexivity.
  - intros b Hb. cbn in Hb. destruct Hb as [Hlt _]. vm_compute in Hlt. discriminate.
  - exact Hrun.
  - exact Hres.
  - exists res, s', s''. split; [reflexivity|]. split; [exact Hins|].
    exists o. exact Hin.
Defined.
(** ** When no assertion fails *)

Section NoFailedAssertion.

Context {KT : KeyType}.
Hypothesis Hsize : 2 <= kKeySize.

Variables (this : Z) (pos : Z) (node left right : Z).
Variables (p nn ln rn : BPTreeNode) (H : gmap Z BPTreeNode).

Hypothesis Hthis : this <> nullptr.
Hypothesis Ep : H !! this = Some p.
Hypothesis Hokp : node_ok p.
Hypothesis Hinner : leaf_ p = false.
Hypothesis Hpos : 0 <= pos <= num_items_ p.
Hypothesis Hnode : child_at H p pos node nn.
Hypothesis Htn : this <> node.
Hypothesis Hleft :
  0 < pos -> child_at H p (pos - 1) left ln /\ leaf_ ln = leaf_ nn /\
             left <> this /\ left <> node.
Hypothesis Hright :
  pos < num_items_ p -> child_at H p (pos + 1) right rn /\ leaf_ rn = leaf_ nn /\
                        right <> this /\ right <> node.

(** X24: [RebalanceChild] on a full child whose siblings each hold at
    least one key returns without touching memory outside the nodes and
    fails none of its assertions, nor those of the rebalancing function
    it calls, whether it succeeds or not. *)
Theorem RebalanceChild_fails_no_assertion insert_pos ok :
  num_items_ nn = node_max nn -> 0 <= insert_pos <= num_items_ nn ->
  (0 < pos -> 1 <= num_items_ ln) ->
  (pos < num_items_ p -> 1 <= num_items_ rn) ->
  exists res s',
    RebalanceChild this pos insert_pos (mkState H ok) = Some (res, s') /\
    asserts_ok s' = ok.
Proof.
  intros Hfull Hip Hl1 Hr1.
  set (kL := rebalance_to_move (insert_pos =? num_items_ nn)
               (node_max ln - num_items_ ln)).
  set (kR := rebalance_to_move (insert_pos =? 0) (node_max rn - num_items_ rn)).
  assert (Hdec : (0 < pos /\ kL <> 0) \/ (0 < pos -> kL = 0)).
  { destruct (Z.lt_ge_cases 0 pos); [|right; intros; lia].
    destruct (Z.eq_dec kL 0); [right; auto|left; auto]. }
  destruct Hdec as [[Hp0 HkL0]|Hskip].
  { destruct (RebalanceChild_left Hsize this pos insert_pos node left p nn ln rn H
                Hthis Ep Hokp Hinner Hpos Hnode Htn Hfull Hip Hleft ok Hp0 HkL0)
      as (H' & ok' & Hrun & _ & Hok).
    eexists. eexists. split; [exact Hrun|]. cbn [asserts_ok]. apply Hok. auto. }
  rewrite (RebalanceChild_skip_left Hsize this pos insert_pos node left p nn ln rn H
             Hthis Ep Hokp Hpos Hnode Hip Hleft ok Hskip).
  assert (Hdec : (pos < num_items_ p /\ kR <> 0) \/ (pos < num_items_ p -> kR = 0)).
  { destruct (Z.lt_ge_cases pos (num_items_ p)); [|right; intros; lia].
    destruct (Z.eq_dec kR 0); [right; auto|left; auto]. }
  destruct Hdec as [[Hp1 HkR0]|Hnone].
  - destruct (RebalanceChild_right_move Hsize this pos insert_pos node right p nn ln
                rn H Hthis Ep Hokp Hinner Hpos Hnode Htn Hfull Hip Hright ok Hp1 HkR0)
      as (H' & ok' & Hrun & _ & Hok).
    eexists. eexists. split; [exact Hrun|]. cbn [asserts_ok]. apply Hok. auto.
  - rewrite (RebalanceChild_right_none Hsize this pos insert_pos node right p nn ln
               rn H Hthis Ep Hokp Hpos Hnode Hip Hright ok Hnone).
    eexists. eexists. split; reflexivity.
Qed.

(** X25: [MergeOrRebalanceChild] on a deficient child that still holds a
    key returns without touching memory outside the nodes and fails none
    of its assertions, nor those of the functions it calls. *)
Theorem MergeOrRebalanceChild_fails_no_assertion ok :
  1 <= num_items_ p -> num_items_ nn < node_min nn -> 1 <= num_items_ nn ->
  exists res s',
    MergeOrRebalanceChild this pos (mkState H ok) = Some (res, s') /\
    asserts_ok s' = ok.
Proof.
  intros Hnp Hdef Hone.
  destruct (MergeOrRebalanceChild_asserts Hsize this pos node left right p nn ln rn H
              Hthis Ep Hokp Hinner Hnp Hpos Hnode Htn Hdef Hleft Hright ok)
    as (_ & _ & res & s' & Hrun & Hok).
  exists res, s'. split; [exact Hrun|]. rewrite Hok.
  destruct (Z.eqb_spec (num_items_ nn) 0); [lia|].
  now rewrite andb_false_r, andb_true_r.
Qed.

End NoFailedAssertion.

Lemma RebalanceChild_asserts_on_sample :
  exists res s',
    RebalanceChild (KT := Key64) 10 1 3 tree_full_right = Some (res, s') /\
    asserts_ok s' = true.
Proof.
  destruct (RebalanceChild_fails_no_assertion (KT := Key64) Key64_size
              10 1 30 20 0 parent10 (leaf_node 3 [200; 300; 400])
              (leaf_node 2 [1; 2; 0]) (leaf_node 0 []) (heap tree_full_right))
    with (insert_pos := 3) (ok := true)
    as (res & s' & Hrun & Hok).
  - discriminate.
  - reflexivity.
  - concrete.
  - reflexivity.
  - concrete.
  - concrete.
  - discriminate.
  - intros _. concrete.
  - intros Hlt. vm_compute in Hlt. discriminate.
  - reflexivity.
  - concrete.
  - intros _. concrete.
  - intros Hlt. vm_compute in Hlt. discriminate.
  - exists res, s'. split; [exact Hrun|exact Hok].
Defined.

Lemma Key32_size : 2 <= kKeySize (KeyType := Key32).
Proof. concrete. Qed.

Lemma MergeOrRebalanceChild_asserts_on_sample :
  exists res s',
    MergeOrRebalanceChild (KT := Key32) 10 0 tree_short_left = Some (res, s') /\
    asserts_ok s' = true.
Proof.
  destruct (MergeOrRebalanceChild_fails_no_assertion (KT := Key32) Key32_size
              10 0 20 0 30 parent32 leaf32_short leaf32_short leaf32_full
              (heap tree_short_left))
    with (ok := true)
    as (res & s' & Hrun & Hok).
  - discriminate.
  - reflexivity.
  - concrete.
  - reflexivity.
  - concrete.
  - concrete.
  - discriminate.
  - intros Hlt. vm_compute in Hlt. discriminate.
  - intros _. concrete.
  - concrete.
  - concrete.
  - concrete.
  - exists res, s'. split; [exact Hrun|exact Hok].
Defined.
(** ** Splitting a child and linking its new sibling *)

Section SplitThenInsert.

Context {KT : KeyType}.
Hypothesis Hsize : 2 <= kKeySize.

Lemma insert_child_at_middle (c d : Z) (cs1 cs2 : list Z) :
  insert_child_at (lenZ cs1 + 1) d (cs1 ++ c :: cs2) = cs1 ++ c :: d :: cs2.
Proof.
  pose proof (lenZ_nonneg cs1). pose proof (lenZ_nonneg cs2).
  assert (Hlen : lenZ (cs1 ++ c :: cs2) = lenZ cs1 + 1 + lenZ cs2).
  { rewrite lenZ_app. unfold lenZ. simpl. lia. }
  assert (Hlen' : lenZ (cs1 ++ c :: d :: cs2) = lenZ cs1 + 2 + lenZ cs2).
  { rewrite lenZ_app. unfold lenZ. simpl. lia. }
  unfold insert_child_at. rewrite Hlen.
  replace (lenZ cs1 + 1 + lenZ cs2 - (lenZ cs1 + 1)) with (lenZ cs2) by lia.
  assert (Htot : lenZ (takeZ (lenZ cs1 + 1) (cs1 ++ c :: cs2) ++
                       [d] ++ sliceZ (cs1 ++ c :: cs2) (lenZ cs1 + 1) (lenZ cs2))
                 = lenZ cs1 + 2 + lenZ cs2).
  { rewrite lenZ_app, lenZ_app, lenZ_takeZ, lenZ_sliceZ by lia.
    change (lenZ [d]) with 1. lia. }
  apply slot_ext; [now rewrite Htot, Hlen'|].
  rewrite Htot. intros j Hj.
  rewrite slot_get_app, slot_get_app, slot_get_takeZ, lenZ_takeZ by lia.
  rewrite slot_get_sliceZ by lia.
  change (c :: d :: cs2) with ([c] ++ [d] ++ cs2).
  change (c :: cs2) with ([c] ++ cs2).
  rewrite !slot_get_app.
  change (lenZ [c]) with 1. change (lenZ [d]) with 1.
  destruct (Z.ltb_spec j (lenZ cs1 + 1)).
  - destruct (Z.ltb_spec j (lenZ cs1)); [reflexivity|].
    destruct (Z.ltb_spec (j - lenZ cs1) 1); [reflexivity|lia].
  - destruct (Z.ltb_spec j (lenZ cs1)); [lia|].
    destruct (Z.ltb_spec (j - lenZ cs1) 1); [lia|].
    destruct (Z.ltb_spec (j - (lenZ cs1 + 1)) 1).
    + destruct (Z.ltb_spec (j - lenZ cs1 - 1) 1); [|lia].
      f_equal. lia.
    + destruct (Z.ltb_spec (j - lenZ cs1 - 1) 1); [lia|].
      destruct (Z.leb_spec 0 (j - (lenZ cs1 + 1) - 1)); [|lia].
      destruct (Z.ltb_spec (j - (lenZ cs1 + 1) - 1) (lenZ cs2)); [|lia].
      cbn [andb].
      destruct (Z.ltb_spec (lenZ cs1 + 1 + (j - (lenZ cs1 + 1) - 1)) (lenZ cs1));
        [lia|].
      destruct (Z.ltb_spec (lenZ cs1 + 1 + (j - (lenZ cs1 + 1) - 1) - lenZ cs1) 1);
        [lia|].
      f_equal. lia.
Qed.

Lemma insert_at_between (x : KeyT) (ks1 ks2 : list KeyT) :
  insert_at (lenZ ks1) x (ks1 ++ ks2) = ks1 ++ x :: ks2.
Proof.
  pose proof (lenZ_nonneg ks1).
  pose proof (insert_at_middle (lenZ ks1) x [] ks1 ks2) as Hm.
  assert (Hi : insert_at (lenZ ks1) x ks1 = ks1 ++ [x]).
  { unfold insert_at, takeZ, sliceZ.
    replace (Z.to_nat (lenZ ks1)) with (length ks1) by (unfold lenZ; lia).
    rewrite firstn_all, drop_all. rewrite Z.sub_diag. reflexivity. }
  cbn [app] in Hm. rewrite Hi in Hm. change (lenZ []) with 0 in Hm.
  rewrite Z.add_0_l in Hm. rewrite <- Hm by lia.
  now rewrite <- app_assoc.
Qed.

Variables (this pos node right : Z) (p nn r0 : BPTreeNode).
Variable H : gmap Z BPTreeNode.

Hypothesis Hthis : this <> nullptr.
Hypothesis Ep : H !! this = Some p.
Hypothesis Hokp : node_ok p.
Hypothesis Hinner : leaf_ p = false.
Hypothesis Hroom : num_items_ p < node_max p.
Hypothesis Hpos : 0 <= pos <= num_items_ p.
Hypothesis Hnode : child_at H p pos node nn.
Hypothesis Htn : this <> node.
Hypothesis Hitems : 1 <= num_items_ nn.
Hypothesis Hright : right <> nullptr /\ right <> this /\ right <> node.
Hypothesis Er : H !! right = Some r0.
Hypothesis Hr0k : lenZ (key_slots r0) = node_max nn.
Hypothesis Hr0c : leaf_ nn = false -> lenZ (child_slots r0) = node_max nn + 1.
Hypothesis Hdup : NoDup (live_children p).
Hypothesis Hself : this ∉ live_children p.
Hypothesis Hfresh : right ∉ live_children p.
Hypothesis Hlow :
  forall m a, slot_get (key_slots nn) (num_items_ nn / 2) = Some m ->
              slot_get (live_keys p) (pos - 1) = Some a -> key_lt a m = true.
Hypothesis Hhigh :
  forall m b, slot_get (key_slots nn) (num_items_ nn / 2) = Some m ->
              slot_get (live_keys p) pos = Some b -> key_lt m b = true.

(** The parent's children and keys around the child at [pos]. *)
Lemma parent_view_one :
  exists cs1 cs2 ks1 ks2,
    live_children p = cs1 ++ node :: cs2 /\
    live_keys p = ks1 ++ ks2 /\
    lenZ cs1 = pos /\ lenZ ks1 = pos /\
    (forall c, c ∈ cs1 ++ cs2 -> c <> this /\ c <> node /\ c <> right).
Proof.
  pose proof Hokp as (Hc & Hk & Hch). specialize (Hch Hinner).
  destruct Hnode as (Hcn & _).
  assert (Hcn' : slot_get (live_children p) pos = Some node)
    by (rewrite live_children_get by lia; exact Hcn).
  destruct (slot_get_split _ _ _ Hcn') as (Hcs & Hlc).
  exists (takeZ pos (live_children p)),
         (drop (Z.to_nat pos + 1) (live_children p)),
         (takeZ pos (live_keys p)), (drop (Z.to_nat pos) (live_keys p)).
  split; [exact Hcs|].
  split; [unfold takeZ; now rewrite take_drop|].
  split; [exact Hlc|].
  split; [apply lenZ_takeZ; rewrite lenZ_live_keys by lia; lia|].
  intros c Hc0. rewrite Hcs in Hdup, Hself, Hfresh.
  apply NoDup_app in Hdup. destruct Hdup as (_ & Hdis & Hd2).
  apply NoDup_cons in Hd2. destruct Hd2 as (Hl2 & _).
  apply elem_of_app in Hc0.
  split; [|split].
  - intros ->. apply Hself. apply elem_of_app.
    destruct Hc0 as [?|?]; [now left|right]. now apply in_further.
  - intros ->. destruct Hc0 as [Hin|Hin].
    + apply (Hdis node Hin). apply in_here.
    + now apply Hl2.
  - intros ->. apply Hfresh. apply elem_of_app.
    destruct Hc0 as [?|?]; [now left|right]. now apply in_further.
Qed.

(** X26: splitting the child at [pos] into a fresh node and linking the
    fresh node into the parent with [InnerInsert] at [pos], under the
    median key that [Split] returns, fails no assertion and leaves the
    keys below the parent, read in order, as they were. *)
Theorem Split_then_InnerInsert_keeps_inorder ok :
  exists median s1 s2,
    Split node right (mkState H ok) = Some (median, s1) /\
    InnerInsert this pos median right s1 = Some (tt, s2) /\
    asserts_ok s2 = ok /\
    child_keys s2 node ++ [median] ++ child_keys s2 right = live_keys nn /\
    inorder s2 this = inorder (mkState H ok) this.
Proof.
  destruct parent_view_one as (cs1 & cs2 & ks1 & ks2 & Hcs & Hks & Hl1 & Hl2 & Hout).
  destruct Hnode as (_ & Hnn & En & Hokn).
  destruct Hright as (Hr1 & Hr2 & Hr3).
  pose proof Hokn as (Hcn & Hkn & Hchn).
  pose proof Hokp as (Hcp & Hkp & Hchp). specialize (Hchp Hinner).
  assert (Hhalf : 0 <= num_items_ nn / 2 < num_items_ nn).
  { split; [apply Z.div_pos; lia|apply Z.div_lt; lia]. }
  destruct (Split_spec_len Hsize node right nn r0 H ok Hnn Hr1 (not_eq_sym Hr3)
              En Er Hokn Hitems)
    as (median & n' & r' & Hrun & Hmed & Hn' & Hr' & Hl' & Hlr & Hk' & Hc' &
        Hkr & _); [lia|intros Hi; rewrite (Hr0c Hi); lia|].
  set (H1 := <[node := n']> (<[right := r']> H)) in *.
  assert (E1 : H1 !! this = Some p).
  { unfold H1. rewrite lookup_insert_ne by (apply not_eq_sym; exact Htn).
    rewrite lookup_insert_ne by exact Hr2. exact Ep. }
  pose proof (InnerInsert_run Hsize this pos median right p H1 ok Hthis E1 Hokp
                Hinner Hroom Hpos (fun a => Hlow median a Hmed)
                (fun b => Hhigh median b Hmed)) as Hins.
  exists median, (mkState H1 ok), 
         (mkState (<[this := inserted_child p pos median right]> H1) ok).
  split; [exact Hrun|]. split; [exact Hins|]. split; [reflexivity|].
  set (s2 := mkState (<[this := inserted_child p pos median right]> H1) ok).
  assert (E2n : heap s2 !! node = Some n').
  { cbn [s2 heap]. rewrite lookup_insert_ne by exact Htn.
    unfold H1. apply lookup_insert_eq. }
  assert (E2r : heap s2 !! right = Some r').
  { cbn [s2 heap]. rewrite lookup_insert_ne by (apply not_eq_sym; exact Hr2).
    unfold H1. rewrite lookup_insert_ne by (apply not_eq_sym; exact Hr3).
    apply lookup_insert_eq. }
  assert (E2p : heap s2 !! this = Some (inserted_child p pos median right)).
  { cbn [s2 heap]. apply lookup_insert_eq. }
  assert (Hjoin : live_keys n' ++ [median] ++ live_keys r' = live_keys nn).
  { rewrite Hkr. unfold live_keys. rewrite Hn', Hk'.
    assert (Hm' : slot_get (takeZ (num_items_ nn) (key_slots nn)) (num_items_ nn / 2)
                  = Some median).
    { rewrite slot_get_takeZ.
      destruct (Z.ltb_spec (num_items_ nn / 2) (num_items_ nn)); [exact Hmed|lia]. }
    destruct (slot_get_split _ _ _ Hm') as (Hsp & _). rewrite Hsp at 1.
    unfold takeZ, sliceZ. rewrite take_take.
    replace (Z.to_nat (num_items_ nn / 2) `min` Z.to_nat (num_items_ nn))%nat
      with (Z.to_nat (num_items_ nn / 2)) by lia.
    f_equal. cbn [app]. f_equal.
    rewrite skipn_firstn_comm.
    f_equal; [lia|]. f_equal. lia. }
  split.
  { unfold child_keys. rewrite E2n, E2r. exact Hjoin. }
  assert (Hafter :
    inorder s2 this =
    interleave s2 cs1 ks1 ++ (live_keys n' ++ [median] ++ live_keys r') ++
    match ks2 with [] => [] | k :: ks' => k :: interleave s2 cs2 ks' end).
  { apply (inorder_around s2 this (inserted_child p pos median right) node right
             n' r' E2p E2n E2r cs1 cs2 ks1 ks2 median).
    - rewrite inserted_child_children by assumption.
      rewrite Hcs, <- Hl1. apply insert_child_at_middle.
    - rewrite inserted_child_keys by assumption.
      rewrite Hks, <- Hl2. apply insert_at_between.
    - lia. }
  rewrite Hafter, Hjoin.
  unfold inorder. cbn [heap]. rewrite Ep, Hcs, Hks.
  rewrite interleave_app by (unfold lenZ in Hl1, Hl2; lia).
  assert (Hframe : forall c, c ∈ cs1 ++ cs2 ->
            child_keys s2 c = child_keys (mkState H ok) c).
  { intros c Hc0. destruct (Hout c Hc0) as (Hn1 & Hn2 & Hn3).
    apply child_keys_frame. cbn [s2 heap].
    rewrite lookup_insert_ne by (apply not_eq_sym; exact Hn1).
    unfold H1. rewrite lookup_insert_ne by (apply not_eq_sym; exact Hn2).
    now rewrite lookup_insert_ne by (apply not_eq_sym; exact Hn3). }
  rewrite (interleave_ext (mkState H ok) s2 cs1 ks1)
    by (intros c Hc0; apply Hframe, elem_of_app; now left).
  f_equal. cbn [interleave]. unfold child_keys at 1. cbn [heap]. rewrite En.
  f_equal. destruct ks2 as [|k ks']; [reflexivity|].
  f_equal. apply interleave_ext.
  intros c Hc0. apply Hframe, elem_of_app. now right.
Qed.

End SplitThenInsert.

Lemma spare_not_a_child : 40 ∉ live_children parent10.
Proof. apply (bool_decide_unpack _). vm_compute. exact I. Qed.

Lemma Split_then_InnerInsert_on_sample :
  exists median s1 s2,
    Split (KT := Key64) 30 40 tree_with_spare = Some (median, s1) /\
    InnerInsert (KT := Key64) 10 1 median 40 s1 = Some (tt, s2) /\
    asserts_ok s2 = true /\
    inorder s2 10 = inorder tree_with_spare 10.
Proof.
  destruct (Split_then_InnerInsert_keeps_inorder (KT := Key64) Key64_size
              10 1 30 40 parent10 (leaf_node 3 [200; 300; 400])
              (leaf_node 0 [0; 0; 0]) (heap tree_with_spare))
    with (ok := true)
    as (median & s1 & s2 & Hrun & Hins & Hok & _ & Hin).
  - discriminate.
  - reflexivity.
  - concrete.
  - reflexivity.
  - concrete.
  - concrete.
  - concrete.
  - discriminate.
  - concrete.
  - concrete.
  - reflexivity.
  - reflexivity.
  - intros Hl. discriminate.
  - apply parent10_children_distinct.
  - apply parent10_children_distinct.
  - apply spare_not_a_child.
  - intros m a Hm Ha. vm_compute in Hm, Ha.
    injection Hm as <-. injection Ha as <-. reflexivity.
  - intros m b _ Hb. vm_compute in Hb. discriminate.
  - exists median, s1, s2. split; [exact Hrun|]. split; [exact Hins|].
    split; [exact Hok|exact Hin].
Defined.
